(** * Reference-integrity checker of the CANONIC machine tools

    A shallow embedding of [FSMValidator] from [tools/validators.py]: the
    ledger parser, the episode index, the prose reference scanner, the
    source-episode check and the structure-order check, together with the
    properties the specification states about them.

    Text is modelled as [string], a character being a code point below 256.
    On that range the regular-expression class [\d] is exactly [0-9] and the
    characters removed by [str.strip()] are the ones listed in [is_space]. *)

From Stdlib Require Import Ascii String DecimalString.
From stdpp Require Import base decidable list gmap strings sorting.

Local Open Scope string_scope.

(* stdpp keeps [simpl] from unfolding string concatenation. *)
Local Arguments String.append !_ _ / : simpl nomatch.

(** ** Python string operations *)

Module Py.

(** Characters [str.strip()] removes: TAB, LF, VT, FF, CR, the separators
    0x1c-0x1f, SPACE, NEL (0x85) and NBSP (0xa0). *)
Definition is_space (c : ascii) : bool :=
  let n := nat_of_ascii c in
  (((9 <=? n) && (n <=? 13)) || ((28 <=? n) && (n <=? 32))
   || (n =? 133) || (n =? 160))%nat.

(** [\d] on code points below 256. *)
Definition is_digit (c : ascii) : bool :=
  let n := nat_of_ascii c in ((48 <=? n) && (n <=? 57))%nat.

Definition digit_value (c : ascii) : nat := nat_of_ascii c - 48.

Fixpoint lstrip_with (p : ascii -> bool) (s : string) : string :=
  match s with
  | String c r => if p c then lstrip_with p r else s
  | EmptyString => EmptyString
  end.

(** Removes the trailing characters satisfying [p]. *)
Fixpoint rstrip_with (p : ascii -> bool) (s : string) : string :=
  match s with
  | String c r =>
      match rstrip_with p r with
      | EmptyString => if p c then EmptyString else String c EmptyString
      | r' => String c r'
      end
  | EmptyString => EmptyString
  end.

Definition strip_with (p : ascii -> bool) (s : string) : string :=
  rstrip_with p (lstrip_with p s).

(** [s.strip()] *)
Definition strip (s : string) : string := strip_with is_space s.

(** [s.strip(chars)] for a one-character [chars]. *)
Definition strip_char (c : ascii) (s : string) : string :=
  strip_with (Ascii.eqb c) s.

(** [s.startswith(p)] *)
Fixpoint startswith (p s : string) : bool :=
  match p, s with
  | EmptyString, _ => true
  | String a p', String b s' => Ascii.eqb a b && startswith p' s'
  | String _ _, EmptyString => false
  end.

(** [s[n:]] for [0 <= n] *)
Fixpoint drop (n : nat) (s : string) : string :=
  match n, s with
  | O, _ => s
  | S n', String _ r => drop n' r
  | S _, EmptyString => EmptyString
  end.

(** [s[:n]] for [0 <= n] *)
Fixpoint take (n : nat) (s : string) : string :=
  match n, s with
  | O, _ => EmptyString
  | S n', String c r => String c (take n' r)
  | S _, EmptyString => EmptyString
  end.

(** [s.endswith(p)] *)
Definition endswith (p s : string) : bool :=
  (String.length p <=? String.length s)%nat
  && String.eqb (drop (String.length s - String.length p) s) p.

(** [s[a:-b]] for [0 <= a] and [0 < b] *)
Definition slice_between (a b : nat) (s : string) : string :=
  take (String.length s - b - a) (drop a s).

(** [s.split(sep)] for a one-character separator: never empty. *)
Fixpoint split (sep : ascii) (s : string) : list string :=
  match s with
  | EmptyString => [EmptyString]
  | String c r =>
      if Ascii.eqb c sep then EmptyString :: split sep r
      else match split sep r with
           | w :: ws => String c w :: ws
           | [] => [String c EmptyString]
           end
  end.

(** [sep in s] for a one-character [sep]. *)
Fixpoint contains (sep : ascii) (s : string) : bool :=
  match s with
  | EmptyString => false
  | String c r => Ascii.eqb c sep || contains sep r
  end.

(** [s.split(sep, 1)[1]] when [sep in s]: what follows the first [sep]. *)
Fixpoint after_first (sep : ascii) (s : string) : string :=
  match s with
  | EmptyString => EmptyString
  | String c r => if Ascii.eqb c sep then r else after_first sep r
  end.

Definition all_digits (s : string) : bool :=
  forallb is_digit (list_ascii_of_string s).

(** [int(s)] on a string of decimal digits, surrounding white space
    allowed; [None] stands for [ValueError]. Signs and underscores, which
    [int] also accepts, never reach it from the callers modelled here. *)
Definition int (s : string) : option N :=
  let t := strip s in
  if negb (String.eqb t "") && all_digits t
  then Some (fold_left (fun acc c => 10 * acc + N.of_nat (digit_value c))%N
                       (list_ascii_of_string t) 0%N)
  else None.

(** [str(n)] *)
Definition str (n : N) : string := NilEmpty.string_of_uint (N.to_uint n).

Fixpoint zeros (n : nat) : string :=
  match n with O => "" | S k => String "0" (zeros k) end.

(** [f"{n:04d}"] *)
Definition format_04d (n : N) : string :=
  let s := str n in zeros (4 - String.length s) ++ s.

(** [enumerate(xs, start)] *)
Fixpoint enumerate {A} (start : nat) (xs : list A) : list (nat * A) :=
  match xs with
  | [] => []
  | x :: r => (start, x) :: enumerate (S start) r
  end.

End Py.

(** ** Configuration

    [validators.py] imports [REQUIREMENTS] and [TRIAD_FILES] from the
    [config] module; the validator is parametrised by them. *)

Record config := {
  USER_GUIDE_ASSET : string;
  USER_GUIDE_STRUCTURE : string;
  TRIAD_FILES : list string;
}.

(** ** Violations *)

(** The message of a violation, one constructor per f-string of
    [FSMValidator]; [render] gives the text of the [details] entry. *)
Inductive message :=
| MissingLedger
| InvalidAssetFormat (asset_id : string)
| BreaksSequence (asset_id : string) (expected_next_id : N)
| InvalidEpisodeName (name : string)
| MissingProse
| UnregisteredReference (asset_id : string)
| NoSourceEpisode (asset_id : string)
| MissingEpisode (asset_id episode_id : string)
| MissingOutline
| SectionNotFound (name : string)
| SectionOutOfOrder (name : string).

Definition render (m : message) : string :=
  match m with
  | MissingLedger =>
      "Missing assets/LEDGER.md; cannot validate asset references."
  | InvalidAssetFormat asset_id =>
      "Asset ID '" ++ asset_id
      ++ "' has invalid format (expected: asset-NNNN with 4 digits)."
  | BreaksSequence asset_id expected_next_id =>
      "Asset ID " ++ asset_id ++ " breaks sequential order (expected: asset-"
      ++ Py.format_04d expected_next_id ++ ")."
  | InvalidEpisodeName name =>
      "Episode filename '" ++ name
      ++ "' has invalid format (expected: episode-NN.md with 2 digits)."
  | MissingProse =>
      "Missing prose/draft.md; FSM validation requires prose to exist."
  | UnregisteredReference asset_id =>
      "Prose references " ++ asset_id
      ++ " which is not registered in assets/LEDGER.md."
  | NoSourceEpisode asset_id =>
      "Asset " ++ asset_id ++ " lists no Source Episode in LEDGER.md."
  | MissingEpisode asset_id episode_id =>
      "Asset " ++ asset_id ++ " references episode " ++ episode_id
      ++ " but no such episode file exists."
  | MissingOutline =>
      "Missing structure/outline.md; cannot verify section order."
  | SectionNotFound name =>
      "Structure section '" ++ name ++ "' cannot be found in prose/draft.md."
  | SectionOutOfOrder name =>
      "Section '" ++ name
      ++ "' appears out of order relative to structure/outline.md."
  end.

Record violation := Violation {
  artifact : string;
  line : option nat;
  requirement : string;
  details : message;
}.

(** [Validator.add_violation]: appends to [self.violations]. *)
Definition add_violation (artifact requirement : string) (details : message)
    (line : option nat) (violations : list violation) : list violation :=
  violations ++ [Violation artifact line requirement details].

Definition is_format_violation (v : violation) : bool :=
  match details v with InvalidAssetFormat _ => true | _ => false end.

Definition is_sequence_violation (v : violation) : bool :=
  match details v with BreaksSequence _ _ => true | _ => false end.

(** ** An insertion-ordered dictionary

    [asset_sources] is a Python [dict]: iteration follows the order of first
    insertion, and assigning to a key already present replaces its value in
    place. *)
Module Dict.

Fixpoint set {V} (k : string) (v : V) (d : list (string * V)) :
    list (string * V) :=
  match d with
  | [] => [(k, v)]
  | (k', v') :: r =>
      if String.eqb k' k then (k', v) :: r else (k', v') :: set k v r
  end.

Fixpoint get {V} (k : string) (d : list (string * V)) : option V :=
  match d with
  | [] => None
  | (k', v') :: r => if String.eqb k' k then Some v' else get k r
  end.

Definition keys {V} (d : list (string * V)) : list string := map fst d.

End Dict.

(** ** Regular expressions of the validator *)

Definition LF : ascii := ascii_of_nat 10.

(** A pattern ending in [$] also matches just before one final newline. *)
Definition at_end (s : string) : bool :=
  String.eqb s "" || String.eqb s (String LF "").

(** [prefix] followed by exactly [n] digits; returns what follows them. *)
Definition digits_after (prefix : string) (n : nat) (s : string) :
    option string :=
  let r := Py.drop (String.length prefix) s in
  if Py.startswith prefix s
     && (String.length (Py.take n r) =? n)%nat && Py.all_digits (Py.take n r)
  then Some (Py.drop n r) else None.

(** [re.match(r"^asset-\d{4}$", s)] *)
Definition match_asset_id (s : string) : bool :=
  match digits_after "asset-" 4 s with
  | Some rest => at_end rest
  | None => false
  end.

(** [re.match(r"^episode-\d{2}\.md$", s)] *)
Definition match_episode_name (s : string) : bool :=
  match digits_after "episode-" 2 s with
  | Some rest => Py.startswith ".md" rest && at_end (Py.drop 3 rest)
  | None => false
  end.

(** [re.compile(r"asset-\d{4}").finditer(s)], the matched texts: the
    leftmost match first, the search resuming after the end of each match.
    [skip] counts the characters of the last match still to pass. *)
Fixpoint finditer_from (skip : nat) (s : string) : list string :=
  match s with
  | EmptyString => []
  | String _ r =>
      match skip with
      | S k => finditer_from k r
      | O =>
          match digits_after "asset-" 4 s with
          | Some _ => Py.take 10 s :: finditer_from 9 r
          | None => finditer_from 0 r
          end
      end
  end.

Definition finditer_asset (s : string) : list string := finditer_from 0 s.

(** ** The validator *)

(** What [FSMValidator] reads: a file is the list of its lines as the file
    iterator yields them, a directory the list of its entries in the order
    [iterdir] yields them; [None] is a path that does not exist. *)
Record dir_entry := DirEntry { name : string; is_file : bool }.

Record user_guide := UserGuide {
  ledger_file : option (list string);
  episodes_entries : option (list dir_entry);
  prose_file : option (list string);
  structure_file : option (list string);
}.

(** The value stored in [asset_sources] under an asset ID. *)
Record meta := Meta { meta_line : nat; meta_sources : list string }.

(** An entry of the section lists. *)
Record section := SectionEntry { sec_name : string; sec_line : nat }.

(** The locals of the loop of [_parse_asset_ledger], with
    [self.violations]. *)
Record ledger_state := LedgerState {
  expected_next_id : N;
  asset_ids : gset string;
  asset_sources : list (string * meta);
  ledger_violations : list violation;
}.

Section FSMValidator.

Variable cfg : config.

(** [columns] of a ledger line, [None] where the loop body [continue]s. *)
Definition ledger_columns (line : string) : option (list string) :=
  let stripped := Py.strip line in
  if negb (Py.startswith "| asset-" stripped) then None
  else
    let columns :=
      map Py.strip (Py.split "|" (Py.strip_char "|" stripped)) in
    match columns with
    | [] => None
    | _ => Some columns
    end.

(** [int(asset_id.split("-")[1])] *)
Definition id_num_of (asset_id : string) : option N :=
  Py.split "-" asset_id !! 1%nat ≫= Py.int.

(** [[s.strip() for s in source_value.split(",") if s.strip()]] *)
Definition parse_sources (source_value : string) : list string :=
  map Py.strip
    (filter (fun s => Py.strip s ≠ "") (Py.split "," source_value)).

(** One iteration of the loop of [_parse_asset_ledger]. *)
Definition ledger_step (ledger_path : string) (st : ledger_state)
    (numbered : nat * string) : ledger_state :=
  let '(line_number, line) := numbered in
  match ledger_columns line with
  | None => st
  | Some columns =>
      let asset_id := default "" (columns !! 0%nat) in
      let '(expected, violations) :=
        if negb (match_asset_id asset_id) then
          (expected_next_id st,
           add_violation ledger_path (USER_GUIDE_ASSET cfg)
             (InvalidAssetFormat asset_id) (Some line_number)
             (ledger_violations st))
        else
          match id_num_of asset_id with
          | Some id_num =>
              ((id_num + 1)%N,
               if negb (id_num =? expected_next_id st)%N then
                 add_violation ledger_path (USER_GUIDE_ASSET cfg)
                   (BreaksSequence asset_id (expected_next_id st))
                   (Some line_number) (ledger_violations st)
               else ledger_violations st)
          | None =>
              (* ValueError or IndexError: excluded by [id_num_of_matched] *)
              (expected_next_id st, ledger_violations st)
          end in
      let source_value := default "" (columns !! 3%nat) in
      let sources := parse_sources source_value in
      LedgerState expected
        ({[asset_id]} ∪ asset_ids st)
        (Dict.set asset_id (Meta line_number sources) (asset_sources st))
        violations
  end.

(** [_parse_asset_ledger]: the returned pair and [self.violations]. *)
Definition parse_asset_ledger (ledger_path : string)
    (ledger : option (list string)) (violations : list violation) :
    gset string * list (string * meta) * list violation :=
  match ledger with
  | None =>
      (∅, [], add_violation ledger_path (USER_GUIDE_ASSET cfg)
                MissingLedger None violations)
  | Some lines =>
      let st :=
        fold_left (ledger_step ledger_path) (Py.enumerate 1 lines)
          (LedgerState 1 ∅ [] violations) in
      (asset_ids st, asset_sources st, ledger_violations st)
  end.

(** One iteration of the loop of [_list_episode_ids]; [episodes_dir] is
    the directory as [format_artifact_path] prints it. *)
Definition episode_step (episodes_dir : string)
    (st : gset string * list violation) (entry : dir_entry) :
    gset string * list violation :=
  let '(ids, violations) := st in
  if negb (is_file entry) || bool_decide (name entry ∈ TRIAD_FILES cfg)
  then st
  else
    let name := name entry in
    let violations :=
      if negb (match_episode_name name) then
        add_violation (episodes_dir ++ "/" ++ name) (USER_GUIDE_ASSET cfg)
          (InvalidEpisodeName name) None violations
      else violations in
    if Py.startswith "episode-" name && Py.endswith ".md" name then
      let id_part :=
        Py.slice_between (String.length "episode-") (String.length ".md")
          name in
      if negb (String.eqb id_part "") then ({[id_part]} ∪ ids, violations)
      else (ids, violations)
    else (ids, violations).

(** [_list_episode_ids] *)
Definition list_episode_ids (episodes_dir : string)
    (entries : option (list dir_entry)) (violations : list violation) :
    gset string * list violation :=
  match entries with
  | None => (∅, violations)
  | Some entries =>
      fold_left (episode_step episodes_dir) entries (∅, violations)
  end.

(** The body of the inner loop of [_validate_prose_references]. *)
Definition reference_step (prose_path : string) (asset_ids : gset string)
    (line_number : nat) (st : gset string * list violation)
    (asset_id : string) : gset string * list violation :=
  let '(missing, violations) := st in
  if bool_decide (asset_id ∉ asset_ids) && bool_decide (asset_id ∉ missing)
  then
    ({[asset_id]} ∪ missing,
     add_violation prose_path (USER_GUIDE_ASSET cfg)
       (UnregisteredReference asset_id) (Some line_number) violations)
  else st.

(** The body of the outer loop: one line of the prose. *)
Definition prose_line_step (prose_path : string) (asset_ids : gset string)
    (st : gset string * list violation) (numbered : nat * string) :
    gset string * list violation :=
  let '(line_number, line) := numbered in
  fold_left (reference_step prose_path asset_ids line_number)
    (finditer_asset line) st.

(** [_validate_prose_references] *)
Definition validate_prose_references (prose_path : string)
    (prose : option (list string)) (asset_ids : gset string)
    (violations : list violation) : list violation :=
  match prose with
  | None =>
      add_violation prose_path (USER_GUIDE_ASSET cfg) MissingProse None
        violations
  | Some lines =>
      snd (fold_left (prose_line_step prose_path asset_ids)
             (Py.enumerate 1 lines) (∅, violations))
  end.

(** One iteration of the loop of [_validate_asset_sources]. *)
Definition source_step (ledger_path : string) (episode_ids : gset string)
    (violations : list violation) (item : string * meta) : list violation :=
  let '(asset_id, meta) := item in
  let sources := meta_sources meta in
  match sources with
  | [] =>
      add_violation ledger_path (USER_GUIDE_ASSET cfg)
        (NoSourceEpisode asset_id) (Some (meta_line meta)) violations
  | _ =>
      fold_left
        (fun violations episode_id =>
           if bool_decide (episode_id ∉ episode_ids) then
             add_violation ledger_path (USER_GUIDE_ASSET cfg)
               (MissingEpisode asset_id episode_id) (Some (meta_line meta))
               violations
           else violations)
        sources violations
  end.

(** [_validate_asset_sources] *)
Definition validate_asset_sources (asset_sources : list (string * meta))
    (episode_ids : gset string) (ledger_path : string)
    (violations : list violation) : list violation :=
  fold_left (source_step ledger_path episode_ids) asset_sources violations.

(** [_parse_structure_sections] *)
Definition parse_structure_sections (structure : option (list string)) :
    list section :=
  match structure with
  | None => []
  | Some lines =>
      flat_map
        (fun '(line_number, line) =>
           let stripped := Py.strip line in
           if negb (Py.startswith "## Section" stripped) then []
           else
             let title :=
               if Py.contains ":" stripped
               then Py.strip (Py.after_first ":" stripped)
               else Py.strip (Py.drop (String.length "## Section") stripped)
             in [SectionEntry title line_number])
        (Py.enumerate 1 lines)
  end.

(** [_parse_prose_sections] *)
Definition parse_prose_sections (prose : option (list string)) :
    list section :=
  match prose with
  | None => []
  | Some lines =>
      flat_map
        (fun '(line_number, line) =>
           let stripped := Py.strip line in
           if Py.startswith "## " stripped
           then [SectionEntry (Py.strip (Py.drop 3 stripped)) line_number]
           else [])
        (Py.enumerate 1 lines)
  end.

(** The inner loop of [_validate_structure_order]: index and line of the
    first prose section called [name]. *)
Fixpoint find_section (name : string) (idx : nat)
    (prose_sections : list section) : option (nat * nat) :=
  match prose_sections with
  | [] => None
  | entry :: rest =>
      if String.eqb (sec_name entry) name then Some (idx, sec_line entry)
      else find_section name (S idx) rest
  end.

(** One iteration of the outer loop; [last_index] is an integer, [-1] at
    the start. *)
Definition structure_step (structure_path prose_path : string)
    (prose_sections : list section) (st : Z * list violation)
    (section : section) : Z * list violation :=
  let '(last_index, violations) := st in
  let name := sec_name section in
  let structure_line := sec_line section in
  match find_section name 0 prose_sections with
  | None =>
      (last_index,
       add_violation structure_path (USER_GUIDE_STRUCTURE cfg)
         (SectionNotFound name) (Some structure_line) violations)
  | Some (found_index, found_line) =>
      (Z.of_nat found_index,
       if (Z.of_nat found_index <=? last_index)%Z then
         add_violation prose_path (USER_GUIDE_STRUCTURE cfg)
           (SectionOutOfOrder name) (Some found_line) violations
       else violations)
  end.

(** [_validate_structure_order]; the two booleans are
    [structure_path.exists()] and [prose_path.exists()]. *)
Definition validate_structure_order (structure_sections : list section)
    (prose_sections : list section) (structure_path prose_path : string)
    (structure_exists prose_exists : bool) (violations : list violation) :
    list violation :=
  if negb structure_exists then
    add_violation structure_path (USER_GUIDE_STRUCTURE cfg) MissingOutline
      None violations
  else if negb prose_exists then violations
  else
    snd (fold_left (structure_step structure_path prose_path prose_sections)
           structure_sections ((-1)%Z, violations)).

(** [FSMValidator.validate] on a validator whose [self.violations] is
    [violations]; [None] is a root without a [user-guide] directory. *)
Definition validate (root : option user_guide)
    (violations : list violation) : list violation :=
  match root with
  | None => violations
  | Some ug =>
      let ledger_path := "user-guide/assets/LEDGER.md" in
      let episodes_dir := "user-guide/episodes" in
      let prose_path := "user-guide/prose/draft.md" in
      let structure_path := "user-guide/structure/outline.md" in
      let '(asset_ids, asset_sources, violations) :=
        parse_asset_ledger ledger_path (ledger_file ug) violations in
      let '(episode_ids, violations) :=
        list_episode_ids episodes_dir (episodes_entries ug) violations in
      let violations :=
        validate_prose_references prose_path (prose_file ug) asset_ids
          violations in
      let violations :=
        validate_asset_sources asset_sources episode_ids ledger_path
          violations in
      let structure_sections :=
        parse_structure_sections (structure_file ug) in
      let prose_sections := parse_prose_sections (prose_file ug) in
      validate_structure_order structure_sections prose_sections
        structure_path prose_path
        (bool_decide (is_Some (structure_file ug)))
        (bool_decide (is_Some (prose_file ug))) violations
  end.

End FSMValidator.

(** The constants of the repository's configuration module. *)
Definition repo_config : config := {|
  USER_GUIDE_ASSET := "user-guide/CANON.md:60-63 (FSM Validation Details)";
  USER_GUIDE_STRUCTURE := "user-guide/CANON.md:64-66 (FSM Validation Details)";
  TRIAD_FILES := ["CANON.md"; "VOCABULARY.md"; "README.md"];
|}.

(** ** Views used to state the properties *)

(** The ID column of a ledger line that is a data row. *)
Definition row_id (line : string) : option string :=
  match ledger_columns line with
  | Some columns => Some (default "" (columns !! 0%nat))
  | None => None
  end.

(** The source-episode list of a ledger line. *)
Definition row_sources (line : string) : list string :=
  match ledger_columns line with
  | Some columns => parse_sources (default "" (columns !! 3%nat))
  | None => []
  end.

(** A data row whose ID fails the format check. *)
Definition malformed_row (line : string) : bool :=
  match row_id line with
  | Some asset_id => negb (match_asset_id asset_id)
  | None => false
  end.

(** The numeric suffix of a data row whose ID passes the format check. *)
Definition row_number (line : string) : option N :=
  match row_id line with
  | Some asset_id =>
      if match_asset_id asset_id then id_num_of asset_id else None
  | None => None
  end.

(** Numeric suffixes of the well-formed rows, in file order. *)
Definition well_formed_numbers (lines : list string) : list N :=
  omap row_number lines.

(** The decimal digit of the units of [d]. *)
Definition decimal_digit (d : N) : ascii := ascii_of_N (48 + d mod 10).

(** The ID with number [n] as a ledger writes it: [asset-] followed by the
    thousands, hundreds, tens and units of [n]. *)
Definition asset_id_of (n : N) : string :=
  "asset-"
  ++ String (decimal_digit (n / 1000))
       (String (decimal_digit (n / 100))
          (String (decimal_digit (n / 10)) (String (decimal_digit n) ""))).

(** The IDs [first], [first + 1], ..., [first + count - 1]. *)
Definition consecutive (first : N) (count : nat) : list N :=
  map (fun i => (first + N.of_nat i)%N) (seq 0 count).

Definition ledger_result (cfg : config) (lines : list string) :
    gset string * list (string * meta) * list violation :=
  parse_asset_ledger cfg "user-guide/assets/LEDGER.md" (Some lines) [].

Definition ledger_ids (cfg : config) (lines : list string) : gset string :=
  (ledger_result cfg lines).1.1.

Definition ledger_sources (cfg : config) (lines : list string) :
    list (string * meta) :=
  (ledger_result cfg lines).1.2.

Definition ledger_violations_of (cfg : config) (lines : list string) :
    list violation :=
  (ledger_result cfg lines).2.

(** The well-formed rows of a ledger whose first line has number [start]:
    line number, ID and numeric suffix, in file order. *)
Fixpoint well_formed_rows (start : nat) (lines : list string) :
    list (nat * string * N) :=
  match lines with
  | [] => []
  | line :: rest =>
      match row_id line, row_number line with
      | Some asset_id, Some id_num =>
          (start, asset_id, id_num) :: well_formed_rows (S start) rest
      | _, _ => well_formed_rows (S start) rest
      end
  end.

(** The malformed rows: line number and ID. *)
Fixpoint malformed_rows (start : nat) (lines : list string) :
    list (nat * string) :=
  match lines with
  | [] => []
  | line :: rest =>
      match row_id line with
      | Some asset_id =>
          if match_asset_id asset_id then malformed_rows (S start) rest
          else (start, asset_id) :: malformed_rows (S start) rest
      | None => malformed_rows (S start) rest
      end
  end.

(** The sequence violations a run of well-formed rows gives rise to when
    the counter stands at [expected] before it. *)
Fixpoint sequence_violations (cfg : config) (ledger_path : string)
    (expected : N) (rows : list (nat * string * N)) : list violation :=
  match rows with
  | [] => []
  | (line_number, asset_id, id_num) :: rest =>
      (if (id_num =? expected)%N then []
       else [Violation ledger_path (Some line_number) (USER_GUIDE_ASSET cfg)
               (BreaksSequence asset_id expected)])
      ++ sequence_violations cfg ledger_path (id_num + 1) rest
  end.

Definition format_violation_of (cfg : config) (ledger_path : string)
    (row : nat * string) : violation :=
  Violation ledger_path (Some row.1) (USER_GUIDE_ASSET cfg)
    (InvalidAssetFormat row.2).

(** The loop of [_parse_asset_ledger] from line number [start] on. *)
Definition ledger_loop (cfg : config) (ledger_path : string) (start : nat)
    (lines : list string) (st : ledger_state) : ledger_state :=
  fold_left (ledger_step cfg ledger_path) (Py.enumerate start lines) st.


(** ** Sample inputs *)

(** Lines as the file iterator yields them, each ending in a newline. *)
Definition file_lines (lines : list string) : list string :=
  map (fun l => l +:+ String LF "") lines.

Definition ledger_header : list string :=
  ["# Asset Ledger"; "";
   "| ID | Name | Type | Source Episode |";
   "|----|------|------|----------------|"].

Definition ledger_1_2_3 : list string :=
  file_lines (ledger_header ++
    ["| asset-0001 | First | concept | 01 |";
     "| asset-0002 | Second | person | 02 |";
     "| asset-0003 | Third | place | 01, 02 |"])%list.

Definition ledger_1_2_4 : list string :=
  file_lines (ledger_header ++
    ["| asset-0001 | First | concept | 01 |";
     "| asset-0002 | Second | person | 02 |";
     "| asset-0004 | Fourth | place | 01 |"])%list.

Definition ledger_1_3 : list string :=
  file_lines (ledger_header ++
    ["| asset-0001 | First | concept | 01 |";
     "| asset-0003 | Third | place | 01 |"])%list.

Definition ledger_with_short_id : list string :=
  file_lines (ledger_header ++
    ["| asset-0001 | First | concept | 01 |";
     "| asset-1 | Invalid | concept | 01 |";
     "| asset-0002 | Second | person | 02 |"])%list.


Global Instance message_eq_dec : EqDecision message.
Proof. solve_decision. Defined.

(** The asset-shaped tokens of a prose document whose first line has number
    [start], each with its line number, in scanning order. *)
Fixpoint prose_tokens (start : nat) (lines : list string) :
    list (nat * string) :=
  match lines with
  | [] => []
  | line :: rest =>
      (map (pair start) (finditer_asset line)
       ++ prose_tokens (S start) rest)%list
  end.

(** The line number of the first token equal to [asset_id]. *)
Fixpoint first_occurrence (asset_id : string) (tokens : list (nat * string)) :
    option nat :=
  match tokens with
  | [] => None
  | (line_number, token) :: rest =>
      if String.eqb token asset_id then Some line_number
      else first_occurrence asset_id rest
  end.

(** The violations reporting [asset_id] as unregistered. *)
Definition reports_of (asset_id : string) (violations : list violation) :
    list violation :=
  filter (fun v => details v = UnregisteredReference asset_id) violations.

(** The scan of [_validate_prose_references] from line number [start] on. *)
Definition prose_loop (cfg : config) (prose_path : string)
    (asset_ids : gset string) (start : nat) (lines : list string)
    (st : gset string * list violation) : gset string * list violation :=
  fold_left (prose_line_step cfg prose_path asset_ids)
    (Py.enumerate start lines) st.

(** The inner loop body applied to a token and its line number. *)
Definition token_step (cfg : config) (prose_path : string)
    (asset_ids : gset string) (st : gset string * list violation)
    (occurrence : nat * string) : gset string * list violation :=
  reference_step cfg prose_path asset_ids occurrence.1 st occurrence.2.

Definition registered_one : gset string := {["asset-0001"]}.

Definition prose_three_mentions : list string :=
  file_lines
    ["# Prose"; "";
     "This mentions asset-0001 and asset-9999.";
     "Again asset-9999, then asset-0001.";
     "And asset-9999 once more."].


Definition ledger_1_2_1_2 : list string :=
  file_lines (ledger_header ++
    ["| asset-0001 | First | concept | 01 |";
     "| asset-0002 | Second | person | 02 |";
     "| asset-0001 | First again | concept | 03 |";
     "| asset-0002 | Second again | person | 04 |"])%list.


Definition ledger_1_1 : list string :=
  file_lines (ledger_header ++
    ["| asset-0001 | First | concept | 01 |";
     "| asset-0001 | First again | concept | 02, 03 |"])%list.


(** The ID [_list_episode_ids] draws from a file name: what stands
    between [episode-] and [.md], when the name has that prefix and that
    suffix and something in between. *)
Definition extracted_episode_id (name : string) : option string :=
  if Py.startswith "episode-" name && Py.endswith ".md" name then
    let id_part :=
      Py.slice_between (String.length "episode-") (String.length ".md")
        name in
    if negb (String.eqb id_part "") then Some id_part else None
  else None.

(** The entries the loop of [_list_episode_ids] does not skip. *)
Definition scanned_entry (cfg : config) (entry : dir_entry) : bool :=
  is_file entry && negb (bool_decide (name entry ∈ TRIAD_FILES cfg)).

Definition episode_format_violation (cfg : config) (episodes_dir : string)
    (entry : dir_entry) : violation :=
  Violation (episodes_dir +:+ "/" +:+ name entry) None (USER_GUIDE_ASSET cfg)
    (InvalidEpisodeName (name entry)).

(** The scanned entries whose name fails the format check. *)
Definition misnamed_entries (cfg : config) (entries : list dir_entry) :
    list dir_entry :=
  filter (fun e => scanned_entry cfg e && negb (match_episode_name (name e))
                   = true)
    entries.


(** The violations one asset record gives rise to in the source-episode
    check. *)
Definition source_violations (cfg : config) (ledger_path : string)
    (episode_ids : gset string) (item : string * meta) : list violation :=
  match meta_sources item.2 with
  | [] =>
      [Violation ledger_path (Some (meta_line item.2)) (USER_GUIDE_ASSET cfg)
         (NoSourceEpisode item.1)]
  | sources =>
      map (fun episode_id =>
             Violation ledger_path (Some (meta_line item.2))
               (USER_GUIDE_ASSET cfg) (MissingEpisode item.1 episode_id))
        (filter (fun episode_id => episode_id ∉ episode_ids) sources)
  end.


(** The violations that report a missing artifact. *)
Definition is_missing_artifact (v : violation) : bool :=
  match details v with
  | MissingLedger | MissingProse | MissingOutline => true
  | _ => false
  end.

Definition missing_ledger_violation (cfg : config) : violation :=
  Violation "user-guide/assets/LEDGER.md" None (USER_GUIDE_ASSET cfg)
    MissingLedger.

Definition missing_prose_violation (cfg : config) : violation :=
  Violation "user-guide/prose/draft.md" None (USER_GUIDE_ASSET cfg)
    MissingProse.

Definition missing_outline_violation (cfg : config) : violation :=
  Violation "user-guide/structure/outline.md" None (USER_GUIDE_STRUCTURE cfg)
    MissingOutline.

(** The loop of [_validate_structure_order]. *)
Definition structure_loop (cfg : config) (structure_path prose_path : string)
    (prose_sections : list section) (structure_sections : list section)
    (st : Z * list violation) : Z * list violation :=
  fold_left (structure_step cfg structure_path prose_path prose_sections)
    structure_sections st.


Definition outline_three : list string :=
  file_lines
    ["# Structure"; "";
     "## Section 1: Intro";
     "## Section 2: Background";
     "## Section 3: Conclusion"].

(** Prose with the outline's headings in outline order, others between. *)
Definition prose_in_order : list string :=
  file_lines
    ["# Prose"; ""; "## Preface"; "## Intro"; "Text."; "## Aside";
     "## Background"; "## Conclusion"; "## Appendix"].

Definition prose_conclusion_first : list string :=
  file_lines
    ["# Prose"; ""; "## Conclusion"; "Text."; "## Intro"; "## Background"].

Definition prose_intro_last : list string :=
  file_lines
    ["# Prose"; ""; "## Background"; "## Conclusion"; "## Intro"].

(** The structure check on an outline file and a prose file. *)
Definition check_structure (cfg : config) (outline prose : list string) :
    list violation :=
  validate_structure_order cfg (parse_structure_sections (Some outline))
    (parse_prose_sections (Some prose)) "user-guide/structure/outline.md"
    "user-guide/prose/draft.md" true true [].

(** Two listings of one episode directory. *)
Definition listed_b_first : list dir_entry :=
  [DirEntry "episode-b.md" true; DirEntry "episode-a.md" true;
   DirEntry "episode-01.md" true].

Definition listed_sorted : list dir_entry :=
  [DirEntry "episode-01.md" true; DirEntry "episode-a.md" true;
   DirEntry "episode-b.md" true].


(** ** Views for the composition of the checks *)

(** A ledger state with another violation list. *)
Definition with_violations (st : ledger_state) (violations : list violation) :
    ledger_state :=
  LedgerState (expected_next_id st) (asset_ids st) (asset_sources st)
    violations.

(** What each phase of [FSMValidator.validate] reports on its own, the
    inputs of the later phases being the outputs of the earlier ones. *)
Definition ledger_phase (cfg : config) (ug : user_guide) : list violation :=
  (parse_asset_ledger cfg "user-guide/assets/LEDGER.md" (ledger_file ug) []).2.

Definition guide_asset_ids (cfg : config) (ug : user_guide) : gset string :=
  (parse_asset_ledger cfg "user-guide/assets/LEDGER.md" (ledger_file ug)
     []).1.1.

Definition guide_asset_sources (cfg : config) (ug : user_guide) :
    list (string * meta) :=
  (parse_asset_ledger cfg "user-guide/assets/LEDGER.md" (ledger_file ug)
     []).1.2.

Definition episode_phase (cfg : config) (ug : user_guide) : list violation :=
  (list_episode_ids cfg "user-guide/episodes" (episodes_entries ug) []).2.

Definition guide_episode_ids (cfg : config) (ug : user_guide) : gset string :=
  (list_episode_ids cfg "user-guide/episodes" (episodes_entries ug) []).1.

Definition reference_phase (cfg : config) (ug : user_guide) :
    list violation :=
  validate_prose_references cfg "user-guide/prose/draft.md" (prose_file ug)
    (guide_asset_ids cfg ug) [].

Definition source_phase (cfg : config) (ug : user_guide) : list violation :=
  validate_asset_sources cfg (guide_asset_sources cfg ug)
    (guide_episode_ids cfg ug) "user-guide/assets/LEDGER.md" [].

Definition structure_phase (cfg : config) (ug : user_guide) :
    list violation :=
  validate_structure_order cfg (parse_structure_sections (structure_file ug))
    (parse_prose_sections (prose_file ug)) "user-guide/structure/outline.md"
    "user-guide/prose/draft.md" (bool_decide (is_Some (structure_file ug)))
    (bool_decide (is_Some (prose_file ug))) [].


(** The counter of [_parse_asset_ledger] after the lines [lines]: one more
    than the number of the last well-formed row, 1 when there is none. *)
Definition expected_after (lines : list string) : N :=
  match last (well_formed_numbers lines) with
  | Some id_num => (id_num + 1)%N
  | None => 1%N
  end.

(** Some violation of the list is attributed to line [n]. *)
Definition reported_at (n : nat) (violations : list violation) : Prop :=
  exists v, v ∈ violations /\ line v = Some n.


(** The five checks of [FSMValidator.validate]. *)
Inductive check :=
| LedgerCheck | EpisodeCheck | ReferenceCheck | SourceCheck | StructureCheck.

(** The check whose code holds the f-string of a message. *)
Definition check_of (m : message) : check :=
  match m with
  | MissingLedger | InvalidAssetFormat _ | BreaksSequence _ _ => LedgerCheck
  | InvalidEpisodeName _ => EpisodeCheck
  | MissingProse | UnregisteredReference _ => ReferenceCheck
  | NoSourceEpisode _ | MissingEpisode _ _ => SourceCheck
  | MissingOutline | SectionNotFound _ | SectionOutOfOrder _ =>
      StructureCheck
  end.

(** Artifact, requirement and presence of a line number that go with a
    message in a run of [FSMValidator.validate]. *)
Definition attribution (cfg : config) (m : message) : string * string * bool :=
  match m with
  | MissingLedger =>
      ("user-guide/assets/LEDGER.md", USER_GUIDE_ASSET cfg, false)
  | InvalidAssetFormat _ | BreaksSequence _ _
  | NoSourceEpisode _ | MissingEpisode _ _ =>
      ("user-guide/assets/LEDGER.md", USER_GUIDE_ASSET cfg, true)
  | InvalidEpisodeName name =>
      ("user-guide/episodes/" +:+ name, USER_GUIDE_ASSET cfg, false)
  | MissingProse =>
      ("user-guide/prose/draft.md", USER_GUIDE_ASSET cfg, false)
  | UnregisteredReference _ =>
      ("user-guide/prose/draft.md", USER_GUIDE_ASSET cfg, true)
  | MissingOutline =>
      ("user-guide/structure/outline.md", USER_GUIDE_STRUCTURE cfg, false)
  | SectionNotFound _ =>
      ("user-guide/structure/outline.md", USER_GUIDE_STRUCTURE cfg, true)
  | SectionOutOfOrder _ =>
      ("user-guide/prose/draft.md", USER_GUIDE_STRUCTURE cfg, true)
  end.

Definition well_attributed (cfg : config) (v : violation) : Prop :=
  (artifact v, requirement v, bool_decide (is_Some (line v)))
  = attribution cfg (details v).

(** A violation as the check [c] emits it. *)
Definition emitted_by (cfg : config) (c : check) (v : violation) : Prop :=
  check_of (details v) = c /\ well_attributed cfg v.


(** A user guide with a ledger and a prose document only. *)
Definition guide_ledger_prose : user_guide :=
  UserGuide (Some ledger_1_2_3) None (Some prose_three_mentions) None.


(** ** Views on strings *)

Fixpoint last_char (s : string) : option ascii :=
  match s with
  | EmptyString => None
  | String c EmptyString => Some c
  | String _ r => last_char r
  end.

Definition first_char (s : string) : option ascii :=
  match s with
  | EmptyString => None
  | String c _ => Some c
  end.

Fixpoint all_chars (p : ascii -> bool) (s : string) : bool :=
  match s with
  | EmptyString => true
  | String c r => p c && all_chars p r
  end.

(** Neither end of the string is a character satisfying [p]. *)
Definition trimmed (p : ascii -> bool) (s : string) : Prop :=
  (forall c, first_char s = Some c -> p c = false)
  /\ (forall c, last_char s = Some c -> p c = false).


(** ** The parsers of the other validators *)

(** [s.split()]: the maximal runs of characters that are not white space,
    in order; never an empty string. *)
Fixpoint split_whitespace (s : string) : list string :=
  match s with
  | EmptyString => []
  | String c r =>
      if Py.is_space c then split_whitespace r
      else
        match r with
        | EmptyString => [String c EmptyString]
        | String d _ =>
            if Py.is_space d then String c EmptyString :: split_whitespace r
            else
              match split_whitespace r with
              | w :: ws => String c w :: ws
              | [] => [String c EmptyString]
              end
        end
  end.

(** The term a line of [VOCABULARY.md] declares, if any: the line starts
    with [### ] and what follows is not white space only. *)
Definition vocab_term (line : string) : option string :=
  if Py.startswith "### " line then
    let term := Py.strip (Py.drop 4 line) in
    if negb (String.eqb term "") then Some term else None
  else None.

(** One iteration of the loop of [_parse_vocab_terms]. *)
Definition vocab_step (terms : list (string * nat))
    (numbered : nat * string) : list (string * nat) :=
  let '(line_number, line) := numbered in
  if Py.startswith "### " line then
    let term := Py.strip (Py.drop 4 line) in
    if negb (String.eqb term "") then Dict.set term line_number terms
    else terms
  else terms.

(** [TerminologyValidator._parse_vocab_terms] *)
Definition parse_vocab_terms (vocab : option (list string)) :
    list (string * nat) :=
  match vocab with
  | None => []
  | Some lines => fold_left vocab_step (Py.enumerate 1 lines) []
  end.

Definition vocab_loop (start : nat) (lines : list string)
    (terms : list (string * nat)) : list (string * nat) :=
  fold_left vocab_step (Py.enumerate start lines) terms.

(** An entry of the list [_parse_required_artifacts] returns. *)
Record required_entry := RequiredEntry { req_name : string; req_line : nat }.

Definition required_header : string := "## Required Artifacts (root level)".

(** The loop of [RequiredArtifactsValidator._parse_required_artifacts]
    from line number [line_number] on; it returns at the [break] and at the
    end of the file, and [None] stands for the [IndexError] of
    [line[2:].split()[0]] on a bullet with white space only. *)
Fixpoint required_loop (line_number : nat) (lines : list string)
    (section_open : bool) (required : list required_entry) :
    option (list required_entry) :=
  match lines with
  | [] => Some required
  | line :: rest =>
      let stripped := Py.strip line in
      if String.eqb stripped required_header then
        required_loop (S line_number) rest true required
      else if negb section_open then
        required_loop (S line_number) rest section_open required
      else if Py.startswith "## " stripped then Some required
      else if Py.startswith "- " line then
        if (2 <? String.length line)%nat then
          match split_whitespace (Py.drop 2 line) with
          | [] => None
          | name_part :: _ =>
              if negb (String.eqb name_part "") then
                required_loop (S line_number) rest section_open
                  (required ++ [RequiredEntry name_part line_number])%list
              else required_loop (S line_number) rest section_open required
          end
        else required_loop (S line_number) rest section_open required
      else required_loop (S line_number) rest section_open required
  end.

(** [_parse_required_artifacts]; [None] as argument is a missing
    [CANON.md]. *)
Definition parse_required_artifacts (canon : option (list string)) :
    option (list required_entry) :=
  match canon with
  | None => Some []
  | Some lines => required_loop 1 lines false []
  end.

(** A bullet line with white space only after the dash and the space. *)
Definition blank_bullet (line : string) : bool :=
  Py.startswith "- " line && (2 <? String.length line)%nat
  && all_chars Py.is_space (Py.drop 2 line).

(** A line that neither opens nor closes the section and is no bullet. *)
Definition plain_line (line : string) : bool :=
  negb (String.eqb (Py.strip line) required_header)
  && negb (Py.startswith "## " (Py.strip line))
  && negb (Py.startswith "- " line).

Definition canon_sample : list string :=
  file_lines
    ["# CANON"; "- ignored.md";
     "## Required Artifacts (root level)"; "";
     "- README.md (overview)"; "-   tools/  helper scripts"; "text";
     "## Next section"; "- late.md"].

Definition vocab_sample : list string :=
  file_lines
    ["# Vocabulary"; "### Asset"; "text"; "### Episode "; "#### Deeper";
     "  ### Indented"; "### Asset"; "###  "].


(** ** The runner of [validate.py] and the summary of [run_validation.py] *)

(** A violation as the dictionary a validator returns, its details being
    text. *)
Record report_entry := ReportEntry {
  e_artifact : string;
  e_line : option nat;
  e_requirement : string;
  e_details : string;
}.

Definition to_entry (v : violation) : report_entry :=
  ReportEntry (artifact v) (line v) (requirement v) (render (details v)).

(** The body of the counting loop of [FSMValidatorRunner.validate_all] and
    of [print_report_summary]:
    [by_requirement[req] = by_requirement.get(req, 0) + 1]. *)
Definition count_step (by_requirement : list (string * nat))
    (violation : report_entry) : list (string * nat) :=
  let req := e_requirement violation in
  Dict.set req (default 0 (Dict.get req by_requirement) + 1) by_requirement.

Definition count_by_requirement (violations : list report_entry) :
    list (string * nat) :=
  fold_left count_step violations [].

(** What a call of [validator.validate()] does: it returns its violations
    or raises an exception, [e] being the text of the exception. *)
Inductive outcome :=
| Returned (violations : list report_entry)
| Raised (e : string).

Record validation_result := ValidationResult {
  valid : bool;
  result_violations : list report_entry;
  total_violations : nat;
  validators_run : nat;
  by_requirement : list (string * nat);
}.

(** The body of the first loop of [validate_all]; a validator is given by
    the name of its class and the outcome of its [validate]. *)
Definition collect_step (all_violations : list report_entry)
    (validator : string * outcome) : list report_entry :=
  match validator.2 with
  | Returned violations => all_violations ++ violations
  | Raised e =>
      all_violations
      ++ [ReportEntry validator.1 None "validation_protocol"
            ("Validator failed: " +:+ e)]
  end.

(** [FSMValidatorRunner.validate_all] *)
Definition validate_all (validators : list (string * outcome)) :
    validation_result :=
  let all_violations := fold_left collect_step validators [] in
  ValidationResult (length all_violations =? 0)%nat all_violations
    (length all_violations) (length validators)
    (count_by_requirement all_violations).

(** The number of violations filed under a requirement. *)
Definition count_requirement (req : string) (violations : list report_entry) :
    nat :=
  length (filter (fun v => e_requirement v = req) violations).

Definition dict_sum (d : list (string * nat)) : nat := sum_list (map snd d).


(** ** [TriadValidator] *)

(** A directory as [os.walk] finds it: the names of its files, and its
    subdirectories by name, both in the order of the listing.  Symbolic
    links are left out, and the root is an absolute, resolved path, as the
    two entry points make it. *)
Local Unset Elimination Schemes.

Inductive directory :=
| Directory (filenames : list string)
    (subdirectories : list (string * directory)).

Local Set Elimination Schemes.

(** [sep.join(parts)] *)
Fixpoint join (sep : string) (parts : list string) : string :=
  match parts with
  | [] => ""
  | [part] => part
  | part :: rest => part +:+ sep +:+ join sep rest
  end.

(** [Validator.format_artifact_path] of the directory reached from the root
    by the names [dirpath], on a system whose separator is [/]. *)
Definition format_artifact_path (dirpath : list string) : string :=
  let rel_str := match dirpath with [] => "." | _ => join "/" dirpath end in
  if String.eqb rel_str "" then "." else rel_str.

(** The order of [dirnames.sort()]: strings compared by code points. *)
Definition name_le (a b : string) : Prop := String.leb a b = true.

Global Instance name_le_dec (a b : string) : Decision (name_le a b) :=
  decide (String.leb a b = true).

(** One round of the walk below a directory: [os.walk] goes into the
    subdirectory called [name], [walks] holding the walk of each
    subdirectory by name. *)
Definition walk_into
    (walks :
       list (string
             * (list string -> list report_entry -> list report_entry)))
    (dirpath : list string) (violations : list report_entry)
    (name : string) : list report_entry :=
  match Dict.get name walks with
  | Some walk => walk (dirpath ++ [name])%list violations
  | None => violations
  end.

Section TriadValidator.

Variable cfg : config.

(** [REQUIREMENTS["TRIAD"]] *)
Variable TRIAD : string.

(** [[name for name in TRIAD_FILES if name not in filenames]] *)
Definition missing_triad (filenames : list string) : list string :=
  filter (fun name => name ∉ filenames) (TRIAD_FILES cfg).

(** The body of the loop of [TriadValidator.validate] after the directory
    names have been filtered and sorted. *)
Definition triad_step (dirpath : list string) (filenames : list string)
    (violations : list report_entry) : list report_entry :=
  let missing := missing_triad filenames in
  match missing with
  | [] => violations
  | _ =>
      (violations
       ++ [ReportEntry (format_artifact_path dirpath) (Some 136%nat) TRIAD
             ("Directory is missing triad files: " +:+ join ", " missing
              +:+ ".")])%list
  end.

(** The directory names [os.walk] goes on with:
    [dirnames[:] = [d for d in dirnames if not d.startswith(".")]] and
    [dirnames.sort()]. *)
Definition walked_dirnames (dirnames : list string) : list string :=
  merge_sort name_le
    (filter (fun d => negb (Py.startswith "." d)) dirnames).

(** The loop of [TriadValidator.validate] over [os.walk], top down: the
    directory itself, then the subdirectories that are left, in sorted
    order.  The walk of every subdirectory is named before the names are
    filtered, which keeps the recursion structural; only those of the
    remaining names are run. *)
Fixpoint triad_walk (d : directory) (dirpath : list string)
    (violations : list report_entry) : list report_entry :=
  match d with
  | Directory filenames subdirectories =>
      let dirnames := walked_dirnames (map fst subdirectories) in
      let walks :=
        map (fun entry => (fst entry, triad_walk (snd entry)))
          subdirectories in
      fold_left (walk_into walks dirpath) dirnames
        (triad_step dirpath filenames violations)
  end.

(** [TriadValidator(root).validate()] on a fresh validator. *)
Definition triad_validate (root : directory) : list report_entry :=
  triad_walk root [] [].

(** The violation of a directory whose files are [filenames]. *)
Definition triad_entry (dirpath : list string) (filenames : list string) :
    report_entry :=
  ReportEntry (format_artifact_path dirpath) (Some 136%nat) TRIAD
    ("Directory is missing triad files: "
     +:+ join ", " (missing_triad filenames) +:+ ".").

End TriadValidator.

(** [reaches root dirpath d]: [d] is the directory found from [root] along
    the names [dirpath], none of which is hidden. *)
Inductive reaches : directory -> list string -> directory -> Prop :=
| reaches_here d : reaches d [] d
| reaches_sub filenames subdirectories name sub dirpath d :
    Dict.get name subdirectories = Some sub ->
    Py.startswith "." name = false ->
    reaches sub dirpath d ->
    reaches (Directory filenames subdirectories) (name :: dirpath) d.

(** Two listings of the same tree: the same file names and the same
    subdirectories at every level, in any order. *)
Inductive same_tree : directory -> directory -> Prop :=
| same_tree_intro filenames filenames' subdirectories subdirectories' :
    filenames ≡ₚ filenames' ->
    map fst subdirectories ≡ₚ map fst subdirectories' ->
    (forall name sub sub',
        Dict.get name subdirectories = Some sub ->
        Dict.get name subdirectories' = Some sub' ->
        same_tree sub sub') ->
    same_tree (Directory filenames subdirectories)
      (Directory filenames' subdirectories').

Definition tree_sample : directory :=
  Directory ["CANON.md"; "VOCABULARY.md"; "README.md"]
    [("tools", Directory ["README.md"; "CANON.md"] []);
     (".git", Directory [] [("hooks", Directory [] [])]);
     ("docs", Directory ["VOCABULARY.md"; "README.md"; "CANON.md"] [])].

Definition tree_sample_relisted : directory :=
  Directory ["README.md"; "CANON.md"; "VOCABULARY.md"]
    [("docs", Directory ["CANON.md"; "VOCABULARY.md"; "README.md"] []);
     ("tools", Directory ["CANON.md"; "README.md"] []);
     (".git", Directory [] [("hooks", Directory [] [])])].


(** * Properties *)

(** ** Characters and strings *)

Lemma is_digit_not_dash c : Py.is_digit c = true -> Ascii.eqb c "-" = false.
Proof. destruct c as [[] [] [] [] [] [] [] []]; vm_compute; congruence. Qed.

Lemma is_digit_not_space c : Py.is_digit c = true -> Py.is_space c = false.
Proof. destruct c as [[] [] [] [] [] [] [] []]; vm_compute; congruence. Qed.

Lemma startswith_app p s : Py.startswith p s = true -> s = p ++ Py.drop (String.length p) s.
Proof.
  revert s; induction p as [|a p IH]; intros [|b s]; simpl; try done.
  intros [Hab Hp]%andb_true_iff. apply Ascii.eqb_eq in Hab as ->.
  f_equal. by apply IH.
Qed.

Lemma take_length_drop n s :
  String.length (Py.take n s) = n -> s = Py.take n s ++ Py.drop n s.
Proof.
  revert s; induction n as [|n IH]; intros [|c s]; simpl; try done.
  intros [= H]. f_equal. by apply IH.
Qed.

(** The shape [digits_after] recognises. *)
Lemma digits_after_Some prefix n s rest :
  digits_after prefix n s = Some rest ->
  exists ds, s = prefix ++ ds ++ rest /\ String.length ds = n
             /\ Py.all_digits ds = true.
Proof.
  unfold digits_after.
  destruct (Py.startswith prefix s) eqn:Hp; simpl; [|done].
  destruct (_ =? _)%nat eqn:Hn; simpl; [|done].
  destruct (Py.all_digits _) eqn:Hd; [|done].
  intros [= <-]. apply Nat.eqb_eq in Hn.
  exists (Py.take n (Py.drop (String.length prefix) s)).
  split_and!; [|done..].
  rewrite <- take_length_drop by done. by apply startswith_app.
Qed.

Lemma four_digits ds :
  String.length ds = 4%nat -> Py.all_digits ds = true ->
  exists a b c d,
    ds = String a (String b (String c (String d "")))
    /\ Py.is_digit a = true /\ Py.is_digit b = true
    /\ Py.is_digit c = true /\ Py.is_digit d = true.
Proof.
  destruct ds as [|a [|b [|c [|d [|? ?]]]]]; try done.
  intros _. unfold Py.all_digits; simpl.
  rewrite !andb_true_iff. intros (?&?&?&?&_). by exists a, b, c, d.
Qed.

Lemma match_asset_id_shape s :
  match_asset_id s = true ->
  exists a b c d rest,
    s = "asset-" ++ String a (String b (String c (String d rest)))
    /\ Py.is_digit a = true /\ Py.is_digit b = true
    /\ Py.is_digit c = true /\ Py.is_digit d = true
    /\ (rest = "" \/ rest = String LF "").
Proof.
  unfold match_asset_id.
  destruct (digits_after _ _ _) as [rest|] eqn:H; [|done].
  apply digits_after_Some in H as (ds & -> & Hl & Hd).
  destruct (four_digits _ Hl Hd) as (a & b & c & d & -> & ?).
  intros Hend. exists a, b, c, d, rest. split_and!; try tauto.
  unfold at_end in Hend. apply orb_true_iff in Hend as [He|He];
    apply String.eqb_eq in He; auto.
Qed.

Lemma split_dash_asset w :
  Py.split "-" ("asset-" ++ w) = "asset" :: Py.split "-" w.
Proof. reflexivity. Qed.

Lemma split_dash_digit c w :
  Py.is_digit c = true ->
  Py.split "-" (String c w)
  = match Py.split "-" w with
    | x :: xs => String c x :: xs
    | [] => [String c ""]
    end.
Proof. intros H. simpl. by rewrite (is_digit_not_dash c H). Qed.

(** The conversion guarded by the format check never raises. *)
Lemma id_num_of_matched s :
  match_asset_id s = true -> is_Some (id_num_of s).
Proof.
  intros (a & b & c & d & rest & -> & Ha & Hb & Hc & Hd & Hrest)
    %match_asset_id_shape.
  unfold id_num_of. rewrite split_dash_asset, !split_dash_digit by done.
  assert (Hs : Py.split "-" rest = [rest])
    by (destruct Hrest as [-> | ->]; reflexivity).
  rewrite Hs. cbn [lookup list_lookup mbind option_bind].
  unfold Py.int, Py.strip, Py.strip_with.
  cbn [Py.lstrip_with]. rewrite (is_digit_not_space a Ha).
  assert (Hr : Py.rstrip_with Py.is_space
                 (String a (String b (String c (String d rest))))
               = String a (String b (String c (String d "")))).
  { destruct Hrest as [-> | ->]; cbn [Py.rstrip_with];
      rewrite ?(is_digit_not_space d Hd); reflexivity. }
  rewrite Hr. unfold Py.all_digits. cbn [list_ascii_of_string forallb].
  rewrite Ha, Hb, Hc, Hd. cbn. eauto.
Qed.

Lemma is_digit_value c :
  Py.is_digit c = true -> (Py.digit_value c <= 9)%nat.
Proof.
  destruct c as [[] [] [] [] [] [] [] []]; intros H; vm_compute in H;
    try discriminate; vm_compute; lia.
Qed.

(** The number of a well-formed ID has at most four digits. *)
Lemma id_num_of_matched_bound s n :
  match_asset_id s = true -> id_num_of s = Some n -> (n < 10000)%N.
Proof.
  intros (a & b & c & d & rest & -> & Ha & Hb & Hc & Hd & Hrest)
    %match_asset_id_shape.
  unfold id_num_of. rewrite split_dash_asset, !split_dash_digit by done.
  assert (Hs : Py.split "-" rest = [rest])
    by (destruct Hrest as [-> | ->]; reflexivity).
  rewrite Hs. cbn [lookup list_lookup mbind option_bind].
  unfold Py.int, Py.strip, Py.strip_with.
  cbn [Py.lstrip_with]. rewrite (is_digit_not_space a Ha).
  assert (Hr : Py.rstrip_with Py.is_space
                 (String a (String b (String c (String d rest))))
               = String a (String b (String c (String d "")))).
  { destruct Hrest as [-> | ->]; cbn [Py.rstrip_with];
      rewrite ?(is_digit_not_space d Hd); reflexivity. }
  rewrite Hr. unfold Py.all_digits. cbn [list_ascii_of_string forallb].
  rewrite Ha, Hb, Hc, Hd.
  cbn [String.eqb negb andb fold_left].
  apply is_digit_value in Ha, Hb, Hc, Hd.
  intros [= <-]. lia.
Qed.

(** [asset_id_of] is the text the [04d] format gives, a well-formed ID
    whose number is [n]; checked on each of the numbers below 10000. *)
Lemma asset_id_of_format n :
  (n < 10000)%N ->
  "asset-" ++ Py.format_04d n = asset_id_of n
  /\ match_asset_id (asset_id_of n) = true
  /\ id_num_of (asset_id_of n) = Some n.
Proof.
  intros Hn.
  assert (Hall :
    forallb
      (fun i =>
         let n := N.of_nat i in
         String.eqb ("asset-" ++ Py.format_04d n) (asset_id_of n)
         && match_asset_id (asset_id_of n)
         && bool_decide (id_num_of (asset_id_of n) = Some n))
      (seq 0 (100 * 100)) = true) by (vm_compute; reflexivity).
  rewrite forallb_forall in Hall.
  specialize (Hall (N.to_nat n)). rewrite N2Nat.id in Hall.
  cbv zeta in Hall. rewrite !andb_true_iff in Hall.
  destruct Hall as [[H1 H2] H3]; [apply in_seq; lia|].
  apply String.eqb_eq in H1. apply bool_decide_eq_true in H3. done.
Qed.

Local Open Scope list_scope.

(** ** The ledger parser *)

Section Ledger.

Variable cfg : config.
Variable ledger_path : string.

Local Abbreviation step := (ledger_step cfg ledger_path).
Local Abbreviation loop := (ledger_loop cfg ledger_path).

Lemma ledger_step_skip st n line :
  row_id line = None -> step st (n, line) = st.
Proof.
  unfold row_id, ledger_step.
  by destruct (ledger_columns line).
Qed.

Lemma ledger_step_malformed st n line asset_id :
  row_id line = Some asset_id -> match_asset_id asset_id = false ->
  step st (n, line)
  = LedgerState (expected_next_id st) ({[asset_id]} ∪ asset_ids st)
      (Dict.set asset_id (Meta n (row_sources line)) (asset_sources st))
      (ledger_violations st
       ++ [format_violation_of cfg ledger_path (n, asset_id)]).
Proof.
  unfold row_id, row_sources, ledger_step.
  destruct (ledger_columns line) as [columns|]; [|done].
  intros [= ->] ->. reflexivity.
Qed.

Lemma ledger_step_well_formed st n line asset_id id_num :
  row_id line = Some asset_id -> row_number line = Some id_num ->
  step st (n, line)
  = LedgerState (id_num + 1) ({[asset_id]} ∪ asset_ids st)
      (Dict.set asset_id (Meta n (row_sources line)) (asset_sources st))
      (ledger_violations st
       ++ sequence_violations cfg ledger_path (expected_next_id st)
            [(n, asset_id, id_num)]).
Proof.
  unfold row_number. intros Hid. rewrite Hid.
  destruct (match_asset_id asset_id) eqn:Hm; [|done]. intros Hnum.
  revert Hid. unfold row_id, row_sources, ledger_step.
  destruct (ledger_columns line) as [columns|]; [|done].
  intros [= ->]. rewrite Hm, Hnum. simpl.
  destruct (id_num =? expected_next_id st)%N; simpl;
    by rewrite ?app_nil_r.
Qed.

(** Every line is skipped, a malformed row, or a well-formed row. *)
Lemma row_cases line :
  row_id line = None
  \/ (exists asset_id,
        row_id line = Some asset_id /\ match_asset_id asset_id = false
        /\ row_number line = None)
  \/ (exists asset_id id_num,
        row_id line = Some asset_id /\ match_asset_id asset_id = true
        /\ row_number line = Some id_num).
Proof.
  unfold row_number.
  destruct (row_id line) as [asset_id|]; [|by left]. right.
  destruct (match_asset_id asset_id) eqn:Hm.
  - right. destruct (id_num_of_matched _ Hm) as [k Hk]. eauto.
  - left. eauto.
Qed.

Lemma ledger_loop_cons start line lines st :
  loop start (line :: lines) st = loop (S start) lines (step st (start, line)).
Proof. reflexivity. Qed.

Lemma ledger_loop_app start l1 l2 st :
  loop start (l1 ++ l2) st = loop (start + length l1) l2 (loop start l1 st).
Proof.
  revert start st; induction l1 as [|line l1 IH]; intros start st.
  - simpl. by rewrite Nat.add_0_r.
  - rewrite <- app_comm_cons, !ledger_loop_cons, IH. simpl.
    by rewrite Nat.add_succ_r.
Qed.

(** The sequence violations of a run are those of its well-formed rows. *)
Lemma ledger_loop_sequence start lines st :
  filter is_sequence_violation (ledger_violations (loop start lines st))
  = filter is_sequence_violation (ledger_violations st)
    ++ sequence_violations cfg ledger_path (expected_next_id st)
         (well_formed_rows start lines).
Proof.
  revert start st; induction lines as [|line lines IH]; intros start st.
  - simpl. by rewrite app_nil_r.
  - rewrite ledger_loop_cons, IH. simpl well_formed_rows.
    destruct (row_cases line) as [H|[(id & H & Hm & Hn)|(id & k & H & Hm & Hn)]].
    + rewrite ledger_step_skip, H by done. done.
    + rewrite (ledger_step_malformed _ _ _ _ H Hm), H, Hn. simpl.
      rewrite filter_app. simpl. by rewrite app_nil_r.
    + rewrite (ledger_step_well_formed _ _ _ _ _ H Hn), H, Hn. simpl.
      rewrite filter_app, <- app_assoc. f_equal.
      destruct (k =? expected_next_id st)%N; simpl; done.
Qed.

(** The format violations of a run are those of its malformed rows. *)
Lemma ledger_loop_format start lines st :
  filter is_format_violation (ledger_violations (loop start lines st))
  = filter is_format_violation (ledger_violations st)
    ++ map (format_violation_of cfg ledger_path) (malformed_rows start lines).
Proof.
  revert start st; induction lines as [|line lines IH]; intros start st.
  - simpl. by rewrite app_nil_r.
  - rewrite ledger_loop_cons, IH. simpl malformed_rows.
    destruct (row_cases line) as [H|[(id & H & Hm & Hn)|(id & k & H & Hm & Hn)]].
    + rewrite ledger_step_skip, H by done. done.
    + rewrite (ledger_step_malformed _ _ _ _ H Hm), H, Hm. simpl.
      rewrite filter_app, <- app_assoc. done.
    + rewrite (ledger_step_well_formed _ _ _ _ _ H Hn), H, Hm. simpl.
      rewrite filter_app.
      destruct (k =? expected_next_id st)%N; simpl; by rewrite app_nil_r.
Qed.

Lemma well_formed_rows_numbers start lines :
  map snd (well_formed_rows start lines) = well_formed_numbers lines.
Proof.
  revert start; induction lines as [|line lines IH]; intros start; [done|].
  simpl. unfold well_formed_numbers in *. simpl.
  destruct (row_cases line) as [H|[(id & H & Hm & Hn)|(id & k & H & Hm & Hn)]];
    rewrite ?H, Hn || (unfold row_number; rewrite H); simpl; rewrite ?IH; done.
Qed.

(** Every entry of [well_formed_rows] stands for a line of the file. *)
Lemma well_formed_rows_elem start lines n asset_id id_num :
  (n, asset_id, id_num) ∈ well_formed_rows start lines ->
  exists i row,
    lines !! i = Some row /\ n = start + i
    /\ row_id row = Some asset_id /\ row_number row = Some id_num.
Proof.
  revert start; induction lines as [|l lines IH]; intros start; simpl.
  - by intros ?%elem_of_nil.
  - assert (Hrest : (n, asset_id, id_num) ∈ well_formed_rows (S start) lines ->
                    exists i row,
                      (l :: lines) !! i = Some row /\ n = start + i
                      /\ row_id row = Some asset_id
                      /\ row_number row = Some id_num).
    { intros (i & row & Hi & -> & Hid & Hnum)%IH.
      exists (S i), row. split_and!; [done|lia|done..]. }
    destruct (row_id l) as [id|] eqn:Hid; [|done].
    destruct (row_number l) as [k|] eqn:Hk; [|done].
    intros [[= -> -> ->]|Hin]%elem_of_cons; [|by apply Hrest].
    exists 0, l. split_and!; [done|lia|done..].
Qed.

Lemma row_number_bound row id_num :
  row_number row = Some id_num -> (id_num < 10000)%N.
Proof.
  unfold row_number. destruct (row_id row) as [asset_id|]; [|done].
  destruct (match_asset_id asset_id) eqn:Hm; [|done].
  by apply id_num_of_matched_bound.
Qed.

End Ledger.

(** ** Sequential numbering *)

Lemma consecutive_S first count :
  consecutive first (S count) = first :: consecutive (first + 1) count.
Proof.
  unfold consecutive. simpl. rewrite N.add_0_r. f_equal.
  rewrite <- seq_shift, map_map. apply map_ext. intros i. lia.
Qed.

Section Sequence.

Variable cfg : config.
Variable ledger_path : string.

Local Abbreviation seqv := (sequence_violations cfg ledger_path).

(** Rows numbered [expected], [expected + 1], ... raise nothing. *)
Lemma sequence_violations_consecutive expected rows count :
  map snd rows = consecutive expected count -> seqv expected rows = [].
Proof.
  revert expected rows; induction count as [|count IH]; intros expected rows.
  - intros ->%map_eq_nil. done.
  - rewrite consecutive_S. destruct rows as [|[[n id] k] rows]; [done|].
    simpl. intros [= -> Hrows]. rewrite N.eqb_refl. simpl. by apply IH.
Qed.

(** A run with a single gap raises once, at the row after the gap. *)
Lemma sequence_violations_gap rows (k : nat) (gap : N) (m : nat) :
  (0 < gap)%N -> 0 < m ->
  map snd rows
  = consecutive 1 k ++ consecutive (1 + N.of_nat k + gap) m ->
  exists line_number asset_id,
    (line_number, asset_id, (1 + N.of_nat k + gap)%N) ∈ rows
    /\ seqv 1 rows
       = [Violation ledger_path (Some line_number) (USER_GUIDE_ASSET cfg)
            (BreaksSequence asset_id (1 + N.of_nat k))].
Proof.
  intros Hgap Hm.
  assert (Hgen : forall first,
    map snd rows
    = consecutive first k ++ consecutive (first + N.of_nat k + gap) m ->
    exists line_number asset_id,
      (line_number, asset_id, (first + N.of_nat k + gap)%N) ∈ rows
      /\ seqv first rows
         = [Violation ledger_path (Some line_number) (USER_GUIDE_ASSET cfg)
              (BreaksSequence asset_id (first + N.of_nat k))]).
  { clear -Hgap Hm. revert rows.
    induction k as [|k IH]; intros rows first.
    - destruct m as [|m]; [lia|]. rewrite consecutive_S. simpl.
      destruct rows as [|[[n id] j] rows]; [done|].
      simpl. intros [= -> Hrows]. exists n, id.
      rewrite N.add_0_r. split; [by left|].
      destruct (N.eqb_spec (first + gap) first) as [?|_]; [lia|].
      simpl. f_equal. eapply sequence_violations_consecutive.
      rewrite Hrows. f_equal. lia.
    - rewrite consecutive_S. destruct rows as [|[[n id] j] rows]; [done|].
      simpl. intros [= -> Hrows]. rewrite N.eqb_refl. simpl.
      replace (first + N.of_nat (S k))%N with (first + 1 + N.of_nat k)%N
        in * by lia.
      destruct (IH rows (first + 1)%N Hrows) as (n' & id' & Hin & Hv).
      exists n', id'. split; [by right|done]. }
  apply Hgen.
Qed.

End Sequence.

Lemma ledger_violations_of_loop cfg lines :
  ledger_violations_of cfg lines
  = ledger_violations
      (ledger_loop cfg "user-guide/assets/LEDGER.md" 1 lines
         (LedgerState 1 ∅ [] [])).
Proof. reflexivity. Qed.

Lemma ledger_sources_loop cfg lines :
  ledger_sources cfg lines
  = asset_sources
      (ledger_loop cfg "user-guide/assets/LEDGER.md" 1 lines
         (LedgerState 1 ∅ [] [])).
Proof. reflexivity. Qed.

Lemma ledger_ids_loop cfg lines :
  ledger_ids cfg lines
  = asset_ids
      (ledger_loop cfg "user-guide/assets/LEDGER.md" 1 lines
         (LedgerState 1 ∅ [] [])).
Proof. reflexivity. Qed.

Lemma ledger_sequence_violations cfg lines :
  filter is_sequence_violation (ledger_violations_of cfg lines)
  = sequence_violations cfg "user-guide/assets/LEDGER.md" 1
      (well_formed_rows 1 lines).
Proof. by rewrite ledger_violations_of_loop, ledger_loop_sequence. Qed.

Lemma ledger_format_violations cfg lines :
  filter is_format_violation (ledger_violations_of cfg lines)
  = map (format_violation_of cfg "user-guide/assets/LEDGER.md")
      (malformed_rows 1 lines).
Proof. by rewrite ledger_violations_of_loop, ledger_loop_format. Qed.

(** C2. A ledger whose well-formed rows are numbered 1..N without a gap has
    no sequence violation; a ledger with a single gap after row [k] has
    exactly one, raised at the first row after the gap and citing the
    expected ID: the text of its message ends in [asset-] and the four
    decimal digits of [k + 1], which is the well-formed ID whose number is
    [k + 1]; and after every well-formed row the counter is that row's
    number plus one. *)
Theorem sequential_ids_one_violation_per_gap (cfg : config)
    (lines : list string) :
  (forall count,
     well_formed_numbers lines = consecutive 1 count ->
     filter is_sequence_violation (ledger_violations_of cfg lines) = [])
  /\ (forall (k : nat) (gap : N) (m : nat),
        (0 < gap)%N -> 0 < m ->
        well_formed_numbers lines
        = consecutive 1 k ++ consecutive (1 + N.of_nat k + gap) m ->
        exists line_number asset_id,
          filter is_sequence_violation (ledger_violations_of cfg lines)
          = [Violation "user-guide/assets/LEDGER.md" (Some line_number)
               (USER_GUIDE_ASSET cfg)
               (BreaksSequence asset_id (1 + N.of_nat k))]
          /\ render (BreaksSequence asset_id (1 + N.of_nat k))
             = "Asset ID " +:+ asset_id
               +:+ " breaks sequential order (expected: "
               +:+ asset_id_of (1 + N.of_nat k) +:+ ")."
          /\ match_asset_id (asset_id_of (1 + N.of_nat k)) = true
          /\ id_num_of (asset_id_of (1 + N.of_nat k))
             = Some (1 + N.of_nat k)%N
          /\ exists i row,
               lines !! i = Some row /\ line_number = S i
               /\ row_id row = Some asset_id
               /\ row_number row = Some (1 + N.of_nat k + gap)%N)
  /\ (forall ledger_path st line_number line id_num,
        row_number line = Some id_num ->
        expected_next_id
          (ledger_step cfg ledger_path st (line_number, line))
        = (id_num + 1)%N).
Proof.
  split_and!.
  - intros count H. rewrite ledger_sequence_violations.
    eapply sequence_violations_consecutive.
    by rewrite well_formed_rows_numbers.
  - intros k gap m Hgap Hm H. rewrite ledger_sequence_violations.
    destruct (sequence_violations_gap cfg "user-guide/assets/LEDGER.md"
                (well_formed_rows 1 lines) k gap m Hgap Hm)
      as (n & id & Hin & ->); [by rewrite well_formed_rows_numbers|].
    apply well_formed_rows_elem in Hin as (i & row & Hi & -> & Hid & Hnum).
    assert (Hk : (1 + N.of_nat k < 10000)%N).
    { apply row_number_bound in Hnum. lia. }
    destruct (asset_id_of_format _ Hk) as (Htext & Hmatch & Hvalue).
    exists (1 + i), id. split_and!; [done| |done|done|by exists i, row].
    rewrite <- Htext. reflexivity.
  - intros path st n line k Hk.
    destruct (row_cases line) as [H|[(id & H & Hm & Hn)|(id & j & H & Hm & Hn)]].
    + unfold row_number in Hk. by rewrite H in Hk.
    + congruence.
    + rewrite (ledger_step_well_formed _ _ _ _ _ _ _ H Hn). simpl. congruence.
Qed.

Lemma sequential_ids_one_violation_per_gap_witness :
  (well_formed_numbers ledger_1_2_3 = consecutive 1 3
   /\ filter is_sequence_violation
        (ledger_violations_of repo_config ledger_1_2_3) = [])
  /\ (well_formed_numbers ledger_1_2_4 = consecutive 1 2 ++ consecutive 4 1
      /\ exists line_number asset_id,
           filter is_sequence_violation
             (ledger_violations_of repo_config ledger_1_2_4)
           = [Violation "user-guide/assets/LEDGER.md" (Some line_number)
                (USER_GUIDE_ASSET repo_config) (BreaksSequence asset_id 3)]
           /\ render (BreaksSequence asset_id 3)
              = "Asset ID " +:+ asset_id
                +:+ " breaks sequential order (expected: asset-0003)."
           /\ match_asset_id "asset-0003" = true
           /\ id_num_of "asset-0003" = Some 3%N
           /\ exists i row,
                ledger_1_2_4 !! i = Some row /\ line_number = S i
                /\ row_id row = Some asset_id
                /\ row_number row = Some 4%N)
  /\ (well_formed_numbers ledger_1_3 = consecutive 1 1 ++ consecutive 3 1
      /\ exists line_number asset_id,
           filter is_sequence_violation
             (ledger_violations_of repo_config ledger_1_3)
           = [Violation "user-guide/assets/LEDGER.md" (Some line_number)
                (USER_GUIDE_ASSET repo_config) (BreaksSequence asset_id 2)]
           /\ render (BreaksSequence asset_id 2)
              = "Asset ID " +:+ asset_id
                +:+ " breaks sequential order (expected: asset-0002)."
           /\ match_asset_id "asset-0002" = true
           /\ id_num_of "asset-0002" = Some 2%N
           /\ exists i row,
                ledger_1_3 !! i = Some row /\ line_number = S i
                /\ row_id row = Some asset_id
                /\ row_number row = Some 3%N)
  /\ (row_number "| asset-0007 | Seventh | concept | 01 |" = Some 7%N
      /\ expected_next_id
           (ledger_step repo_config "user-guide/assets/LEDGER.md"
              (LedgerState 1 ∅ [] [])
              (5, "| asset-0007 | Seventh | concept | 01 |"))
         = 8%N).
Proof.
  split_and!.
  - reflexivity.
  - apply (proj1 (sequential_ids_one_violation_per_gap repo_config
                    ledger_1_2_3) 3).
    reflexivity.
  - reflexivity.
  - apply (proj1 (proj2 (sequential_ids_one_violation_per_gap repo_config
                           ledger_1_2_4)) 2 1%N 1); [lia | lia |].
    reflexivity.
  - reflexivity.
  - apply (proj1 (proj2 (sequential_ids_one_violation_per_gap repo_config
                           ledger_1_3)) 1 1%N 1); [lia | lia |].
    reflexivity.
  - reflexivity.
  - apply (proj2 (proj2 (sequential_ids_one_violation_per_gap repo_config
                           [])) _ _ 5 _ 7%N).
    reflexivity.
Defined.

(** C5. With one malformed row among well-formed rows numbered 1..N, the
    ledger has exactly one format violation and no sequence violation; a
    malformed row leaves the expected-next counter as it was. *)
Theorem malformed_row_isolated (cfg : config) (lines : list string)
    (count : nat) :
  length (malformed_rows 1 lines) = 1 ->
  well_formed_numbers lines = consecutive 1 count ->
  length (filter is_format_violation (ledger_violations_of cfg lines)) = 1
  /\ filter is_sequence_violation (ledger_violations_of cfg lines) = []
  /\ (forall ledger_path st line_number line,
        malformed_row line = true ->
        expected_next_id
          (ledger_step cfg ledger_path st (line_number, line))
        = expected_next_id st).
Proof.
  intros Hbad Hgood. split_and!.
  - by rewrite ledger_format_violations, length_map.
  - rewrite ledger_sequence_violations.
    eapply sequence_violations_consecutive.
    by rewrite well_formed_rows_numbers.
  - intros path st n line. unfold malformed_row.
    destruct (row_id line) as [id|] eqn:H; [|done].
    intros Hm%negb_true_iff.
    by rewrite (ledger_step_malformed _ _ _ _ _ _ H Hm).
Qed.

Lemma malformed_row_isolated_witness :
  length (malformed_rows 1 ledger_with_short_id) = 1
  /\ well_formed_numbers ledger_with_short_id = consecutive 1 2
  /\ length (filter is_format_violation
               (ledger_violations_of repo_config ledger_with_short_id)) = 1
  /\ filter is_sequence_violation
       (ledger_violations_of repo_config ledger_with_short_id) = [].
Proof.
  split; [reflexivity|]. split; [reflexivity|].
  pose proof (malformed_row_isolated repo_config ledger_with_short_id 2
                eq_refl eq_refl) as (H1 & H2 & _).
  by split.
Defined.

(** ** The insertion-ordered dictionary *)

Lemma dict_get_set {V} k k' (v : V) d :
  Dict.get k' (Dict.set k v d)
  = if decide (k = k') then Some v else Dict.get k' d.
Proof.
  induction d as [|[k0 v0] d IH]; simpl.
  - destruct (String.eqb_spec k k'); by case_decide.
  - destruct (String.eqb_spec k0 k) as [->|Hne]; simpl.
    + destruct (String.eqb_spec k k'); by case_decide.
    + destruct (String.eqb_spec k0 k'); [|done].
      case_decide; congruence.
Qed.

Lemma dict_keys_set {V} k (v : V) d :
  Dict.keys (Dict.set k v d)
  = if decide (k ∈ Dict.keys d) then Dict.keys d else Dict.keys d ++ [k].
Proof.
  unfold Dict.keys. induction d as [|[k0 v0] d IH]; simpl.
  - destruct (decide (k ∈ [])) as [H|H]; [by apply elem_of_nil in H | done].
  - destruct (String.eqb_spec k0 k) as [->|Hne]; simpl.
    + rewrite decide_True by left. done.
    + rewrite IH. destruct (decide (k ∈ map fst d)) as [Hin|Hin].
      * rewrite decide_True by by right. done.
      * rewrite decide_False; [done|].
        intros [?|?]%elem_of_cons; congruence.
Qed.

Lemma dict_keys_set_elem {V} k k' (v : V) d :
  k' ∈ Dict.keys (Dict.set k v d) <-> k' = k \/ k' ∈ Dict.keys d.
Proof.
  rewrite dict_keys_set. destruct (decide (k ∈ Dict.keys d)) as [Hin|Hin].
  - split; [by right|]. by intros [->|?].
  - rewrite elem_of_app, list_elem_of_singleton. tauto.
Qed.

Lemma dict_keys_set_NoDup {V} k (v : V) d :
  NoDup (Dict.keys d) -> NoDup (Dict.keys (Dict.set k v d)).
Proof.
  intros Hd. rewrite dict_keys_set. case_decide; [done|].
  apply NoDup_app. split_and!; [done| |apply NoDup_singleton].
  intros x Hx ->%list_elem_of_singleton. done.
Qed.

(** ** The returned ID set and mapping *)

Section LedgerContents.

Variable cfg : config.
Variable ledger_path : string.

Local Abbreviation step := (ledger_step cfg ledger_path).
Local Abbreviation loop := (ledger_loop cfg ledger_path).

(** A data row, well-formed or not, registers its ID. *)
Lemma ledger_step_row st n line asset_id :
  row_id line = Some asset_id ->
  asset_ids (step st (n, line)) = {[asset_id]} ∪ asset_ids st
  /\ asset_sources (step st (n, line))
     = Dict.set asset_id (Meta n (row_sources line)) (asset_sources st).
Proof.
  intros H.
  destruct (row_cases line) as [H'|[(id & H' & Hm & Hn)|(id & k & H' & Hm & Hn)]].
  - congruence.
  - rewrite (ledger_step_malformed _ _ _ _ _ _ H' Hm). simpl.
    split; congruence.
  - rewrite (ledger_step_well_formed _ _ _ _ _ _ _ H' Hn). simpl.
    split; congruence.
Qed.

Lemma ledger_loop_ids start lines st asset_id :
  asset_id ∈ asset_ids (loop start lines st)
  <-> asset_id ∈ asset_ids st
      \/ exists line, line ∈ lines /\ row_id line = Some asset_id.
Proof.
  revert start st; induction lines as [|line lines IH]; intros start st.
  - simpl. split; [by left|]. intros [?|(line & []%elem_of_nil & _)]; done.
  - rewrite ledger_loop_cons, IH.
    destruct (row_id line) as [id|] eqn:H.
    + destruct (ledger_step_row st start line id H) as [-> _].
      rewrite elem_of_union, elem_of_singleton. split.
      * intros [[->|?]|(l & Hl & Hid)]; [right|by left|right].
        -- exists line. split; [left|done].
        -- exists l. split; [by right|done].
      * intros [?|(l & [->|Hl]%elem_of_cons & Hid)]; [by left; right| |].
        -- left; left. congruence.
        -- right. eauto.
    + rewrite ledger_step_skip by done. split.
      * intros [?|(l & Hl & Hid)]; [by left|right].
        exists l. split; [by right|done].
      * intros [?|(l & [->|Hl]%elem_of_cons & Hid)];
          [by left|congruence|right; eauto].
Qed.

Lemma ledger_loop_keys start lines st asset_id :
  asset_id ∈ Dict.keys (asset_sources (loop start lines st))
  <-> asset_id ∈ Dict.keys (asset_sources st)
      \/ exists line, line ∈ lines /\ row_id line = Some asset_id.
Proof.
  revert start st; induction lines as [|line lines IH]; intros start st.
  - simpl. split; [by left|]. intros [?|(line & []%elem_of_nil & _)]; done.
  - rewrite ledger_loop_cons, IH.
    destruct (row_id line) as [id|] eqn:H.
    + destruct (ledger_step_row st start line id H) as [_ ->].
      rewrite dict_keys_set_elem. split.
      * intros [[->|?]|(l & Hl & Hid)]; [right|by left|right].
        -- exists line. split; [left|done].
        -- exists l. split; [by right|done].
      * intros [?|(l & [->|Hl]%elem_of_cons & Hid)]; [by left; right| |].
        -- left; left. congruence.
        -- right. eauto.
    + rewrite ledger_step_skip by done. split.
      * intros [?|(l & Hl & Hid)]; [by left|right].
        exists l. split; [by right|done].
      * intros [?|(l & [->|Hl]%elem_of_cons & Hid)];
          [by left|congruence|right; eauto].
Qed.

Lemma ledger_loop_keys_NoDup start lines st :
  NoDup (Dict.keys (asset_sources st)) ->
  NoDup (Dict.keys (asset_sources (loop start lines st))).
Proof.
  revert start st; induction lines as [|line lines IH]; intros start st Hst;
    [done|].
  rewrite ledger_loop_cons. apply IH.
  destruct (row_id line) as [id|] eqn:H.
  - destruct (ledger_step_row st start line id H) as [_ ->].
    by apply dict_keys_set_NoDup.
  - by rewrite ledger_step_skip.
Qed.

(** Rows with another ID leave the entry of [asset_id] alone. *)
Lemma ledger_loop_get_other start lines st asset_id :
  (forall line, line ∈ lines -> row_id line <> Some asset_id) ->
  Dict.get asset_id (asset_sources (loop start lines st))
  = Dict.get asset_id (asset_sources st).
Proof.
  revert start st; induction lines as [|line lines IH]; intros start st Hl;
    [done|].
  rewrite ledger_loop_cons, IH by (intros l ?; apply Hl; by right).
  destruct (row_id line) as [id|] eqn:H.
  - destruct (ledger_step_row st start line id H) as [_ ->].
    rewrite dict_get_set, decide_False; [done|].
    intros ->. by apply (Hl line); [left|].
  - by rewrite ledger_step_skip.
Qed.

(** The entry of an ID holds the line and sources of its last row. *)
Lemma ledger_loop_get_last start pre line post st asset_id :
  row_id line = Some asset_id ->
  (forall l, l ∈ post -> row_id l <> Some asset_id) ->
  Dict.get asset_id (asset_sources (loop start (pre ++ line :: post) st))
  = Some (Meta (start + length pre) (row_sources line)).
Proof.
  intros H Hpost.
  rewrite ledger_loop_app, ledger_loop_cons, ledger_loop_get_other by done.
  destruct (ledger_step_row (loop start pre st) (start + length pre)
              line asset_id H) as [_ ->].
  by rewrite dict_get_set, decide_True.
Qed.

End LedgerContents.

(** ** The reference scanner *)

Lemma match_asset_id_token a b c d :
  Py.is_digit a = true -> Py.is_digit b = true ->
  Py.is_digit c = true -> Py.is_digit d = true ->
  match_asset_id ("asset-" +:+ String a (String b (String c (String d ""))))
  = true.
Proof.
  intros Ha Hb Hc Hd. unfold match_asset_id, digits_after. simpl.
  unfold Py.all_digits. simpl. by rewrite Ha, Hb, Hc, Hd.
Qed.

(** Every token the scanner finds passes the ledger's format check. *)
Lemma finditer_from_matches skip s token :
  token ∈ finditer_from skip s -> match_asset_id token = true.
Proof.
  revert skip; induction s as [|ch s IH]; intros skip; cbn [finditer_from].
  - by intros ?%elem_of_nil.
  - destruct skip as [|k]; [|apply IH].
    destruct (digits_after "asset-" 4 (String ch s)) as [rest|] eqn:H;
      [|apply IH].
    intros [->|Hin]%elem_of_cons; [|by eapply IH].
    apply digits_after_Some in H as (ds & Hs & Hl & Hd).
    destruct (four_digits _ Hl Hd) as (a & b & c & d & -> & ?&?&?&?).
    rewrite Hs. simpl Py.take. by apply match_asset_id_token.
Qed.

Section ReferenceScan.

Variable cfg : config.
Variable prose_path : string.
Variable known : gset string.

Local Abbreviation rstep := (reference_step cfg prose_path known).
Local Abbreviation ploop := (prose_loop cfg prose_path known).

Local Abbreviation tstep := (token_step cfg prose_path known).

Lemma fold_left_pair_tokens n tokens st :
  fold_left (rstep n) tokens st
  = fold_left tstep (map (pair n) tokens) st.
Proof.
  revert st; induction tokens as [|t tokens IH]; intros st; [done|].
  simpl. by rewrite IH.
Qed.

(** The nested loops visit the tokens in scanning order. *)
Lemma prose_loop_tokens start lines st :
  ploop start lines st = fold_left tstep (prose_tokens start lines) st.
Proof.
  revert start st; induction lines as [|line lines IH]; intros start st;
    [done|].
  unfold prose_loop in *. simpl.
  by rewrite IH, fold_left_app, fold_left_pair_tokens.
Qed.

Lemma reports_of_app asset_id vs1 vs2 :
  reports_of asset_id (vs1 ++ vs2)
  = reports_of asset_id vs1 ++ reports_of asset_id vs2.
Proof. apply filter_app. Qed.

Lemma reports_of_same asset_id v :
  details v = UnregisteredReference asset_id -> reports_of asset_id [v] = [v].
Proof. intros H. unfold reports_of. by rewrite filter_cons_True. Qed.

Lemma reports_of_other asset_id v :
  details v <> UnregisteredReference asset_id -> reports_of asset_id [v] = [].
Proof. intros H. unfold reports_of. by rewrite filter_cons_False. Qed.

(** What a scan adds to the reports about one ID. *)
Lemma token_scan_reports asset_id tokens missing violations :
  reports_of asset_id (fold_left tstep tokens (missing, violations)).2
  = reports_of asset_id violations
    ++ (if decide (asset_id ∈ known \/ asset_id ∈ missing) then []
        else match first_occurrence asset_id tokens with
             | Some n =>
                 [Violation prose_path (Some n) (USER_GUIDE_ASSET cfg)
                    (UnregisteredReference asset_id)]
             | None => []
             end).
Proof.
  revert missing violations;
    induction tokens as [|[n t] tokens IH]; intros missing violations.
  - simpl. by destruct (decide _); rewrite app_nil_r.
  - simpl fold_left. simpl first_occurrence.
    destruct (decide (t ∉ known)) as [Hk|Hk];
      [rewrite (bool_decide_eq_true_2 _ Hk)
      |rewrite (bool_decide_eq_false_2 _ Hk)]; simpl.
    + destruct (decide (t ∉ missing)) as [Hm|Hm];
        [rewrite (bool_decide_eq_true_2 _ Hm)
        |rewrite (bool_decide_eq_false_2 _ Hm)]; simpl.
      * rewrite IH. unfold add_violation. rewrite reports_of_app.
        rewrite <- app_assoc. f_equal.
        destruct (String.eqb_spec t asset_id) as [->|Hne].
        -- rewrite reports_of_same by done.
           destruct (decide (asset_id ∈ known \/ asset_id ∈ {[asset_id]} ∪ missing))
             as [_|Hn]; [|exfalso; apply Hn; right; apply elem_of_union; left;
                          by apply elem_of_singleton].
           by destruct (decide (asset_id ∈ known \/ asset_id ∈ missing))
             as [[?|?]|_].
        -- rewrite reports_of_other by (simpl; congruence). simpl.
           assert (Hiff : asset_id ∈ {[t]} ∪ missing <-> asset_id ∈ missing).
           { rewrite elem_of_union, elem_of_singleton. split; [|by right].
             intros [?|?]; [congruence|done]. }
           destruct (decide (asset_id ∈ known \/ asset_id ∈ missing)),
             (decide (asset_id ∈ known \/ asset_id ∈ {[t]} ∪ missing));
             tauto || done.
      * rewrite IH. f_equal.
        destruct (String.eqb_spec t asset_id) as [->|Hne]; [|done].
        destruct (decide (asset_id ∈ known \/ asset_id ∈ missing))
          as [_|Hn]; [done|].
        exfalso; apply Hn. right. by apply dec_stable.
    + rewrite IH. f_equal.
      destruct (String.eqb_spec t asset_id) as [->|Hne]; [|done].
      destruct (decide (asset_id ∈ known \/ asset_id ∈ missing))
        as [_|Hn]; [done|].
      exfalso; apply Hn. left. by apply dec_stable.
Qed.

End ReferenceScan.

Lemma first_occurrence_app asset_id tokens1 tokens2 :
  first_occurrence asset_id (tokens1 ++ tokens2)
  = match first_occurrence asset_id tokens1 with
    | Some n => Some n
    | None => first_occurrence asset_id tokens2
    end.
Proof.
  induction tokens1 as [|[n t] tokens1 IH]; simpl; [done|].
  by destruct (String.eqb t asset_id).
Qed.

Lemma first_occurrence_line asset_id n tokens :
  first_occurrence asset_id (map (pair n) tokens)
  = if decide (asset_id ∈ tokens) then Some n else None.
Proof.
  induction tokens as [|t tokens IH]; simpl.
  - destruct (decide (asset_id ∈ [])) as [H|_]; [|done].
    by apply elem_of_nil in H.
  - destruct (String.eqb_spec t asset_id) as [->|Hne].
    + rewrite decide_True by left. done.
    + rewrite IH. destruct (decide (asset_id ∈ tokens)) as [Hin|Hin].
      * rewrite decide_True by by right. done.
      * rewrite decide_False; [done|].
        intros [?|?]%elem_of_cons; congruence.
Qed.

(** The first occurrence found by the scan is on the first line that holds
    the token. *)
Lemma first_occurrence_first_line asset_id start lines i line :
  lines !! i = Some line -> asset_id ∈ finditer_asset line ->
  (forall j l, j < i -> lines !! j = Some l -> asset_id ∉ finditer_asset l) ->
  first_occurrence asset_id (prose_tokens start lines) = Some (start + i).
Proof.
  revert start i; induction lines as [|l0 lines IH]; intros start i; [done|].
  simpl prose_tokens. rewrite first_occurrence_app, first_occurrence_line.
  destruct i as [|i]; simpl.
  - intros [= ->] Hin _. rewrite decide_True by done. f_equal. lia.
  - intros Hl Hin Hbefore.
    rewrite decide_False by (apply (Hbefore 0); [lia|done]).
    rewrite (IH (S start) i); [f_equal; lia|done|done|].
    intros j l Hj Hjl. apply (Hbefore (S j)); [lia|done].
Qed.

Lemma first_occurrence_absent asset_id start lines :
  (forall i l, lines !! i = Some l -> asset_id ∉ finditer_asset l) ->
  first_occurrence asset_id (prose_tokens start lines) = None.
Proof.
  revert start; induction lines as [|l0 lines IH]; intros start Habs; [done|].
  simpl prose_tokens. rewrite first_occurrence_app, first_occurrence_line.
  rewrite decide_False by by apply (Habs 0).
  apply IH. intros i l Hl. by apply (Habs (S i)).
Qed.

Lemma validate_prose_references_tokens cfg prose_path lines known violations :
  validate_prose_references cfg prose_path (Some lines) known violations
  = (fold_left (token_step cfg prose_path known) (prose_tokens 1 lines)
       (∅, violations)).2.
Proof.
  unfold validate_prose_references.
  by rewrite <- prose_loop_tokens.
Qed.

(** C6. In a prose document, an ID in the known set is never reported; an
    unknown ID that occurs as a token is reported by exactly one violation,
    attributed to the first line holding it (index [i], line number
    [i + 1]), however often it occurs later; an ID that does not occur is
    not reported. *)
Theorem unknown_reference_reported_once (cfg : config) (prose_path : string)
    (lines : list string) (known : gset string) (asset_id : string) :
  let violations :=
    validate_prose_references cfg prose_path (Some lines) known [] in
  (asset_id ∈ known -> reports_of asset_id violations = [])
  /\ (asset_id ∉ known ->
      forall i line,
        lines !! i = Some line -> asset_id ∈ finditer_asset line ->
        (forall j l, j < i -> lines !! j = Some l ->
                     asset_id ∉ finditer_asset l) ->
        reports_of asset_id violations
        = [Violation prose_path (Some (S i)) (USER_GUIDE_ASSET cfg)
             (UnregisteredReference asset_id)])
  /\ ((forall i l, lines !! i = Some l -> asset_id ∉ finditer_asset l) ->
      reports_of asset_id violations = []).
Proof.
  intros violations. subst violations.
  rewrite validate_prose_references_tokens, token_scan_reports.
  split_and!.
  - intros Hk. rewrite decide_True by (by left). by rewrite app_nil_r.
  - intros Hk i line Hl Hin Hbefore.
    rewrite decide_False by (intros [?|[]%elem_of_empty]; done).
    by rewrite (first_occurrence_first_line _ 1 _ i line).
  - intros Habs. rewrite first_occurrence_absent by done.
    by destruct (decide _).
Qed.

Lemma unknown_reference_reported_once_witness :
  (("asset-0001" ∈ registered_one)
   /\ reports_of "asset-0001"
        (validate_prose_references repo_config "user-guide/prose/draft.md"
           (Some prose_three_mentions) registered_one []) = [])
  /\ (("asset-9999" ∉ registered_one)
      /\ reports_of "asset-9999"
           (validate_prose_references repo_config "user-guide/prose/draft.md"
              (Some prose_three_mentions) registered_one [])
         = [Violation "user-guide/prose/draft.md" (Some 3)
              (USER_GUIDE_ASSET repo_config)
              (UnregisteredReference "asset-9999")])
  /\ reports_of "asset-0042"
       (validate_prose_references repo_config "user-guide/prose/draft.md"
          (Some ["Only asset-0001 here."]) registered_one []) = [].
Proof.
  assert (Hin : "asset-0001" ∈ registered_one)
    by by apply elem_of_singleton.
  assert (Hnotin : "asset-9999" ∉ registered_one)
    by by intros [=]%elem_of_singleton.
  split_and!; [done| |done| |].
  - by apply (proj1 (unknown_reference_reported_once repo_config
                       "user-guide/prose/draft.md" prose_three_mentions
                       registered_one "asset-0001")).
  - apply (proj1 (proj2 (unknown_reference_reported_once repo_config
                           "user-guide/prose/draft.md" prose_three_mentions
                           registered_one "asset-9999")) Hnotin 2
             "This mentions asset-0001 and asset-9999.
").
    + reflexivity.
    + vm_compute. right. left.
    + intros [|[|j]] l Hj; [| |lia]; intros [= <-]; vm_compute;
        by intros ?%elem_of_nil.
  - apply (proj2 (proj2 (unknown_reference_reported_once repo_config
                           "user-guide/prose/draft.md"
                           ["Only asset-0001 here."]
                           registered_one "asset-0042"))).
    intros [|i] l; [|done]. intros [= <-]. vm_compute.
    intros [[=]|[]%elem_of_nil]%elem_of_cons.
Defined.

Lemma fold_left_ext_in {A B} (f g : A -> B -> A) (l : list B) (a : A) :
  (forall a x, x ∈ l -> f a x = g a x) -> fold_left f l a = fold_left g l a.
Proof.
  revert a; induction l as [|x l IH]; intros a Hfg; [done|].
  simpl. rewrite Hfg by left. apply IH. intros a' y Hy. apply Hfg. by right.
Qed.

Lemma dict_get_is_Some {V} k (d : list (string * V)) :
  k ∈ Dict.keys d <-> is_Some (Dict.get k d).
Proof.
  unfold Dict.keys. induction d as [|[k0 v0] d IH]; simpl.
  - rewrite elem_of_nil. split; [done|]. by intros [? [=]].
  - rewrite elem_of_cons, IH.
    destruct (String.eqb_spec k0 k) as [->|Hne]; [by split; eauto|].
    split; [intros [?|?]; [congruence|done]|by right].
Qed.

(** An ID failing the format check is no obstacle and no help to the
    scanner: no token can be equal to it. *)
Lemma reference_step_malformed cfg prose_path known bad n st token :
  match_asset_id token = true -> match_asset_id bad = false ->
  reference_step cfg prose_path ({[bad]} ∪ known) n st token
  = reference_step cfg prose_path known n st token.
Proof.
  intros Ht Hb. unfold reference_step. destruct st as [missing violations].
  assert (Hne : token <> bad) by congruence.
  rewrite (bool_decide_ext (token ∉ {[bad]} ∪ known) (token ∉ known)); [done|].
  rewrite not_elem_of_union, not_elem_of_singleton. tauto.
Qed.

Lemma malformed_rows_app start l1 l2 :
  malformed_rows start (l1 ++ l2)
  = malformed_rows start l1 ++ malformed_rows (start + length l1) l2.
Proof.
  revert start; induction l1 as [|l l1 IH]; intros start; simpl.
  - by rewrite Nat.add_0_r.
  - rewrite IH, Nat.add_succ_r.
    destruct (row_id l); [|done]. by destruct (match_asset_id _).
Qed.

(** C3 as the code has it. A ledger row whose ID fails the format check is
    reported, with a format violation on its line, and still added to the
    returned ID set and to the ID-to-sources mapping; the mapping holds for
    an ID the line and sources of the last row carrying it, so those of
    the malformed row itself when no later row repeats its ID.  The ID
    cannot satisfy the reference-closure check, because every token the
    scanner finds has the form asset-NNNN: with or without the malformed
    ID in the known set, the scan reports the same violations. *)
Theorem malformed_id_kept_never_matched (cfg : config) :
  (forall lines line asset_id,
     line ∈ lines -> row_id line = Some asset_id ->
     match_asset_id asset_id = false ->
     asset_id ∈ ledger_ids cfg lines
     /\ is_Some (Dict.get asset_id (ledger_sources cfg lines)))
  /\ (forall prose_path prose known bad violations,
        match_asset_id bad = false ->
        validate_prose_references cfg prose_path prose ({[bad]} ∪ known)
          violations
        = validate_prose_references cfg prose_path prose known violations)
  /\ (forall pre line post asset_id,
        row_id line = Some asset_id ->
        match_asset_id asset_id = false ->
        Violation "user-guide/assets/LEDGER.md" (Some (S (length pre)))
          (USER_GUIDE_ASSET cfg) (InvalidAssetFormat asset_id)
        ∈ ledger_violations_of cfg (pre ++ line :: post))
  /\ (forall pre line post asset_id,
        row_id line = Some asset_id ->
        (forall l, l ∈ post -> row_id l <> Some asset_id) ->
        Dict.get asset_id (ledger_sources cfg (pre ++ line :: post))
        = Some (Meta (S (length pre)) (row_sources line))).
Proof.
  split_and!.
  - intros lines line id Hin Hid _. split.
    + apply ledger_loop_ids. right. eauto.
    + apply dict_get_is_Some, ledger_loop_keys. right. eauto.
  - intros path [lines|] known bad vs Hbad; [|done].
    unfold validate_prose_references. f_equal.
    apply fold_left_ext_in. intros st [n line] _.
    unfold prose_line_step. apply fold_left_ext_in. intros st' t Ht.
    apply reference_step_malformed; [|done].
    by apply (finditer_from_matches 0 line).
  - intros pre line post id Hid Hbad.
    assert (Hin : format_violation_of cfg "user-guide/assets/LEDGER.md"
                    (S (length pre), id)
                  ∈ filter is_format_violation
                      (ledger_violations_of cfg (pre ++ line :: post))).
    { rewrite ledger_format_violations, malformed_rows_app.
      apply list_elem_of_fmap_2, elem_of_app. right.
      simpl. rewrite Hid, Hbad. left. }
    by apply list_elem_of_filter in Hin as [_ Hin].
  - intros pre line post id Hid Hlast.
    rewrite ledger_sources_loop. by apply ledger_loop_get_last.
Qed.

Lemma malformed_id_kept_never_matched_witness :
  match_asset_id "asset-1" = false
  /\ ("asset-1" ∈ ledger_ids repo_config ledger_with_short_id
      /\ is_Some (Dict.get "asset-1"
                    (ledger_sources repo_config ledger_with_short_id)))
  /\ validate_prose_references repo_config "user-guide/prose/draft.md"
       (Some prose_three_mentions) ({["asset-1"]} ∪ registered_one) []
     = validate_prose_references repo_config "user-guide/prose/draft.md"
         (Some prose_three_mentions) registered_one []
  /\ Violation "user-guide/assets/LEDGER.md" (Some 6)
       (USER_GUIDE_ASSET repo_config) (InvalidAssetFormat "asset-1")
     ∈ ledger_violations_of repo_config ledger_with_short_id
  /\ Dict.get "asset-1" (ledger_sources repo_config ledger_with_short_id)
     = Some (Meta 6 ["01"])
  /\ Dict.get "asset-1"
       (ledger_sources repo_config
          (file_lines
             ["| asset-1 | First | concept | 01 |";
              "| asset-1 | Again | concept | 02 |"]))
     = Some (Meta 2 ["02"]).
Proof.
  split; [reflexivity|]. split; [|split_and!].
  - apply (proj1 (malformed_id_kept_never_matched repo_config)
             ledger_with_short_id "| asset-1 | Invalid | concept | 01 |
" "asset-1"); [|reflexivity..].
    unfold ledger_with_short_id, file_lines. simpl.
    do 5 right. left.
  - by apply (proj1 (proj2 (malformed_id_kept_never_matched repo_config))).
  - apply (proj1 (proj2 (proj2
             (malformed_id_kept_never_matched repo_config)))
             (take 5 ledger_with_short_id)
             "| asset-1 | Invalid | concept | 01 |
" (drop 6 ledger_with_short_id) "asset-1"); reflexivity.
  - apply (proj2 (proj2 (proj2
             (malformed_id_kept_never_matched repo_config)))
             (take 5 ledger_with_short_id)
             "| asset-1 | Invalid | concept | 01 |
" (drop 6 ledger_with_short_id) "asset-1"); [reflexivity|].
    intros l [->|[]%elem_of_nil]%elem_of_cons. by vm_compute.
  - apply (proj2 (proj2 (proj2
             (malformed_id_kept_never_matched repo_config)))
             (file_lines ["| asset-1 | First | concept | 01 |"])
             "| asset-1 | Again | concept | 02 |
" [] "asset-1"); [reflexivity|].
    by intros l ?%elem_of_nil.
Defined.

(** C3 as stated fails: the row [asset-1] is malformed, yet its ID is in
    the returned set and has an entry in the returned mapping. *)
Lemma malformed_id_excluded_counterexample :
  ledger_with_short_id !! 5
  = Some "| asset-1 | Invalid | concept | 01 |
"
  /\ match_asset_id "asset-1" = false
  /\ "asset-1" ∈ ledger_ids repo_config ledger_with_short_id
  /\ Dict.get "asset-1" (ledger_sources repo_config ledger_with_short_id)
     = Some (Meta 6 ["01"]).
Proof.
  split_and!; [reflexivity..| |reflexivity].
  apply ledger_loop_ids. right.
  exists "| asset-1 | Invalid | concept | 01 |
". split; [|reflexivity].
  unfold ledger_with_short_id, file_lines. simpl. do 5 right. left.
Qed.

(** ** Repeated IDs *)

Lemma consecutive_NoDup first count : NoDup (consecutive first count).
Proof.
  unfold consecutive.
  assert (Inj (=) (=) (fun i : nat => (first + N.of_nat i)%N))
    by (intros i j; lia).
  apply (NoDup_fmap_2 _), NoDup_seq.
Qed.

Section Repeats.

Variable cfg : config.
Variable ledger_path : string.

Local Abbreviation loop := (ledger_loop cfg ledger_path).

(** Without a sequence violation the rows count up one by one. *)
Lemma sequence_violations_nil expected rows :
  sequence_violations cfg ledger_path expected rows = [] ->
  map snd rows = consecutive expected (length rows).
Proof.
  revert expected; induction rows as [|[[n id] k] rows IH]; intros expected;
    [done|].
  simpl. rewrite consecutive_S.
  destruct (N.eqb_spec k expected) as [->|_]; [|done].
  simpl. intros H. f_equal. by apply IH.
Qed.

Lemma ledger_loop_expected_skip start lines st :
  (forall l, l ∈ lines -> row_number l = None) ->
  expected_next_id (loop start lines st) = expected_next_id st.
Proof.
  revert start st; induction lines as [|line lines IH]; intros start st Hl;
    [done|].
  rewrite ledger_loop_cons, IH by (intros l ?; apply Hl; by right).
  destruct (row_cases line) as [H|[(id & H & Hm & Hn)|(id & k & H & Hm & Hn)]].
  - by rewrite ledger_step_skip.
  - by rewrite (ledger_step_malformed _ _ _ _ _ _ H Hm).
  - rewrite Hl in Hn by left. done.
Qed.

Lemma ledger_loop_violations_prefix start lines st :
  exists more,
    ledger_violations (loop start lines st) = ledger_violations st ++ more.
Proof.
  revert start st; induction lines as [|line lines IH]; intros start st.
  - exists []. by rewrite app_nil_r.
  - rewrite ledger_loop_cons.
    destruct (IH (S start) (ledger_step cfg ledger_path st (start, line)))
      as [more ->].
    destruct (row_cases line) as [H|[(id & H & Hm & Hn)|(id & k & H & Hm & Hn)]].
    + rewrite ledger_step_skip by done. eauto.
    + rewrite (ledger_step_malformed _ _ _ _ _ _ H Hm). simpl.
      rewrite <- app_assoc. eauto.
    + rewrite (ledger_step_well_formed _ _ _ _ _ _ _ H Hn). simpl.
      rewrite <- app_assoc. eauto.
Qed.

(** A row that repeats the number of the well-formed row before it is
    reported on its own line. *)
Lemma ledger_loop_immediate_repeat start pre a mid b post st asset_id k :
  row_number a = Some k -> row_id b = Some asset_id ->
  row_number b = Some k ->
  (forall l, l ∈ mid -> row_number l = None) ->
  Violation ledger_path (Some (start + length pre + 1 + length mid))
    (USER_GUIDE_ASSET cfg) (BreaksSequence asset_id (k + 1))
  ∈ ledger_violations (loop start (pre ++ a :: mid ++ b :: post) st).
Proof.
  intros Ha Hb Hbn Hmid.
  rewrite ledger_loop_app, ledger_loop_cons, ledger_loop_app,
    ledger_loop_cons.
  set (st1 := loop start pre st).
  destruct (row_cases a) as [H|[(id & H & Hm & Hn)|(id & j & H & Hm & Hn)]];
    [unfold row_number in Ha; by rewrite H in Ha|congruence|].
  assert (j = k) as -> by congruence.
  set (st2 := loop _ mid _).
  assert (Hexp : expected_next_id st2 = (k + 1)%N).
  { unfold st2. rewrite ledger_loop_expected_skip by done.
    by rewrite (ledger_step_well_formed _ _ _ _ _ _ _ H Hn). }
  destruct (ledger_loop_violations_prefix
              (S (S (start + length pre) + length mid)) post
              (ledger_step cfg ledger_path st2
                 (S (start + length pre) + length mid, b))) as [more ->].
  rewrite (ledger_step_well_formed _ _ _ _ _ _ _ Hb Hbn). simpl.
  rewrite Hexp. destruct (N.eqb_spec k (k + 1)) as [?|_]; [lia|].
  rewrite !elem_of_app. left. right. left.
  replace (S (start + length pre + length mid))
    with (start + length pre + 1 + length mid) by lia.
  by left.
Qed.

End Repeats.

Lemma well_formed_numbers_app lines1 lines2 :
  well_formed_numbers (lines1 ++ lines2)
  = well_formed_numbers lines1 ++ well_formed_numbers lines2.
Proof. apply omap_app. Qed.

(** C10 as the code has it. The mapping has one entry per distinct ID, and
    the entry of an ID holds the line and the sources of the last row that
    carries it, so the source check sees each ID once with that row's data.
    A repeated well-formed ID is not reported as a duplicate: the ledger
    then has at least one sequence violation, and a row repeating the ID of
    the well-formed row just before it is reported on its own line, but a
    repeated row whose number equals the counter is not reported. *)
Theorem duplicate_id_last_row_wins (cfg : config) (lines : list string) :
  NoDup (Dict.keys (ledger_sources cfg lines))
  /\ (forall pre line post asset_id,
        lines = pre ++ line :: post -> row_id line = Some asset_id ->
        (forall l, l ∈ post -> row_id l <> Some asset_id) ->
        asset_id ∈ ledger_ids cfg lines
        /\ Dict.get asset_id (ledger_sources cfg lines)
           = Some (Meta (S (length pre)) (row_sources line)))
  /\ (forall l1 a l2 b l3 asset_id,
        lines = l1 ++ a :: l2 ++ b :: l3 ->
        row_id a = Some asset_id -> row_id b = Some asset_id ->
        match_asset_id asset_id = true ->
        filter is_sequence_violation (ledger_violations_of cfg lines) <> [])
  /\ (forall l1 a l2 b l3 asset_id,
        lines = l1 ++ a :: l2 ++ b :: l3 ->
        row_id a = Some asset_id -> row_id b = Some asset_id ->
        match_asset_id asset_id = true ->
        (forall l, l ∈ l2 -> row_number l = None) ->
        exists expected,
          Violation "user-guide/assets/LEDGER.md"
            (Some (S (length l1) + 1 + length l2)) (USER_GUIDE_ASSET cfg)
            (BreaksSequence asset_id expected)
          ∈ ledger_violations_of cfg lines).
Proof.
  split_and!.
  - apply ledger_loop_keys_NoDup. constructor.
  - intros pre line post id -> Hid Hpost. split.
    + apply ledger_loop_ids. right. exists line. split; [|done].
      apply elem_of_app. right. left.
    + rewrite ledger_sources_loop.
      by rewrite (ledger_loop_get_last cfg _ 1 pre line post _ id).
  - intros l1 a l2 b l3 id -> Ha Hb Hm.
    rewrite ledger_sequence_violations. intros Hnil.
    apply sequence_violations_nil in Hnil.
    rewrite well_formed_rows_numbers in Hnil.
    pose proof (consecutive_NoDup 1
                  (length (well_formed_rows 1 (l1 ++ a :: l2 ++ b :: l3))))
      as Hnd.
    rewrite <- Hnil in Hnd.
    destruct (id_num_of_matched _ Hm) as [k Hk].
    assert (Hna : row_number a = Some k)
      by (unfold row_number; by rewrite Ha, Hm).
    assert (Hnb : row_number b = Some k)
      by (unfold row_number; by rewrite Hb, Hm).
    rewrite well_formed_numbers_app in Hnd.
    apply NoDup_app in Hnd as (_ & _ & Hnd).
    unfold well_formed_numbers in Hnd. simpl in Hnd. rewrite Hna in Hnd.
    apply NoDup_cons in Hnd as [Hnotin _]. apply Hnotin.
    rewrite omap_app. apply elem_of_app. right. simpl. rewrite Hnb. left.
  - intros l1 a l2 b l3 id -> Ha Hb Hm Hl2.
    destruct (id_num_of_matched _ Hm) as [k Hk].
    assert (Hna : row_number a = Some k)
      by (unfold row_number; by rewrite Ha, Hm).
    assert (Hnb : row_number b = Some k)
      by (unfold row_number; by rewrite Hb, Hm).
    exists (k + 1)%N. rewrite ledger_violations_of_loop.
    by apply (ledger_loop_immediate_repeat cfg _ 1 l1 a l2 b l3 _ id k).
Qed.

Lemma duplicate_id_last_row_wins_witness :
  ("asset-0001" ∈ ledger_ids repo_config ledger_1_1
   /\ Dict.get "asset-0001" (ledger_sources repo_config ledger_1_1)
      = Some (Meta 6 ["02"; "03"]))
  /\ filter is_sequence_violation
       (ledger_violations_of repo_config ledger_1_2_1_2) <> []
  /\ exists expected,
       Violation "user-guide/assets/LEDGER.md" (Some 6)
         (USER_GUIDE_ASSET repo_config)
         (BreaksSequence "asset-0001" expected)
       ∈ ledger_violations_of repo_config ledger_1_1.
Proof.
  split_and!.
  - apply (proj1 (proj2 (duplicate_id_last_row_wins repo_config ledger_1_1))
             (file_lines (ledger_header
                          ++ ["| asset-0001 | First | concept | 01 |"]))
             "| asset-0001 | First again | concept | 02, 03 |
" [] "asset-0001"); [reflexivity..|].
    by intros l ?%elem_of_nil.
  - apply (proj1 (proj2 (duplicate_id_last_row_wins repo_config ledger_1_1))
             (file_lines (ledger_header
                          ++ ["| asset-0001 | First | concept | 01 |"]))
             "| asset-0001 | First again | concept | 02, 03 |
" [] "asset-0001"); [reflexivity..|].
    by intros l ?%elem_of_nil.
  - apply (proj1 (proj2 (proj2 (duplicate_id_last_row_wins repo_config
                                  ledger_1_2_1_2)))
             (file_lines ledger_header)
             "| asset-0001 | First | concept | 01 |
"
             (file_lines ["| asset-0002 | Second | person | 02 |"])
             "| asset-0001 | First again | concept | 03 |
"
             (file_lines ["| asset-0002 | Second again | person | 04 |"])
             "asset-0001"); reflexivity.
  - apply (proj2 (proj2 (proj2 (duplicate_id_last_row_wins repo_config
                                  ledger_1_1)))
             (file_lines ledger_header)
             "| asset-0001 | First | concept | 01 |
" []
             "| asset-0001 | First again | concept | 02, 03 |
" [] "asset-0001"); [reflexivity..|].
    by intros l ?%elem_of_nil.
Defined.

(** C10 as stated fails: in a ledger with rows 1, 2, 1, 2 the second row
    of [asset-0002] (line 8) repeats a well-formed ID, yet the only
    violation is the one on line 7. *)
Lemma repeated_row_unreported_counterexample :
  row_id <$> ledger_1_2_1_2 !! 5 = Some (Some "asset-0002")
  /\ row_id <$> ledger_1_2_1_2 !! 7 = Some (Some "asset-0002")
  /\ match_asset_id "asset-0002" = true
  /\ ledger_violations_of repo_config ledger_1_2_1_2
     = [Violation "user-guide/assets/LEDGER.md" (Some 7)
          (USER_GUIDE_ASSET repo_config) (BreaksSequence "asset-0001" 3)].
Proof. split_and!; reflexivity. Qed.

(** ** The episode index *)

Section Episodes.

Variable cfg : config.
Variable episodes_dir : string.

Local Abbreviation estep := (episode_step cfg episodes_dir).

Lemma episode_step_skipped ids violations entry :
  scanned_entry cfg entry = false ->
  estep (ids, violations) entry = (ids, violations).
Proof.
  unfold scanned_entry, episode_step. intros H.
  destruct (is_file entry); simpl in *; [|done].
  apply negb_false_iff in H. by rewrite H.
Qed.

Lemma episode_step_scanned ids violations entry :
  scanned_entry cfg entry = true ->
  estep (ids, violations) entry
  = (match extracted_episode_id (name entry) with
     | Some id_part => {[id_part]} ∪ ids
     | None => ids
     end,
     violations
     ++ (if match_episode_name (name entry) then []
         else [episode_format_violation cfg episodes_dir entry])).
Proof.
  unfold scanned_entry, episode_step, extracted_episode_id.
  intros [Hf Ht%negb_true_iff]%andb_true_iff. rewrite Hf, Ht.
  cbn [negb orb]. cbv zeta.
  destruct (match_episode_name (name entry)); cbn [negb];
    unfold add_violation; rewrite ?app_nil_r;
    destruct (Py.startswith "episode-" (name entry)
              && Py.endswith ".md" (name entry)); try done;
    by destruct (negb _).
Qed.

Lemma episode_loop_violations entries ids violations :
  (fold_left estep entries (ids, violations)).2
  = violations
    ++ map (episode_format_violation cfg episodes_dir)
         (misnamed_entries cfg entries).
Proof.
  unfold misnamed_entries.
  revert ids violations; induction entries as [|e entries IH];
    intros ids violations; cbn [fold_left]; [by rewrite app_nil_r|].
  destruct (scanned_entry cfg e) eqn:Hs.
  - rewrite episode_step_scanned, IH by done. rewrite <- app_assoc. f_equal.
    destruct (match_episode_name (name e)) eqn:Hm; simpl.
    + by rewrite filter_cons_False by (by rewrite Hs, Hm).
    + by rewrite filter_cons_True by (by rewrite Hs, Hm).
  - rewrite episode_step_skipped, IH by done.
    by rewrite filter_cons_False by (by rewrite Hs).
Qed.

Lemma episode_loop_ids entries ids violations x :
  x ∈ (fold_left estep entries (ids, violations)).1
  <-> x ∈ ids
      \/ exists e, e ∈ entries /\ scanned_entry cfg e = true
                   /\ extracted_episode_id (name e) = Some x.
Proof.
  revert ids violations; induction entries as [|e entries IH];
    intros ids violations; cbn [fold_left].
  - split; [by left|]. by intros [?|(e & ?%elem_of_nil & _)].
  - destruct (scanned_entry cfg e) eqn:Hs.
    + rewrite episode_step_scanned, IH by done.
      destruct (extracted_episode_id (name e)) as [i|] eqn:Hi.
      * rewrite elem_of_union, elem_of_singleton. split.
        -- intros [[->|?]|(e' & He' & ?)]; [right|by left|right].
           ++ exists e. split; [left|done].
           ++ exists e'. split; [by right|done].
        -- intros [?|(e' & [->|He']%elem_of_cons & Hs' & Hx)].
           ++ left. by right.
           ++ left. left. congruence.
           ++ right. eauto.
      * split.
        -- intros [?|(e' & He' & ?)]; [by left|right].
           exists e'. split; [by right|done].
        -- intros [?|(e' & [->|He']%elem_of_cons & Hs' & Hx)];
             [by left|congruence|right; eauto].
    + rewrite episode_step_skipped, IH by done. split.
      * intros [?|(e' & He' & ?)]; [by left|right].
        exists e'. split; [by right|done].
      * intros [?|(e' & [->|He']%elem_of_cons & Hs' & Hx)];
          [by left|congruence|right; eauto].
Qed.

End Episodes.

(** C4 as the code has it. Every scanned file whose name fails the pattern
    yields one format violation, in listing order, and the scan goes on;
    the returned set holds, for every scanned file whose name starts with
    [episode-] and ends with [.md], the non-empty text in between, whether
    or not the name passes the pattern. *)
Theorem misnamed_episode_reported_scan_continues (cfg : config)
    (episodes_dir : string) (entries : list dir_entry) :
  (list_episode_ids cfg episodes_dir (Some entries) []).2
  = map (episode_format_violation cfg episodes_dir)
      (misnamed_entries cfg entries)
  /\ (forall x,
        x ∈ (list_episode_ids cfg episodes_dir (Some entries) []).1
        <-> exists e, e ∈ entries /\ scanned_entry cfg e = true
                      /\ extracted_episode_id (name e) = Some x).
Proof.
  unfold list_episode_ids. split.
  - by rewrite episode_loop_violations.
  - intros x. rewrite episode_loop_ids. split; [|by right].
    by intros [?%elem_of_empty|?].
Qed.

(** C4 as stated fails: [episode-1.md] fails the pattern and is reported,
    and yet its ID part is added to the returned set. *)
Lemma misnamed_episode_id_added_counterexample :
  match_episode_name "episode-1.md" = false
  /\ (list_episode_ids repo_config "user-guide/episodes"
        (Some [DirEntry "episode-1.md" true]) []).2
     = [Violation "user-guide/episodes/episode-1.md" None
          (USER_GUIDE_ASSET repo_config) (InvalidEpisodeName "episode-1.md")]
  /\ "1" ∈ (list_episode_ids repo_config "user-guide/episodes"
              (Some [DirEntry "episode-1.md" true]) []).1.
Proof.
  split_and!; [reflexivity..|].
  apply episode_loop_ids. right.
  exists (DirEntry "episode-1.md" true). split; [left|by split].
Qed.

(** ** The source-episode check *)

Section Sources.

Variable cfg : config.
Variable ledger_path : string.
Variable episode_ids : gset string.

Lemma missing_episode_loop asset_id line_number sources violations :
  fold_left
    (fun violations episode_id =>
       if bool_decide (episode_id ∉ episode_ids) then
         add_violation ledger_path (USER_GUIDE_ASSET cfg)
           (MissingEpisode asset_id episode_id) (Some line_number) violations
       else violations)
    sources violations
  = violations
    ++ map (fun episode_id =>
              Violation ledger_path (Some line_number) (USER_GUIDE_ASSET cfg)
                (MissingEpisode asset_id episode_id))
         (filter (fun episode_id => episode_id ∉ episode_ids) sources).
Proof.
  revert violations; induction sources as [|e sources IH]; intros violations.
  - simpl. by rewrite app_nil_r.
  - cbn [fold_left]. rewrite IH.
    destruct (decide (e ∉ episode_ids)) as [He|He].
    + rewrite (bool_decide_eq_true_2 _ He), filter_cons_True by done.
      unfold add_violation. by rewrite <- app_assoc.
    + by rewrite (bool_decide_eq_false_2 _ He), filter_cons_False by done.
Qed.

Lemma source_step_violations violations item :
  source_step cfg ledger_path episode_ids violations item
  = violations ++ source_violations cfg ledger_path episode_ids item.
Proof.
  destruct item as [asset_id [line_number sources]].
  unfold source_step, source_violations. cbn [meta_sources meta_line fst snd].
  destruct sources as [|e sources]; [done|].
  apply missing_episode_loop.
Qed.

Lemma validate_asset_sources_violations asset_sources violations :
  validate_asset_sources cfg asset_sources episode_ids ledger_path violations
  = violations
    ++ flat_map (source_violations cfg ledger_path episode_ids) asset_sources.
Proof.
  unfold validate_asset_sources.
  revert violations; induction asset_sources as [|item items IH];
    intros violations.
  - simpl. by rewrite app_nil_r.
  - cbn [fold_left flat_map].
    by rewrite IH, source_step_violations, <- app_assoc.
Qed.

End Sources.

(** C7. An asset without source episodes yields exactly one violation,
    "lists no source episode", on its ledger line and is not checked for
    missing episodes; an asset with source episodes yields one violation,
    on its ledger line, for each listed episode absent from the episode
    index; the check emits these asset by asset, in the order of the
    mapping. *)
Theorem source_episode_check (cfg : config) (ledger_path : string)
    (episode_ids : gset string) :
  (forall asset_id line_number violations,
     source_step cfg ledger_path episode_ids violations
       (asset_id, Meta line_number [])
     = violations
       ++ [Violation ledger_path (Some line_number) (USER_GUIDE_ASSET cfg)
             (NoSourceEpisode asset_id)])
  /\ (forall asset_id line_number sources violations,
        sources <> [] ->
        source_step cfg ledger_path episode_ids violations
          (asset_id, Meta line_number sources)
        = violations
          ++ map (fun episode_id =>
                    Violation ledger_path (Some line_number)
                      (USER_GUIDE_ASSET cfg)
                      (MissingEpisode asset_id episode_id))
               (filter (fun episode_id => episode_id ∉ episode_ids) sources))
  /\ (forall asset_sources violations,
        validate_asset_sources cfg asset_sources episode_ids ledger_path
          violations
        = violations
          ++ flat_map
               (fun item =>
                  source_step cfg ledger_path episode_ids [] item)
               asset_sources).
Proof.
  split_and!.
  - intros. by rewrite source_step_violations.
  - intros id n sources vs Hne. rewrite source_step_violations.
    unfold source_violations. simpl. by destruct sources.
  - intros d vs. rewrite validate_asset_sources_violations. f_equal.
    apply flat_map_ext. intros item. by rewrite source_step_violations.
Qed.

Lemma source_episode_check_witness :
  (["01"; "99"] : list string) <> []
  /\ source_step repo_config "user-guide/assets/LEDGER.md" {["01"]} []
       ("asset-0001", Meta 5 ["01"; "99"])
     = [Violation "user-guide/assets/LEDGER.md" (Some 5)
          (USER_GUIDE_ASSET repo_config)
          (MissingEpisode "asset-0001" "99")].
Proof.
  split; [done|].
  rewrite (proj1 (proj2 (source_episode_check repo_config
                           "user-guide/assets/LEDGER.md" {["01"]}))
             "asset-0001" 5 ["01"; "99"] []) by done.
  rewrite filter_cons_False
    by (intros H; apply H; by apply elem_of_singleton).
  rewrite filter_cons_True by (by intros [=]%elem_of_singleton).
  reflexivity.
Defined.

(** ** Missing artifacts *)

Lemma filter_missing_none (violations : list violation) :
  Forall (fun v => is_missing_artifact v = false) violations ->
  filter is_missing_artifact violations = [].
Proof.
  induction 1 as [|v vs Hv _ IH]; [done|].
  rewrite filter_cons_False by (rewrite Hv; exact (fun x => x)). done.
Qed.

(** A violation of another kind at the end of the list does not count. *)
Ltac drop_violation :=
  rewrite filter_app, filter_cons_False, filter_nil, app_nil_r by exact (fun x => x).

Section Missing.

Variable cfg : config.

Local Abbreviation M := is_missing_artifact.

Lemma ledger_loop_missing ledger_path start lines st :
  filter M (ledger_violations (ledger_loop cfg ledger_path start lines st))
  = filter M (ledger_violations st).
Proof.
  revert start st; induction lines as [|line lines IH]; intros start st;
    [done|].
  rewrite ledger_loop_cons, IH.
  destruct (row_cases line) as [H|[(id & H & Hm & Hn)|(id & k & H & Hm & Hn)]].
  - by rewrite ledger_step_skip.
  - rewrite (ledger_step_malformed _ _ _ _ _ _ H Hm). simpl.
    by drop_violation.
  - rewrite (ledger_step_well_formed _ _ _ _ _ _ _ H Hn). simpl.
    rewrite filter_app. destruct (k =? expected_next_id st)%N; simpl.
    + by rewrite filter_nil, app_nil_r.
    + by rewrite filter_cons_False, filter_nil, app_nil_r by exact (fun x => x).
Qed.

Lemma parse_asset_ledger_missing ledger_path ledger violations :
  filter M (parse_asset_ledger cfg ledger_path ledger violations).2
  = filter M violations
    ++ match ledger with
       | None =>
           [Violation ledger_path None (USER_GUIDE_ASSET cfg) MissingLedger]
       | Some _ => []
       end.
Proof.
  destruct ledger as [lines|]; simpl.
  - rewrite app_nil_r. apply ledger_loop_missing.
  - unfold add_violation. rewrite filter_app. f_equal.
Qed.

Lemma list_episode_ids_missing episodes_dir entries violations :
  filter M (list_episode_ids cfg episodes_dir entries violations).2
  = filter M violations.
Proof.
  destruct entries as [entries|]; [|done].
  unfold list_episode_ids. rewrite episode_loop_violations, filter_app.
  rewrite (filter_missing_none (map _ _)); [by rewrite app_nil_r|].
  apply Forall_fmap, Forall_forall. done.
Qed.

Lemma token_scan_missing prose_path known tokens st :
  filter M (fold_left (token_step cfg prose_path known) tokens st).2
  = filter M st.2.
Proof.
  revert st; induction tokens as [|[n t] tokens IH]; intros [missing vs];
    [done|].
  cbn [fold_left]. rewrite IH. unfold token_step, reference_step. simpl.
  destruct (_ && _); [|done]. simpl. unfold add_violation.
  by drop_violation.
Qed.

Lemma validate_prose_references_missing prose_path prose known violations :
  filter M (validate_prose_references cfg prose_path prose known violations)
  = filter M violations
    ++ match prose with
       | None =>
           [Violation prose_path None (USER_GUIDE_ASSET cfg) MissingProse]
       | Some _ => []
       end.
Proof.
  destruct prose as [lines|].
  - rewrite validate_prose_references_tokens, token_scan_missing.
    by rewrite app_nil_r.
  - unfold validate_prose_references, add_violation.
    rewrite filter_app. f_equal.
Qed.

Lemma validate_asset_sources_missing asset_sources episode_ids ledger_path
    violations :
  filter M (validate_asset_sources cfg asset_sources episode_ids ledger_path
              violations)
  = filter M violations.
Proof.
  rewrite validate_asset_sources_violations, filter_app.
  rewrite (filter_missing_none (flat_map _ _)); [by rewrite app_nil_r|].
  apply Forall_flat_map, Forall_forall. intros [id [n sources]] _.
  unfold source_violations. simpl. destruct sources as [|e sources].
  - by repeat constructor.
  - apply Forall_fmap, Forall_forall. done.
Qed.

Lemma structure_loop_missing structure_path prose_path prose_sections
    structure_sections st :
  filter M (structure_loop cfg structure_path prose_path prose_sections
              structure_sections st).2
  = filter M st.2.
Proof.
  unfold structure_loop.
  revert st; induction structure_sections as [|s secs IH];
    intros [last vs]; [done|].
  cbn [fold_left]. rewrite IH. unfold structure_step. simpl.
  destruct (find_section _ _ _) as [[i l]|]; simpl; unfold add_violation.
  - destruct (_ <=? _)%Z; [|done].
    by drop_violation.
  - by drop_violation.
Qed.

Lemma validate_structure_order_missing structure_sections prose_sections
    structure_path prose_path structure_exists prose_exists violations :
  filter M (validate_structure_order cfg structure_sections prose_sections
              structure_path prose_path structure_exists prose_exists
              violations)
  = filter M violations
    ++ (if structure_exists then []
        else [Violation structure_path None (USER_GUIDE_STRUCTURE cfg)
                MissingOutline]).
Proof.
  unfold validate_structure_order.
  destruct structure_exists; simpl.
  - rewrite app_nil_r. destruct prose_exists; simpl; [|done].
    apply structure_loop_missing.
  - unfold add_violation. rewrite filter_app. f_equal.
Qed.

End Missing.


(** ** Listing order *)

(** C9. [_list_episode_ids] takes the entries in the order the directory
    listing yields them and does not sort them: for a listing that is not
    in lexicographic order the format violations come out in that order,
    and two listings of the same directory give different violation
    lists. *)
Theorem listing_order_shows_in_violations :
  listed_b_first ≡ₚ listed_sorted
  /\ validate repo_config
       (Some (UserGuide None (Some listed_b_first) None None)) []
     = [missing_ledger_violation repo_config;
        episode_format_violation repo_config "user-guide/episodes"
          (DirEntry "episode-b.md" true);
        episode_format_violation repo_config "user-guide/episodes"
          (DirEntry "episode-a.md" true);
        missing_prose_violation repo_config;
        missing_outline_violation repo_config]
  /\ validate repo_config
       (Some (UserGuide None (Some listed_b_first) None None)) []
     <> validate repo_config
          (Some (UserGuide None (Some listed_sorted) None None)) [].
Proof.
  split_and!.
  - unfold listed_b_first, listed_sorted.
    etrans; [apply Permutation_swap|].
    etrans; [apply perm_skip, Permutation_swap|].
    apply Permutation_swap.
  - reflexivity.
  - intros [=].
Qed.

(** ** Structure order *)

Lemma filter_ext_in {A} (P Q : A -> Prop) `{!forall x, Decision (P x)}
    `{!forall x, Decision (Q x)} (l : list A) :
  (forall x, x ∈ l -> P x <-> Q x) -> filter P l = filter Q l.
Proof.
  induction l as [|x l IH]; intros Hpq; [done|].
  assert (IH' : filter P l = filter Q l)
    by (apply IH; intros y Hy; apply Hpq; by right).
  assert (Hx : P x <-> Q x) by (apply Hpq; left).
  destruct (decide (P x)) as [HP|HP].
  - rewrite !filter_cons_True by tauto. by f_equal.
  - rewrite !filter_cons_False by tauto. done.
Qed.

(** The first element a filter keeps, and what comes before and after. *)
Lemma filter_cons_split {A} (P : A -> Prop) `{!forall x, Decision (P x)}
    (l : list A) x r :
  filter P l = x :: r ->
  exists l1 l2,
    l = l1 ++ x :: l2 /\ Forall (fun y => ~ P y) l1 /\ P x
    /\ filter P l2 = r.
Proof.
  induction l as [|y l IH]; [done|].
  destruct (decide (P y)) as [HP|HP].
  - rewrite filter_cons_True by done. intros [= -> <-].
    exists [], l. by split_and!.
  - rewrite filter_cons_False by done. intros Hf.
    destruct (IH Hf) as (l1 & l2 & -> & Hl1 & Hx & Hr).
    exists (y :: l1), l2. split_and!; try done. by constructor.
Qed.

Lemma find_section_skip name idx before rest :
  Forall (fun e => sec_name e <> name) before ->
  find_section name idx (before ++ rest)
  = find_section name (idx + length before) rest.
Proof.
  revert idx; induction before as [|e before IH]; intros idx Hb; simpl.
  - by rewrite Nat.add_0_r.
  - apply Forall_cons in Hb as [He Hb].
    destruct (String.eqb_spec (sec_name e) name) as [?|_]; [done|].
    rewrite IH by done. f_equal. lia.
Qed.

Lemma find_section_here name idx e rest :
  sec_name e = name ->
  find_section name idx (e :: rest) = Some (idx, sec_line e).
Proof. intros <-. simpl. by rewrite String.eqb_refl. Qed.

Lemma find_section_absent name idx prose_sections :
  Forall (fun e => sec_name e <> name) prose_sections ->
  find_section name idx prose_sections = None.
Proof.
  intros H. rewrite <- (app_nil_r prose_sections).
  by rewrite find_section_skip.
Qed.

(** The look-up returns the first prose section of that name. *)
Lemma find_section_first name prose_sections i e :
  prose_sections !! i = Some e -> sec_name e = name ->
  (forall j e', j < i -> prose_sections !! j = Some e' ->
                sec_name e' <> name) ->
  find_section name 0 prose_sections = Some (i, sec_line e).
Proof.
  intros Hi He Hbefore.
  rewrite <- (take_drop_middle _ _ _ Hi).
  assert (Hskip : Forall (fun e' => sec_name e' <> name)
                    (take i prose_sections)).
  { apply Forall_forall. intros e' (j & Hj & Hlt)%elem_of_take.
    by apply (Hbefore j). }
  rewrite find_section_skip, find_section_here by done.
  rewrite length_take_le by (apply lookup_lt_Some in Hi; lia). done.
Qed.

Section StructureOrder.

Variable cfg : config.
Variables structure_path prose_path : string.

Local Abbreviation sloop := (structure_loop cfg structure_path prose_path).

Lemma structure_loop_cons prose_sections s secs st :
  sloop prose_sections (s :: secs) st
  = sloop prose_sections secs
      (structure_step cfg structure_path prose_path prose_sections st s).
Proof. reflexivity. Qed.

Lemma structure_step_found prose_sections last violations s i l :
  find_section (sec_name s) 0 prose_sections = Some (i, l) ->
  structure_step cfg structure_path prose_path prose_sections
    (last, violations) s
  = (Z.of_nat i,
     violations
     ++ (if (Z.of_nat i <=? last)%Z then
           [Violation prose_path (Some l) (USER_GUIDE_STRUCTURE cfg)
              (SectionOutOfOrder (sec_name s))]
         else [])).
Proof.
  intros H. unfold structure_step. rewrite H.
  destruct (_ <=? _)%Z; [done|]. by rewrite app_nil_r.
Qed.

Lemma structure_step_not_found prose_sections last violations s :
  find_section (sec_name s) 0 prose_sections = None ->
  structure_step cfg structure_path prose_path prose_sections
    (last, violations) s
  = (last,
     violations
     ++ [Violation structure_path (Some (sec_line s))
           (USER_GUIDE_STRUCTURE cfg) (SectionNotFound (sec_name s))]).
Proof. intros H. unfold structure_step. by rewrite H. Qed.

(** Outline sections met in outline order raise nothing: [seen] is the
    part of the prose up to the last section found, [ahead] the rest. *)
Lemma structure_loop_in_order structure_sections seen ahead last violations :
  NoDup (map sec_name structure_sections) ->
  (last < Z.of_nat (length seen))%Z ->
  Forall (fun e => sec_name e ∉ map sec_name structure_sections) seen ->
  map sec_name
    (filter (fun e => sec_name e ∈ map sec_name structure_sections) ahead)
  = map sec_name structure_sections ->
  (sloop (seen ++ ahead) structure_sections (last, violations)).2
  = violations.
Proof.
  revert seen ahead last;
    induction structure_sections as [|s secs IH];
    intros seen ahead last Hnd Hlast Hseen Hahead; [done|].
  rewrite structure_loop_cons. simpl map in *. apply NoDup_cons in Hnd as [Hs Hnd].
  destruct (filter _ ahead) as [|e r] eqn:Hf; [done|].
  simpl in Hahead. injection Hahead as He Hr.
  apply filter_cons_split in Hf as (t1 & t2 & -> & Ht1 & _ & Ht2).
  assert (Hfind : find_section (sec_name s) 0 (seen ++ t1 ++ e :: t2)
                  = Some (length seen + length t1, sec_line e)).
  { rewrite find_section_skip, find_section_skip, find_section_here; try done.
    - eapply Forall_impl; [exact Ht1|]. intros x Hx Hn. apply Hx.
      rewrite Hn. left.
    - eapply Forall_impl; [exact Hseen|]. intros x Hx Hn. apply Hx.
      rewrite Hn. left. }
  rewrite (structure_step_found _ _ _ _ _ _ Hfind).
  destruct (Z.leb_spec (Z.of_nat (length seen + length t1)) last) as [?|_];
    [lia|]. rewrite app_nil_r.
  replace (seen ++ t1 ++ e :: t2) with ((seen ++ t1 ++ [e]) ++ t2)
    by (by rewrite <- !app_assoc).
  apply IH; try done.
  - rewrite !length_app. simpl. lia.
  - rewrite !Forall_app. split_and!.
    + eapply Forall_impl; [exact Hseen|]. intros x Hx Hn. apply Hx.
      by right.
    + eapply Forall_impl; [exact Ht1|]. intros x Hx Hn. apply Hx.
      by right.
    + repeat constructor. by rewrite He.
  - transitivity (map sec_name r); [|done]. rewrite <- Ht2. f_equal.
    apply filter_ext_in. intros x Hx. rewrite elem_of_cons.
    split; [by right|]. intros [Hn|?]; [|done]. exfalso. apply Hs.
    rewrite <- Hr, <- Ht2. apply list_elem_of_fmap. exists x.
    split; [done|]. apply list_elem_of_filter. split; [|done].
    rewrite Hn. left.
Qed.

End StructureOrder.

(** C1 as the code has it. The check walks the outline in order and looks
    each declared section up at its first occurrence among the prose
    headings. When the prose headings that bear outline names are, in
    order, exactly the outline names (other headings may come in between),
    there is no violation. For the outline Intro, Background, Conclusion
    and the prose order Conclusion, Intro, Background there is exactly one
    violation: Conclusion is out of order, at its prose line; Intro and
    Background are not reported. A declared section found at prose index
    [i] becomes the reference point for the next one, and is out of order
    when [i] is not greater than the index of the section found before it;
    a declared section absent from the prose is reported at its outline
    line and leaves the reference point unchanged. *)
Theorem structure_order_follows_outline (cfg : config)
    (structure_path prose_path : string) :
  (forall structure_sections prose_sections violations,
     NoDup (map sec_name structure_sections) ->
     map sec_name
       (filter (fun e => sec_name e ∈ map sec_name structure_sections)
          prose_sections)
     = map sec_name structure_sections ->
     validate_structure_order cfg structure_sections prose_sections
       structure_path prose_path true true violations
     = violations)
  /\ (forall l1 l2 l3 p1 p2 p3 violations,
        validate_structure_order cfg
          [SectionEntry "Intro" l1; SectionEntry "Background" l2;
           SectionEntry "Conclusion" l3]
          [SectionEntry "Conclusion" p1; SectionEntry "Intro" p2;
           SectionEntry "Background" p3]
          structure_path prose_path true true violations
        = violations
          ++ [Violation prose_path (Some p1) (USER_GUIDE_STRUCTURE cfg)
                (SectionOutOfOrder "Conclusion")])
  /\ (forall prose_sections last violations s i e,
        prose_sections !! i = Some e -> sec_name e = sec_name s ->
        (forall j e', j < i -> prose_sections !! j = Some e' ->
                      sec_name e' <> sec_name s) ->
        structure_step cfg structure_path prose_path prose_sections
          (last, violations) s
        = (Z.of_nat i,
           violations
           ++ (if (Z.of_nat i <=? last)%Z then
                 [Violation prose_path (Some (sec_line e))
                    (USER_GUIDE_STRUCTURE cfg)
                    (SectionOutOfOrder (sec_name s))]
               else [])))
  /\ (forall prose_sections last violations s,
        Forall (fun e => sec_name e <> sec_name s) prose_sections ->
        structure_step cfg structure_path prose_path prose_sections
          (last, violations) s
        = (last,
           violations
           ++ [Violation structure_path (Some (sec_line s))
                 (USER_GUIDE_STRUCTURE cfg)
                 (SectionNotFound (sec_name s))])).
Proof.
  split_and!.
  - intros secs ps vs Hnd Hps. unfold validate_structure_order. simpl.
    apply (structure_loop_in_order cfg structure_path prose_path secs [] ps);
      [done|simpl; lia|constructor|done].
  - intros. reflexivity.
  - intros ps last vs s i e Hi He Hbefore.
    apply structure_step_found. by apply find_section_first.
  - intros ps last vs s Habs.
    apply structure_step_not_found. by apply find_section_absent.
Qed.

Lemma structure_order_follows_outline_witness :
  check_structure repo_config outline_three prose_in_order = []
  /\ structure_step repo_config "user-guide/structure/outline.md"
       "user-guide/prose/draft.md"
       (parse_prose_sections (Some prose_conclusion_first)) (2%Z, [])
       (SectionEntry "Conclusion" 5)
     = (0%Z,
        [Violation "user-guide/prose/draft.md" (Some 3)
           (USER_GUIDE_STRUCTURE repo_config)
           (SectionOutOfOrder "Conclusion")])
  /\ structure_step repo_config "user-guide/structure/outline.md"
       "user-guide/prose/draft.md"
       (parse_prose_sections (Some prose_conclusion_first)) (2%Z, [])
       (SectionEntry "Summary" 6)
     = (2%Z,
        [Violation "user-guide/structure/outline.md" (Some 6)
           (USER_GUIDE_STRUCTURE repo_config) (SectionNotFound "Summary")]).
Proof.
  split_and!.
  - apply (proj1 (structure_order_follows_outline repo_config
                    "user-guide/structure/outline.md"
                    "user-guide/prose/draft.md")).
    + apply (bool_decide_unpack _). by vm_compute.
    + by vm_compute.
  - apply (proj1 (proj2 (proj2 (structure_order_follows_outline repo_config
                                  "user-guide/structure/outline.md"
                                  "user-guide/prose/draft.md")))
             _ 2%Z [] (SectionEntry "Conclusion" 5) 0
             (SectionEntry "Conclusion" 3)); [reflexivity..|].
    intros j e' Hj. lia.
  - apply (proj2 (proj2 (proj2 (structure_order_follows_outline repo_config
                                  "user-guide/structure/outline.md"
                                  "user-guide/prose/draft.md")))).
    by repeat constructor.
Defined.

(** C1 as stated fails. For the prose order Conclusion, Intro, Background
    the only violation is for Conclusion, not for Intro; and with the prose
    order Background, Conclusion, Intro only Background is reported,
    although Conclusion stands at prose index 1, below the highest index
    matched before it (2, for Intro). *)
Lemma structure_order_counterexample :
  check_structure repo_config outline_three prose_conclusion_first
  = [Violation "user-guide/prose/draft.md" (Some 3)
       (USER_GUIDE_STRUCTURE repo_config) (SectionOutOfOrder "Conclusion")]
  /\ check_structure repo_config outline_three prose_intro_last
     = [Violation "user-guide/prose/draft.md" (Some 3)
          (USER_GUIDE_STRUCTURE repo_config)
          (SectionOutOfOrder "Background")].
Proof. split; reflexivity. Qed.

(** * Further properties of the validators *)

(** ** The violation list is only ever extended *)

Section Frames.

Variable cfg : config.

Lemma ledger_step_frame ledger_path st violations numbered :
  ledger_step cfg ledger_path (with_violations st violations) numbered
  = with_violations (ledger_step cfg ledger_path (with_violations st []) numbered)
      (violations
       ++ ledger_violations
            (ledger_step cfg ledger_path (with_violations st []) numbered)).
Proof.
  destruct numbered as [n line].
  destruct (row_cases line) as [H|[(id & H & Hm & Hn)|(id & k & H & Hm & Hn)]].
  - rewrite !ledger_step_skip by done. unfold with_violations. simpl.
    by rewrite app_nil_r.
  - by rewrite !(ledger_step_malformed _ _ _ _ _ _ H Hm).
  - by rewrite !(ledger_step_well_formed _ _ _ _ _ _ _ H Hn).
Qed.

Lemma with_violations_twice st vs1 vs2 :
  with_violations (with_violations st vs1) vs2 = with_violations st vs2.
Proof. reflexivity. Qed.

Lemma ledger_loop_frame ledger_path start lines st violations :
  ledger_loop cfg ledger_path start lines (with_violations st violations)
  = with_violations
      (ledger_loop cfg ledger_path start lines (with_violations st []))
      (violations
       ++ ledger_violations
            (ledger_loop cfg ledger_path start lines (with_violations st []))).
Proof.
  revert start st violations; induction lines as [|line lines IH];
    intros start st violations.
  - unfold with_violations. simpl. by rewrite app_nil_r.
  - rewrite !ledger_loop_cons, ledger_step_frame.
    set (st1 := ledger_step cfg ledger_path (with_violations st []) (start, line)).
    assert (E : ledger_loop cfg ledger_path (S start) lines st1
                = with_violations
                    (ledger_loop cfg ledger_path (S start) lines
                       (with_violations st1 []))
                    (ledger_violations st1
                     ++ ledger_violations
                          (ledger_loop cfg ledger_path (S start) lines
                             (with_violations st1 [])))).
    { rewrite <- IH. by destruct st1. }
    rewrite IH, E, !with_violations_twice. unfold with_violations. simpl.
    by rewrite app_assoc.
Qed.

Lemma parse_asset_ledger_frame ledger_path ledger violations :
  parse_asset_ledger cfg ledger_path ledger violations
  = ((parse_asset_ledger cfg ledger_path ledger []).1,
     violations ++ (parse_asset_ledger cfg ledger_path ledger []).2).
Proof.
  destruct ledger as [lines|]; [|done].
  unfold parse_asset_ledger.
  change (LedgerState 1 ∅ [] violations)
    with (with_violations (LedgerState 1 ∅ [] []) violations).
  change (fold_left (ledger_step cfg ledger_path) (Py.enumerate 1 lines))
    with (ledger_loop cfg ledger_path 1 lines).
  rewrite ledger_loop_frame. reflexivity.
Qed.

Lemma episode_loop_ids_frame episodes_dir entries ids violations :
  (fold_left (episode_step cfg episodes_dir) entries (ids, violations)).1
  = (fold_left (episode_step cfg episodes_dir) entries (ids, [])).1.
Proof.
  revert ids violations; induction entries as [|e entries IH];
    intros ids violations; cbn [fold_left]; [done|].
  destruct (scanned_entry cfg e) eqn:Hs.
  - rewrite !episode_step_scanned by done. rewrite IH. symmetry. apply IH.
  - by rewrite !episode_step_skipped.
Qed.

Lemma list_episode_ids_frame episodes_dir entries violations :
  list_episode_ids cfg episodes_dir entries violations
  = ((list_episode_ids cfg episodes_dir entries []).1,
     violations ++ (list_episode_ids cfg episodes_dir entries []).2).
Proof.
  destruct entries as [entries|]; [|simpl; by rewrite app_nil_r].
  unfold list_episode_ids. apply injective_projections; simpl.
  - apply episode_loop_ids_frame.
  - by rewrite !episode_loop_violations.
Qed.

Lemma token_step_frame prose_path known missing violations occurrence :
  token_step cfg prose_path known (missing, violations) occurrence
  = ((token_step cfg prose_path known (missing, []) occurrence).1,
     violations
     ++ (token_step cfg prose_path known (missing, []) occurrence).2).
Proof.
  unfold token_step, reference_step.
  destruct (_ && _); simpl; [done|by rewrite app_nil_r].
Qed.

Lemma token_scan_frame prose_path known tokens missing violations :
  fold_left (token_step cfg prose_path known) tokens (missing, violations)
  = ((fold_left (token_step cfg prose_path known) tokens (missing, [])).1,
     violations
     ++ (fold_left (token_step cfg prose_path known) tokens (missing, [])).2).
Proof.
  revert missing violations; induction tokens as [|occ tokens IH];
    intros missing violations; cbn [fold_left].
  - simpl. by rewrite app_nil_r.
  - rewrite token_step_frame.
    destruct (token_step cfg prose_path known (missing, []) occ)
      as [m1 v1].
    cbn [fst snd]. rewrite IH, (IH m1 v1). simpl. by rewrite app_assoc.
Qed.

Lemma validate_prose_references_frame prose_path prose known violations :
  validate_prose_references cfg prose_path prose known violations
  = violations ++ validate_prose_references cfg prose_path prose known [].
Proof.
  destruct prose as [lines|]; [|done].
  rewrite !validate_prose_references_tokens.
  by rewrite token_scan_frame.
Qed.

Lemma structure_loop_frame structure_path prose_path prose_sections
    structure_sections last violations :
  structure_loop cfg structure_path prose_path prose_sections
    structure_sections (last, violations)
  = ((structure_loop cfg structure_path prose_path prose_sections
        structure_sections (last, [])).1,
     violations
     ++ (structure_loop cfg structure_path prose_path prose_sections
           structure_sections (last, [])).2).
Proof.
  revert last violations; induction structure_sections as [|s secs IH];
    intros last violations.
  - simpl. by rewrite app_nil_r.
  - rewrite !structure_loop_cons.
    destruct (find_section (sec_name s) 0 prose_sections) as [[i l]|] eqn:Hf.
    + rewrite !(structure_step_found _ _ _ _ _ _ _ _ _ Hf).
      rewrite IH, (IH _ ([] ++ _)). simpl. by rewrite <- app_assoc.
    + rewrite !(structure_step_not_found _ _ _ _ _ _ _ Hf).
      rewrite IH, (IH _ ([] ++ _)). simpl. by rewrite <- app_assoc.
Qed.

Lemma validate_structure_order_frame structure_sections prose_sections
    structure_path prose_path structure_exists prose_exists violations :
  validate_structure_order cfg structure_sections prose_sections
    structure_path prose_path structure_exists prose_exists violations
  = violations
    ++ validate_structure_order cfg structure_sections prose_sections
         structure_path prose_path structure_exists prose_exists [].
Proof.
  unfold validate_structure_order.
  destruct structure_exists; [|done]. destruct prose_exists; simpl.
  - change (fold_left (structure_step cfg structure_path prose_path
                         prose_sections) structure_sections)
      with (structure_loop cfg structure_path prose_path prose_sections
              structure_sections).
    by rewrite structure_loop_frame.
  - by rewrite app_nil_r.
Qed.

End Frames.

Lemma validate_from cfg ug violations :
  validate cfg (Some ug) violations
  = violations ++ ledger_phase cfg ug ++ episode_phase cfg ug
    ++ reference_phase cfg ug ++ source_phase cfg ug
    ++ structure_phase cfg ug.
Proof.
  unfold validate, reference_phase, source_phase, structure_phase,
    ledger_phase, episode_phase, guide_asset_ids, guide_asset_sources,
    guide_episode_ids.
  rewrite (parse_asset_ledger_frame cfg _ _ violations).
  destruct (parse_asset_ledger cfg _ (ledger_file ug) []) as [[ids srcs] vl].
  cbn [fst snd].
  rewrite (list_episode_ids_frame cfg _ _ (violations ++ vl)).
  destruct (list_episode_ids cfg _ (episodes_entries ug) []) as [eps ve].
  cbn [fst snd].
  rewrite validate_structure_order_frame, validate_asset_sources_violations,
    validate_prose_references_frame.
  rewrite (validate_asset_sources_violations cfg _ _ srcs []).
  simpl. by rewrite <- !app_assoc.
Qed.

(** Extra. The report of a run is the concatenation of what the five
    checks report, in the order ledger, episodes, references, sources,
    structure, after the violations the validator object already holds:
    [validate] never clears or changes them, so a second call on the same
    object returns the first report followed by the same report once more.
    Without a [user-guide] directory nothing is added. *)
Theorem validate_accumulates_in_phase_order (cfg : config) :
  (forall ug,
     validate cfg (Some ug) []
     = ledger_phase cfg ug ++ episode_phase cfg ug ++ reference_phase cfg ug
       ++ source_phase cfg ug ++ structure_phase cfg ug)
  /\ (forall root violations,
        validate cfg root violations = violations ++ validate cfg root [])
  /\ (forall root,
        validate cfg root (validate cfg root [])
        = validate cfg root [] ++ validate cfg root [])
  /\ (forall violations, validate cfg None violations = violations).
Proof.
  assert (H : forall root violations,
            validate cfg root violations = violations ++ validate cfg root []).
  { intros root vs. destruct root as [ug|]; [|simpl; by rewrite app_nil_r].
    by rewrite validate_from, (validate_from _ _ []). }
  split_and!; [|done| |done].
  - intros ug. by rewrite validate_from.
  - intros root. apply H.
Qed.

(** ** More on the ledger parser *)

(** Extra. A ledger has no sequence violation exactly when its well-formed
    rows are numbered 1, 2, 3, ... in file order. *)
Theorem no_sequence_violation_iff_consecutive (cfg : config)
    (lines : list string) :
  filter is_sequence_violation (ledger_violations_of cfg lines) = []
  <-> well_formed_numbers lines
      = consecutive 1 (length (well_formed_numbers lines)).
Proof.
  rewrite ledger_sequence_violations. split.
  - intros H%sequence_violations_nil.
    rewrite well_formed_rows_numbers in H. rewrite H at 1.
    by rewrite <- (well_formed_rows_numbers 1), length_map.
  - intros H. eapply sequence_violations_consecutive.
    rewrite well_formed_rows_numbers. exact H.
Qed.

(** Extra. The returned ID set is the key set of the returned mapping, and
    both hold exactly the IDs of the data rows of the ledger. *)
Theorem ledger_set_is_mapping_keys (cfg : config) (lines : list string)
    (asset_id : string) :
  (asset_id ∈ ledger_ids cfg lines
   <-> asset_id ∈ Dict.keys (ledger_sources cfg lines))
  /\ (asset_id ∈ ledger_ids cfg lines
      <-> exists line, line ∈ lines /\ row_id line = Some asset_id).
Proof.
  rewrite ledger_ids_loop, ledger_sources_loop, ledger_loop_ids,
    ledger_loop_keys. simpl. unfold Dict.keys. simpl.
  rewrite elem_of_empty, elem_of_nil. tauto.
Qed.

Lemma well_formed_numbers_cons row lines :
  well_formed_numbers (row :: lines)
  = match row_number row with
    | Some id_num => id_num :: well_formed_numbers lines
    | None => well_formed_numbers lines
    end.
Proof. reflexivity. Qed.

Section LedgerLines.

Variable cfg : config.
Variable ledger_path : string.

Local Abbreviation loop := (ledger_loop cfg ledger_path).

(** One step reports at most once, on the line it reads. *)
Lemma ledger_step_new st n row :
  ledger_violations (ledger_step cfg ledger_path (with_violations st []) (n, row))
  = []
  \/ exists v,
       ledger_violations
         (ledger_step cfg ledger_path (with_violations st []) (n, row))
       = [v]
       /\ line v = Some n.
Proof.
  destruct (row_cases row) as [H|[(id & H & Hm & Hn)|(id & k & H & Hm & Hn)]].
  - left. by rewrite ledger_step_skip.
  - right. rewrite (ledger_step_malformed _ _ _ _ _ _ H Hm). simpl. eauto.
  - rewrite (ledger_step_well_formed _ _ _ _ _ _ _ H Hn). simpl.
    destruct (k =? expected_next_id st)%N; simpl; eauto.
Qed.

Lemma ledger_loop_cons_new start row lines st :
  ledger_violations (loop start (row :: lines) (with_violations st []))
  = ledger_violations
      (ledger_step cfg ledger_path (with_violations st []) (start, row))
    ++ ledger_violations
         (loop (S start) lines
            (with_violations
               (ledger_step cfg ledger_path (with_violations st [])
                  (start, row)) [])).
Proof.
  rewrite ledger_loop_cons.
  set (st1 := ledger_step _ _ _ _).
  replace st1 with (with_violations st1 (ledger_violations st1)) at 1
    by (by destruct st1).
  by rewrite ledger_loop_frame.
Qed.

(** The violations of a run cite strictly increasing lines of the run. *)
Lemma ledger_loop_lines start lines st :
  exists ns,
    map line (ledger_violations (loop start lines (with_violations st [])))
    = map Some ns
    /\ StronglySorted lt ns
    /\ Forall (fun n => start <= n < start + length lines) ns.
Proof.
  revert start st; induction lines as [|l lines IH]; intros start st.
  - exists []. split_and!; by constructor.
  - rewrite ledger_loop_cons_new.
    destruct (IH (S start)
                (ledger_step cfg ledger_path (with_violations st []) (start, l)))
      as (ns & Hns & Hsorted & Hrange).
    assert (Hshift : Forall (fun n => start <= n < start + length (l :: lines))
                       ns).
    { eapply Forall_impl; [exact Hrange|]. simpl. lia. }
    destruct (ledger_step_new st start l) as [->|(v & -> & Hv)].
    + exists ns. by split_and!.
    + exists (start :: ns). split_and!.
      * simpl. by rewrite Hv, <- Hns.
      * constructor; [done|]. eapply Forall_impl; [exact Hrange|].
        simpl. lia.
      * constructor; [simpl; lia|done].
Qed.

Lemma ledger_loop_expected start lines st :
  expected_next_id (loop start lines st)
  = match last (well_formed_numbers lines) with
    | Some id_num => (id_num + 1)%N
    | None => expected_next_id st
    end.
Proof.
  revert start st; induction lines as [|l lines IH]; intros start st; [done|].
  rewrite ledger_loop_cons, IH, well_formed_numbers_cons.
  destruct (row_cases l) as [H|[(id & H & Hm & Hn)|(id & k & H & Hm & Hn)]].
  - rewrite ledger_step_skip by done. unfold row_number. by rewrite H.
  - rewrite (ledger_step_malformed _ _ _ _ _ _ H Hm), Hn. done.
  - rewrite (ledger_step_well_formed _ _ _ _ _ _ _ H Hn), Hn. simpl.
    rewrite last_cons. by destruct (last (well_formed_numbers lines)).
Qed.

End LedgerLines.

Lemma reported_at_app n vs1 vs2 :
  reported_at n (vs1 ++ vs2) <-> reported_at n vs1 \/ reported_at n vs2.
Proof.
  unfold reported_at. split.
  - intros (v & [?|?]%elem_of_app & Hv); [left|right]; eauto.
  - intros [(v & ? & ?)|(v & ? & ?)]; exists v;
      (split; [apply elem_of_app; eauto|done]).
Qed.

Lemma reported_at_lines n vs ns :
  map line vs = map Some ns -> reported_at n vs <-> n ∈ ns.
Proof.
  revert ns; induction vs as [|v vs IH]; intros [|m ns]; try done.
  - intros _. unfold reported_at. split.
    + by intros (v & ?%elem_of_nil & _).
    + by intros ?%elem_of_nil.
  - simpl. intros [= Hv Hvs]. rewrite elem_of_cons, <- (IH ns Hvs).
    unfold reported_at. split.
    + intros (w & [->|Hw]%elem_of_cons & Hl); [left; congruence|right; eauto].
    + intros [->|(w & Hw & Hl)]; [exists v|exists w];
        (split; [|done]); [left|by right].
Qed.

(** Extra. The violations of the ledger parser cite strictly increasing
    line numbers of the ledger file, so a line is reported at most once
    and the report follows file order. *)
Theorem ledger_violations_ascending (cfg : config) (lines : list string) :
  exists ns,
    map line (ledger_violations_of cfg lines) = map Some ns
    /\ StronglySorted lt ns
    /\ Forall (fun n => 1 <= n <= length lines) ns.
Proof.
  rewrite ledger_violations_of_loop.
  destruct (ledger_loop_lines cfg "user-guide/assets/LEDGER.md" 1 lines
              (LedgerState 1 ∅ [] [])) as (ns & Hns & Hs & Hr).
  exists ns. split_and!; [done..|].
  eapply Forall_impl; [exact Hr|]. simpl. lia.
Qed.

Lemma not_reported_outside n vs ns (P : nat -> Prop) :
  map line vs = map Some ns -> Forall P ns -> ~ P n -> ~ reported_at n vs.
Proof.
  intros Hvs HP Hn Hrep. apply (reported_at_lines n vs ns Hvs) in Hrep.
  rewrite Forall_forall in HP. by apply Hn, HP.
Qed.

(** The violations of a ledger split around one of its lines. *)
Lemma ledger_violations_around cfg pre row post :
  exists before after,
    ledger_violations_of cfg (pre ++ row :: post)
    = before
      ++ ledger_violations
           (ledger_step cfg "user-guide/assets/LEDGER.md"
              (with_violations
                 (ledger_loop cfg "user-guide/assets/LEDGER.md" 1 pre
                    (LedgerState 1 ∅ [] [])) [])
              (S (length pre), row))
      ++ after
    /\ ~ reported_at (S (length pre)) before
    /\ ~ reported_at (S (length pre)) after.
Proof.
  set (path := "user-guide/assets/LEDGER.md").
  set (init := LedgerState 1 ∅ [] []).
  set (st1 := ledger_loop cfg path 1 pre init).
  exists (ledger_violations st1),
    (ledger_violations
       (ledger_loop cfg path (S (S (length pre))) post
          (with_violations
             (ledger_step cfg path (with_violations st1 [])
                (S (length pre), row)) []))).
  split_and!.
  - rewrite ledger_violations_of_loop. fold path init.
    rewrite ledger_loop_app. fold st1.
    replace st1 with (with_violations st1 (ledger_violations st1)) at 1
      by (by destruct st1).
    rewrite ledger_loop_frame. simpl ledger_violations at 1.
    by rewrite ledger_loop_cons_new.
  - destruct (ledger_loop_lines cfg path 1 pre init) as (ns & Hns & _ & Hr).
    eapply (not_reported_outside _ _ ns); [exact Hns|exact Hr|]. simpl. lia.
  - destruct (ledger_loop_lines cfg path (S (S (length pre))) post
                (ledger_step cfg path (with_violations st1 [])
                   (S (length pre), row))) as (ns & Hns & _ & Hr).
    eapply (not_reported_outside _ _ ns); [exact Hns|exact Hr|]. simpl. lia.
Qed.

Lemma reported_at_singleton n v : reported_at n [v] <-> line v = Some n.
Proof.
  unfold reported_at. split.
  - by intros (w & ->%list_elem_of_singleton & ?).
  - intros H. exists v. split; [left|done].
Qed.

Lemma not_reported_at_nil n : ~ reported_at n [].
Proof. by intros (v & ?%elem_of_nil & _). Qed.

(** Extra. Which ledger lines are reported: a line that is no data row
    never is; a malformed row always is; a well-formed row is reported
    exactly when its number is not one more than the number of the
    well-formed row before it (not 1, for the first well-formed row). *)
Theorem ledger_line_reported_iff (cfg : config) (pre : list string)
    (row : string) (post : list string) :
  let reported :=
    reported_at (S (length pre))
      (ledger_violations_of cfg (pre ++ row :: post)) in
  (row_id row = None -> ~ reported)
  /\ (malformed_row row = true -> reported)
  /\ (forall id_num,
        row_number row = Some id_num ->
        reported <-> id_num <> expected_after pre).
Proof.
  intros reported. subst reported.
  destruct (ledger_violations_around cfg pre row post)
    as (before & after & -> & Hb & Ha).
  rewrite !reported_at_app.
  set (path := "user-guide/assets/LEDGER.md").
  set (st1 := ledger_loop cfg path 1 pre (LedgerState 1 ∅ [] [])).
  assert (Hexp : expected_next_id (with_violations st1 []) = expected_after pre).
  { unfold st1. simpl. rewrite ledger_loop_expected. done. }
  destruct (row_cases row) as [H|[(id & H & Hm & Hn)|(id & k & H & Hm & Hn)]].
  - rewrite ledger_step_skip by done.
    change (ledger_violations (with_violations st1 [])) with (@nil violation).
    split_and!.
    + intros _ [?|[Hnil|?]]; [done|by apply not_reported_at_nil in Hnil|done].
    + unfold malformed_row. by rewrite H.
    + unfold row_number. by rewrite H.
  - rewrite (ledger_step_malformed _ _ _ _ _ _ H Hm). simpl. split_and!.
    + congruence.
    + intros _. right. left. by apply reported_at_singleton.
    + congruence.
  - rewrite (ledger_step_well_formed _ _ _ _ _ _ _ H Hn). simpl.
    fold path st1. fold path st1 in Hexp. simpl in Hexp. rewrite Hexp.
    split_and!.
    + congruence.
    + unfold malformed_row. by rewrite H, Hm.
    + intros j. rewrite Hn. intros [= <-]. rewrite !reported_at_app.
      destruct (N.eqb_spec k (expected_after pre)) as [->|Hne]; simpl.
      * split; [|done]. intros Hrep.
        repeat (destruct Hrep as [Hrep|Hrep]); try done;
          by apply not_reported_at_nil in Hrep.
      * split; [done|]. intros _. right. left. left.
        by apply reported_at_singleton.
Qed.

Lemma ledger_line_reported_iff_witness :
  (row_id "# Asset Ledger" = None
   /\ ~ reported_at 1
          (ledger_violations_of repo_config
             ["# Asset Ledger"; "| asset-0001 | First | concept | 01 |"]))
  /\ (malformed_row "| asset-1 | Invalid | concept | 01 |" = true
      /\ reported_at 1
           (ledger_violations_of repo_config
              ["| asset-1 | Invalid | concept | 01 |"]))
  /\ (row_number "| asset-0004 | Fourth | place | 01 |" = Some 4%N
      /\ 4%N <> expected_after ["| asset-0001 | First | concept | 01 |"]
      /\ reported_at 2
           (ledger_violations_of repo_config
              ["| asset-0001 | First | concept | 01 |";
               "| asset-0004 | Fourth | place | 01 |"])).
Proof.
  split_and!; try reflexivity.
  - apply (proj1 (ledger_line_reported_iff repo_config [] "# Asset Ledger"
                    ["| asset-0001 | First | concept | 01 |"])).
    reflexivity.
  - apply (proj1 (proj2 (ledger_line_reported_iff repo_config [] _ [])));
      reflexivity.
  - by vm_compute.
  - apply (proj2 (proj2 (ledger_line_reported_iff repo_config
                           ["| asset-0001 | First | concept | 01 |"] _ []))
             4%N); [reflexivity|by vm_compute].
Defined.

(** ** What each check emits *)

Section Kinds.

Variable cfg : config.
Variable P : violation -> Prop.

Lemma ledger_loop_Forall ledger_path start lines st :
  (forall n asset_id, P (format_violation_of cfg ledger_path (n, asset_id))) ->
  (forall n asset_id expected,
     P (Violation ledger_path (Some n) (USER_GUIDE_ASSET cfg)
          (BreaksSequence asset_id expected))) ->
  Forall P (ledger_violations st) ->
  Forall P (ledger_violations (ledger_loop cfg ledger_path start lines st)).
Proof.
  intros Hf Hs. revert start st; induction lines as [|l lines IH];
    intros start st Hst; [done|].
  rewrite ledger_loop_cons. apply IH.
  destruct (row_cases l) as [H|[(id & H & Hm & Hn)|(id & k & H & Hm & Hn)]].
  - by rewrite ledger_step_skip.
  - rewrite (ledger_step_malformed _ _ _ _ _ _ H Hm). simpl.
    apply Forall_app. split; [done|]. by repeat constructor.
  - rewrite (ledger_step_well_formed _ _ _ _ _ _ _ H Hn). simpl.
    apply Forall_app. split; [done|].
    destruct (k =? expected_next_id st)%N; by repeat constructor.
Qed.

Lemma token_scan_Forall prose_path known tokens missing violations :
  (forall n x, (n, x) ∈ tokens -> x ∉ known ->
     P (Violation prose_path (Some n) (USER_GUIDE_ASSET cfg)
          (UnregisteredReference x))) ->
  Forall P violations ->
  Forall P
    (fold_left (token_step cfg prose_path known) tokens
       (missing, violations)).2.
Proof.
  revert missing violations; induction tokens as [|[n t] tokens IH];
    intros missing violations Hp Hvs; [done|].
  cbn [fold_left]. unfold token_step at 2, reference_step. cbn [fst snd].
  destruct (decide (t ∉ known)) as [Hk|Hk];
    [rewrite (bool_decide_eq_true_2 _ Hk)
    |rewrite (bool_decide_eq_false_2 _ Hk)]; simpl.
  - destruct (bool_decide (t ∉ missing)); apply IH;
      try (intros m x Hx; apply Hp; by right); try done.
    apply Forall_app. split; [done|]. repeat constructor.
    apply Hp; [left|done].
  - apply IH; [|done]. intros m x Hx. apply Hp. by right.
Qed.

Lemma structure_loop_Forall structure_path prose_path prose_sections
    structure_sections last violations :
  (forall name n,
     P (Violation structure_path (Some n) (USER_GUIDE_STRUCTURE cfg)
          (SectionNotFound name))) ->
  (forall name n,
     P (Violation prose_path (Some n) (USER_GUIDE_STRUCTURE cfg)
          (SectionOutOfOrder name))) ->
  Forall P violations ->
  Forall P
    (structure_loop cfg structure_path prose_path prose_sections
       structure_sections (last, violations)).2.
Proof.
  intros Hn Ho.
  revert last violations; induction structure_sections as [|s secs IH];
    intros last violations Hvs; [done|].
  rewrite structure_loop_cons.
  destruct (find_section (sec_name s) 0 prose_sections) as [[i l]|] eqn:Hf.
  - rewrite (structure_step_found _ _ _ _ _ _ _ _ _ Hf). apply IH.
    apply Forall_app. split; [done|].
    destruct (_ <=? _)%Z; by repeat constructor.
  - rewrite (structure_step_not_found _ _ _ _ _ _ _ Hf). apply IH.
    apply Forall_app. split; [done|]. by repeat constructor.
Qed.

End Kinds.

Section Attribution.

Variable cfg : config.
Variable ug : user_guide.

Lemma ledger_phase_emitted :
  Forall (emitted_by cfg LedgerCheck) (ledger_phase cfg ug).
Proof.
  unfold ledger_phase. destruct (ledger_file ug) as [lines|]; simpl.
  - by apply (ledger_loop_Forall cfg _ _ 1 lines (LedgerState 1 ∅ [] [])).
  - by repeat constructor.
Qed.

Lemma episode_phase_emitted :
  Forall (emitted_by cfg EpisodeCheck) (episode_phase cfg ug).
Proof.
  unfold episode_phase. destruct (episodes_entries ug) as [entries|];
    [|by constructor].
  unfold list_episode_ids. rewrite episode_loop_violations. simpl.
  apply Forall_fmap, Forall_forall. by intros e _.
Qed.

Lemma reference_phase_emitted :
  Forall (emitted_by cfg ReferenceCheck) (reference_phase cfg ug).
Proof.
  unfold reference_phase. destruct (prose_file ug) as [lines|].
  - rewrite validate_prose_references_tokens.
    by apply token_scan_Forall.
  - by repeat constructor.
Qed.

Lemma source_phase_emitted :
  Forall (emitted_by cfg SourceCheck) (source_phase cfg ug).
Proof.
  unfold source_phase. rewrite validate_asset_sources_violations. simpl.
  apply Forall_flat_map, Forall_forall. intros [id [n sources]] _.
  unfold source_violations. simpl. destruct sources as [|e sources].
  - by repeat constructor.
  - apply Forall_fmap, Forall_forall. by intros x _.
Qed.

Lemma structure_phase_emitted :
  Forall (emitted_by cfg StructureCheck) (structure_phase cfg ug).
Proof.
  unfold structure_phase, validate_structure_order.
  destruct (bool_decide (is_Some (structure_file ug))); simpl;
    [|by repeat constructor].
  destruct (bool_decide (is_Some (prose_file ug))); simpl; [|by constructor].
  by apply (structure_loop_Forall cfg).
Qed.

End Attribution.

(** Extra. In the report of a run the message of a violation determines
    its artifact, its requirement and whether it carries a line number:
    ledger and source messages point at the ledger, episode messages at the
    episode file, reference and out-of-order messages at the prose, the
    other structure messages at the outline; only the missing-artifact and
    episode-name messages come without a line. *)
Theorem violations_well_attributed (cfg : config) (ug : user_guide) :
  Forall (well_attributed cfg) (validate cfg (Some ug) []).
Proof.
  rewrite validate_from. simpl. rewrite !Forall_app. split_and!.
  - eapply Forall_impl; [apply ledger_phase_emitted|]. by intros v [_ ?].
  - eapply Forall_impl; [apply episode_phase_emitted|]. by intros v [_ ?].
  - eapply Forall_impl; [apply reference_phase_emitted|]. by intros v [_ ?].
  - eapply Forall_impl; [apply source_phase_emitted|]. by intros v [_ ?].
  - eapply Forall_impl; [apply structure_phase_emitted|]. by intros v [_ ?].
Qed.

Lemma reports_of_other_check cfg c asset_id violations :
  Forall (emitted_by cfg c) violations -> c <> ReferenceCheck ->
  reports_of asset_id violations = [].
Proof.
  intros Hvs Hc. unfold reports_of.
  induction Hvs as [|v vs [Hv _] _ IH]; [done|].
  rewrite filter_cons_False; [done|]. intros Hd. apply Hc.
  by rewrite <- Hv, Hd.
Qed.

Lemma reports_of_validate cfg ug asset_id :
  reports_of asset_id (validate cfg (Some ug) [])
  = reports_of asset_id (reference_phase cfg ug).
Proof.
  rewrite validate_from, !reports_of_app.
  rewrite (reports_of_other_check cfg LedgerCheck _ (ledger_phase cfg ug))
    by (apply ledger_phase_emitted || done).
  rewrite (reports_of_other_check cfg EpisodeCheck _ (episode_phase cfg ug))
    by (apply episode_phase_emitted || done).
  rewrite (reports_of_other_check cfg SourceCheck _ (source_phase cfg ug))
    by (apply source_phase_emitted || done).
  rewrite (reports_of_other_check cfg StructureCheck _
             (structure_phase cfg ug))
    by (apply structure_phase_emitted || done).
  simpl. by rewrite !app_nil_r.
Qed.

Lemma guide_asset_ids_elem cfg ug asset_id :
  asset_id ∈ guide_asset_ids cfg ug
  <-> exists lines row,
        ledger_file ug = Some lines /\ row ∈ lines
        /\ row_id row = Some asset_id.
Proof.
  unfold guide_asset_ids. destruct (ledger_file ug) as [lines|].
  - change (parse_asset_ledger cfg _ (Some lines) []).1.1
      with (ledger_ids cfg lines).
    rewrite ledger_ids_loop, ledger_loop_ids. simpl.
    rewrite elem_of_empty. split.
    + intros [[]|(row & ? & ?)]. by exists lines, row.
    + intros (? & row & [= <-] & ? & ?). right. eauto.
  - simpl. rewrite elem_of_empty. split; [done|].
    by intros (? & ? & [=] & _).
Qed.

(** Extra. Reference closure over a whole run: an asset token of the prose
    whose ID stands in some data row of the ledger is not reported; a token
    whose ID stands in no data row (or when the ledger is missing) is
    reported exactly once in the whole report, on the first prose line that
    holds it. *)
Theorem reference_closure_of_run (cfg : config) (ug : user_guide)
    (prose : list string) (asset_id : string) :
  prose_file ug = Some prose ->
  ((exists lines row,
      ledger_file ug = Some lines /\ row ∈ lines
      /\ row_id row = Some asset_id) ->
   reports_of asset_id (validate cfg (Some ug) []) = [])
  /\ (~ (exists lines row,
           ledger_file ug = Some lines /\ row ∈ lines
           /\ row_id row = Some asset_id) ->
      forall i l,
        prose !! i = Some l -> asset_id ∈ finditer_asset l ->
        (forall j l', j < i -> prose !! j = Some l' ->
                      asset_id ∉ finditer_asset l') ->
        reports_of asset_id (validate cfg (Some ug) [])
        = [Violation "user-guide/prose/draft.md" (Some (S i))
             (USER_GUIDE_ASSET cfg) (UnregisteredReference asset_id)]).
Proof.
  intros Hprose. rewrite reports_of_validate. unfold reference_phase.
  rewrite Hprose, validate_prose_references_tokens, token_scan_reports.
  simpl. split.
  - intros Hrow.
    apply (proj2 (guide_asset_ids_elem cfg ug asset_id)) in Hrow.
    by rewrite decide_True by (by left).
  - intros Hrow i l Hl Hin Hbefore.
    rewrite decide_False.
    + by rewrite (first_occurrence_first_line _ 1 _ i l).
    + intros [?%guide_asset_ids_elem|[]%elem_of_empty]. done.
Qed.

Lemma reference_closure_of_run_witness :
  prose_file guide_ledger_prose = Some prose_three_mentions
  /\ reports_of "asset-0001"
       (validate repo_config (Some guide_ledger_prose) []) = []
  /\ reports_of "asset-9999"
       (validate repo_config (Some guide_ledger_prose) [])
     = [Violation "user-guide/prose/draft.md" (Some 3)
          (USER_GUIDE_ASSET repo_config)
          (UnregisteredReference "asset-9999")].
Proof.
  split; [reflexivity|]. split.
  - apply (proj1 (reference_closure_of_run repo_config guide_ledger_prose
                    prose_three_mentions "asset-0001" eq_refl)).
    exists ledger_1_2_3, "| asset-0001 | First | concept | 01 |
". split_and!; [reflexivity| |reflexivity].
    unfold ledger_1_2_3, file_lines. simpl. do 4 right. left.
  - apply (proj2 (reference_closure_of_run repo_config guide_ledger_prose
                    prose_three_mentions "asset-9999" eq_refl)
             ) with (i := 2) (l := "This mentions asset-0001 and asset-9999.
").
    + intros (lines & row & [= <-] & Hin & Hid).
      apply list_elem_of_In in Hin. unfold ledger_1_2_3, file_lines in Hin.
      simpl in Hin.
      repeat (destruct Hin as [<-|Hin]; [by vm_compute in Hid|]).
      done.
    + reflexivity.
    + vm_compute. right. left.
    + intros [|[|j]] l' Hj; [| |lia]; intros [= <-]; vm_compute;
        by intros ?%elem_of_nil.
Defined.

(** ** Stripping and splitting *)

Local Close Scope list_scope.
Local Open Scope string_scope.

Section Strip.

Variable p : ascii -> bool.

Lemma rstrip_with_empty_iff s :
  Py.rstrip_with p s = "" <-> all_chars p s = true.
Proof.
  induction s as [|c s IH]; simpl; [done|].
  destruct (Py.rstrip_with p s) eqn:Hr.
  - destruct (p c); simpl; [|split; done].
    rewrite <- IH. done.
  - split; [done|]. intros [_ Hs]%andb_true_iff.
    apply IH in Hs. done.
Qed.

Lemma lstrip_with_empty_iff s :
  Py.lstrip_with p s = "" <-> all_chars p s = true.
Proof.
  induction s as [|c s IH]; simpl; [done|].
  destruct (p c); simpl; [done|]. split; done.
Qed.

Lemma all_chars_lstrip s :
  all_chars p (Py.lstrip_with p s) = true -> all_chars p s = true.
Proof.
  induction s as [|c s IH]; simpl; [done|].
  destruct (p c) eqn:Hc; simpl; [done|]. by rewrite Hc.
Qed.

Lemma strip_with_empty_iff s :
  Py.strip_with p s = "" <-> all_chars p s = true.
Proof.
  unfold Py.strip_with. rewrite rstrip_with_empty_iff. split.
  - apply all_chars_lstrip.
  - intros H. apply lstrip_with_empty_iff in H. by rewrite H.
Qed.

Lemma lstrip_with_first s c :
  first_char (Py.lstrip_with p s) = Some c -> p c = false.
Proof.
  induction s as [|a s IH]; simpl; [done|].
  destruct (p a) eqn:Ha; [done|]. simpl. congruence.
Qed.

Lemma rstrip_with_last s c :
  last_char (Py.rstrip_with p s) = Some c -> p c = false.
Proof.
  revert c; induction s as [|a s IH]; intros c; simpl; [done|].
  destruct (Py.rstrip_with p s) as [|b r] eqn:Hr.
  - destruct (p a) eqn:Ha; simpl; congruence.
  - simpl. intros H. apply IH. destruct r; done.
Qed.

Lemma rstrip_with_first s c :
  first_char (Py.rstrip_with p s) = Some c -> first_char s = Some c.
Proof.
  destruct s as [|a s]; simpl; [done|].
  destruct (Py.rstrip_with p s); [destruct (p a)|]; done.
Qed.

Lemma strip_with_trimmed s : trimmed p (Py.strip_with p s).
Proof.
  unfold Py.strip_with. split; intros c Hc.
  - apply rstrip_with_first in Hc. by apply lstrip_with_first in Hc.
  - by apply rstrip_with_last in Hc.
Qed.

Lemma lstrip_with_id s :
  (forall c, first_char s = Some c -> p c = false) -> Py.lstrip_with p s = s.
Proof.
  destruct s as [|a s]; simpl; [done|]. intros H.
  by rewrite (H a).
Qed.

Lemma rstrip_with_id s :
  (forall c, last_char s = Some c -> p c = false) -> Py.rstrip_with p s = s.
Proof.
  induction s as [|a s IH]; simpl; [done|]. intros H.
  destruct s as [|b s].
  - simpl. by rewrite (H a).
  - rewrite IH by done. done.
Qed.

Lemma strip_with_id s : trimmed p s -> Py.strip_with p s = s.
Proof.
  intros [Hf Hl]. unfold Py.strip_with.
  by rewrite lstrip_with_id, rstrip_with_id.
Qed.

End Strip.

(** [strip] is idempotent, its result has no white space at either end,
    and it is empty exactly for a string made of white space only. *)
Lemma strip_idempotent (s : string) :
  Py.strip (Py.strip s) = Py.strip s
  /\ trimmed Py.is_space (Py.strip s)
  /\ (Py.strip s = "" <-> all_chars Py.is_space s = true).
Proof.
  unfold Py.strip. split_and!.
  - apply strip_with_id, strip_with_trimmed.
  - apply strip_with_trimmed.
  - apply strip_with_empty_iff.
Qed.

Lemma append_empty_r s : s ++ "" = s.
Proof. induction s as [|c s IH]; simpl; [done|]. by rewrite IH. Qed.

Lemma last_char_app_cons pre c r :
  last_char (pre ++ String c r) = last_char (String c r).
Proof.
  induction pre as [|a pre IH]; [done|].
  simpl. rewrite IH. simpl. by destruct pre.
Qed.

Lemma last_char_all p c r :
  p c = true -> all_chars p r = true ->
  exists d, last_char (String c r) = Some d /\ p d = true.
Proof.
  revert c; induction r as [|b r IH]; intros c Hc Hr; simpl.
  - eauto.
  - simpl in Hr. apply andb_true_iff in Hr as [Hb Hr].
    destruct (IH b Hb Hr) as (d & Hd & Hpd). eauto.
Qed.

(** What follows a prefix ending in white space, in a stripped string, is
    not white space only. *)
Lemma strip_after_prefix_nonempty pre line rest :
  last_char pre = Some " "%char ->
  Py.strip line = pre ++ rest -> Py.strip rest <> "".
Proof.
  intros Hpre Hline Hrest.
  apply strip_with_empty_iff in Hrest.
  pose proof (strip_with_trimmed Py.is_space line) as [_ Hlast].
  fold (Py.strip line) in Hlast. rewrite Hline in Hlast.
  destruct rest as [|c r].
  - rewrite append_empty_r in Hlast. by specialize (Hlast _ Hpre).
  - simpl in Hrest. apply andb_true_iff in Hrest as [Hc Hr].
    destruct (last_char_all _ _ _ Hc Hr) as (d & Hd & Hpd).
    rewrite last_char_app_cons in Hlast.
    specialize (Hlast _ Hd). congruence.
Qed.

Local Close Scope string_scope.
Local Open Scope list_scope.

Lemma enumerate_lookup {A} start (xs : list A) n x :
  (n, x) ∈ Py.enumerate start xs
  <-> exists i, xs !! i = Some x /\ n = start + i.
Proof.
  revert start; induction xs as [|y xs IH]; intros start; simpl.
  - rewrite elem_of_nil. split; [done|]. by intros (i & ? & _).
  - rewrite elem_of_cons, IH. split.
    + intros [[= -> ->]|(i & Hi & ->)].
      * exists 0. split; [done|lia].
      * exists (S i). split; [done|lia].
    + intros ([|i] & Hi & ->).
      * left. simpl in Hi. injection Hi as ->. f_equal. lia.
      * right. exists i. split; [done|lia].
Qed.

(** ** The section parsers *)

(** A parser that yields at most one section per line, carrying the line
    number, yields sections with strictly increasing line numbers. *)
Lemma sections_ascending (f : nat * string -> list section) start lines :
  (forall n l, f (n, l) = [] \/ exists e, f (n, l) = [e] /\ sec_line e = n) ->
  StronglySorted lt (map sec_line (flat_map f (Py.enumerate start lines)))
  /\ Forall (fun e => start <= sec_line e)
       (flat_map f (Py.enumerate start lines)).
Proof.
  intros Hf. revert start; induction lines as [|l lines IH]; intros start.
  - split; constructor.
  - simpl. destruct (IH (S start)) as [Hs Hr].
    assert (Hr' : Forall (fun e => start <= sec_line e)
                    (flat_map f (Py.enumerate (S start) lines)))
      by (eapply Forall_impl; [exact Hr|]; simpl; lia).
    destruct (Hf start l) as [->|(e & -> & He)]; [done|].
    simpl. split.
    + constructor; [done|]. apply Forall_fmap.
      eapply Forall_impl; [exact Hr|]. simpl. lia.
    + constructor; [lia|done].
Qed.

Lemma elem_of_flat_map {A B} (f : A -> list B) (l : list A) (y : B) :
  y ∈ flat_map f l <-> exists x, x ∈ l /\ y ∈ f x.
Proof.
  rewrite list_elem_of_In, in_flat_map.
  split; intros (x & Hx & Hy); exists x; by rewrite ?list_elem_of_In in *.
Qed.

Lemma startswith_heading_rest stripped :
  Py.startswith "## " stripped = true ->
  stripped = ("## " +:+ Py.drop 3 stripped)%string.
Proof. intros H. by apply startswith_app in H. Qed.

Lemma prose_section_elem (lines : list string) e :
  e ∈ parse_prose_sections (Some lines) ->
  exists i line,
    lines !! i = Some line
    /\ Py.startswith "## " (Py.strip line) = true
    /\ e = SectionEntry (Py.strip (Py.drop 3 (Py.strip line))) (S i).
Proof.
  intros He. unfold parse_prose_sections in He.
  apply elem_of_flat_map in He as ([n line] & Hin & He).
  apply enumerate_lookup in Hin as (i & Hi & ->).
  destruct (Py.startswith "## " (Py.strip line)) eqn:Hs;
    [|by apply elem_of_nil in He].
  apply list_elem_of_singleton in He as ->. by exists i, line.
Qed.

Lemma prose_section_name_nonempty (lines : list string) e :
  e ∈ parse_prose_sections (Some lines) -> sec_name e <> "".
Proof.
  intros (i & line & _ & Hs & ->)%prose_section_elem. simpl.
  eapply (strip_after_prefix_nonempty "## " line); [done|].
  by apply startswith_heading_rest.
Qed.

(** Extra. Every section [_parse_prose_sections] returns stands for a line
    whose stripped text starts with [## ]; its name is never empty and has
    no white space at either end, and the sections come with strictly
    increasing line numbers. *)
Theorem prose_sections_named (lines : list string) :
  (forall e,
     e ∈ parse_prose_sections (Some lines) ->
     sec_name e <> ""
     /\ trimmed Py.is_space (sec_name e)
     /\ exists i line,
          lines !! i = Some line /\ sec_line e = S i
          /\ Py.startswith "## " (Py.strip line) = true
          /\ sec_name e = Py.strip (Py.drop 3 (Py.strip line)))
  /\ StronglySorted lt (map sec_line (parse_prose_sections (Some lines))).
Proof.
  split.
  - intros e He. split; [by eapply prose_section_name_nonempty|].
    apply prose_section_elem in He as (i & line & Hi & Hs & ->). simpl.
    split; [apply strip_with_trimmed|]. by exists i, line.
  - apply sections_ascending. intros n l. cbv beta iota zeta.
    destruct (Py.startswith "## " (Py.strip l)); [right|by left].
    eexists. by split.
Qed.

Lemma prose_sections_named_witness :
  SectionEntry "Intro" 4 ∈ parse_prose_sections (Some prose_in_order)
  /\ sec_name (SectionEntry "Intro" 4) <> ""
  /\ trimmed Py.is_space "Intro".
Proof.
  assert (H : SectionEntry "Intro" 4
              ∈ parse_prose_sections (Some prose_in_order))
    by (vm_compute; right; left).
  split; [exact H|].
  destruct (proj1 (prose_sections_named prose_in_order) _ H) as (? & ? & _).
  by split.
Defined.

Section StructureRun.

Variable cfg : config.
Variables structure_path prose_path : string.

Local Abbreviation sloop := (structure_loop cfg structure_path prose_path).

Lemma structure_loop_app prose_sections secs1 secs2 st :
  sloop prose_sections (secs1 ++ secs2) st
  = sloop prose_sections secs2 (sloop prose_sections secs1 st).
Proof. apply fold_left_app. Qed.

Lemma structure_loop_length prose_sections secs last violations :
  length (sloop prose_sections secs (last, violations)).2
  <= length violations + length secs.
Proof.
  revert last violations; induction secs as [|s secs IH];
    intros last violations; [simpl; lia|].
  rewrite structure_loop_cons.
  destruct (find_section (sec_name s) 0 prose_sections) as [[i l]|] eqn:Hf.
  - rewrite (structure_step_found _ _ _ _ _ _ _ _ _ Hf).
    etrans; [apply IH|]. rewrite length_app. simpl.
    destruct (_ <=? _)%Z; simpl; lia.
  - rewrite (structure_step_not_found _ _ _ _ _ _ _ Hf).
    etrans; [apply IH|]. rewrite length_app. simpl. lia.
Qed.

Lemma structure_loop_missing_reported prose_sections pre s post st :
  Forall (fun e => sec_name e <> sec_name s) prose_sections ->
  Violation structure_path (Some (sec_line s)) (USER_GUIDE_STRUCTURE cfg)
    (SectionNotFound (sec_name s))
  ∈ (sloop prose_sections (pre ++ s :: post) st).2.
Proof.
  intros Habs. rewrite structure_loop_app, structure_loop_cons.
  destruct (sloop prose_sections pre st) as [last1 vs1].
  rewrite (structure_step_not_found _ _ _ _ _ _ _
             (find_section_absent _ _ _ Habs)).
  rewrite structure_loop_frame. simpl.
  rewrite !elem_of_app. left. right. left.
Qed.

End StructureRun.

(** Extra. When outline and prose both exist, a declared section whose
    name is the name of no prose section is reported as not found at its
    outline line, wherever it stands in the outline; this holds in
    particular for a declared section with an empty title, because prose
    section names are never empty. The check reports at most one violation
    per declared section. *)
Theorem missing_section_reported (cfg : config)
    (structure_path prose_path : string) (pre : list section) (s : section)
    (post : list section) :
  (forall prose_sections,
     Forall (fun e => sec_name e <> sec_name s) prose_sections ->
     Violation structure_path (Some (sec_line s)) (USER_GUIDE_STRUCTURE cfg)
       (SectionNotFound (sec_name s))
     ∈ validate_structure_order cfg (pre ++ s :: post) prose_sections
         structure_path prose_path true true [])
  /\ (forall prose,
        sec_name s = "" ->
        Violation structure_path (Some (sec_line s))
          (USER_GUIDE_STRUCTURE cfg) (SectionNotFound "")
        ∈ validate_structure_order cfg (pre ++ s :: post)
            (parse_prose_sections (Some prose)) structure_path prose_path
            true true [])
  /\ (forall prose_sections,
        length (validate_structure_order cfg (pre ++ s :: post)
                  prose_sections structure_path prose_path true true [])
        <= length (pre ++ s :: post)).
Proof.
  split_and!.
  - intros ps Habs. by apply structure_loop_missing_reported.
  - intros prose Hs. rewrite <- Hs.
    apply structure_loop_missing_reported, Forall_forall.
    intros e He. rewrite Hs. by eapply prose_section_name_nonempty.
  - intros ps. unfold validate_structure_order. simpl.
    apply (structure_loop_length cfg structure_path prose_path ps
             (pre ++ s :: post) (-1)%Z []).
Qed.

Lemma missing_section_reported_witness :
  Forall (fun e => sec_name e <> sec_name (SectionEntry "Summary" 4))
    [SectionEntry "Intro" 4]
  /\ Violation "user-guide/structure/outline.md" (Some 4)
       (USER_GUIDE_STRUCTURE repo_config) (SectionNotFound "Summary")
     ∈ validate_structure_order repo_config
         ([SectionEntry "Intro" 3] ++ SectionEntry "Summary" 4 :: [])
         [SectionEntry "Intro" 4] "user-guide/structure/outline.md"
         "user-guide/prose/draft.md" true true []
  /\ Violation "user-guide/structure/outline.md" (Some 4)
       (USER_GUIDE_STRUCTURE repo_config) (SectionNotFound "")
     ∈ validate_structure_order repo_config
         ([SectionEntry "Intro" 3] ++ SectionEntry "" 4 :: [])
         (parse_prose_sections (Some prose_in_order))
         "user-guide/structure/outline.md" "user-guide/prose/draft.md"
         true true [].
Proof.
  assert (H : Forall (fun e => sec_name e <> sec_name (SectionEntry "Summary" 4))
                [SectionEntry "Intro" 4]) by (by repeat constructor).
  split_and!; [exact H| |].
  - by apply (proj1 (missing_section_reported repo_config _ _
                       [SectionEntry "Intro" 3] (SectionEntry "Summary" 4)
                       [])).
  - by apply (proj1 (proj2 (missing_section_reported repo_config _ _
                              [SectionEntry "Intro" 3] (SectionEntry "" 4)
                              []))).
Defined.

(** ** Episode file names *)

Local Close Scope list_scope.
Local Open Scope string_scope.

Lemma length_append a b :
  String.length (a ++ b) = (String.length a + String.length b)%nat.
Proof. induction a as [|c a IH]; simpl; [done|]. by rewrite IH. Qed.

Lemma drop_append a b : Py.drop (String.length a) (a ++ b) = b.
Proof. induction a as [|c a IH]; simpl; [done|]. by rewrite IH. Qed.

Lemma drop_append_more a b k :
  Py.drop (String.length a + k) (a ++ b) = Py.drop k b.
Proof. induction a as [|c a IH]; simpl; [done|]. by rewrite IH. Qed.

Lemma take_append a b : Py.take (String.length a) (a ++ b) = a.
Proof. induction a as [|c a IH]; simpl; [done|]. by rewrite IH. Qed.

Lemma take_drop k s : s = Py.take k s ++ Py.drop k s.
Proof.
  revert s; induction k as [|k IH]; intros [|c s]; simpl; try done.
  f_equal. apply IH.
Qed.

Lemma take_empty_iff k s :
  Py.take k s = "" <-> k = 0%nat \/ s = "".
Proof.
  destruct k, s; simpl; split; try done; eauto; by intros [|].
Qed.

(** The ID drawn from a file name is what stands between the prefix and
    the suffix, and only names of that form give an ID. *)
Lemma extracted_episode_id_iff name d :
  extracted_episode_id name = Some d
  <-> d <> "" /\ name = "episode-" ++ d ++ ".md".
Proof.
  split.
  - intros H.
    assert (exists r, name = "episode-" ++ r) as [r ->].
    { unfold extracted_episode_id in H.
      destruct (Py.startswith "episode-" name) eqn:Hs; [|done].
      eexists. by apply startswith_app. }
    unfold extracted_episode_id, Py.endswith, Py.slice_between in H.
    change (Py.startswith "episode-" ("episode-" ++ r)) with true in H.
    change (Py.drop (String.length "episode-") ("episode-" ++ r)) with r in H.
    rewrite length_append in H. cbn [andb] in H.
    change (String.length "episode-") with 8%nat in H.
    change (String.length ".md") with 3%nat in H.
    replace (8 + String.length r - 3 - 8)%nat with (String.length r - 3)%nat
      in H by lia.
    destruct (decide (String.length r <= 3)%nat) as [Hle|Hgt].
    { replace (String.length r - 3)%nat with 0%nat in H by lia.
      change (Py.take 0 r) with "" in H. cbn [String.eqb negb] in H.
      by destruct (_ && _). }
    replace (8 + String.length r - 3)%nat
      with (String.length "episode-" + (String.length r - 3))%nat in H
      by (simpl; lia).
    rewrite drop_append_more in H.
    destruct (_ <=? _)%nat; [|done]. cbn [andb] in H.
    destruct (String.eqb_spec (Py.drop (String.length r - 3) r) ".md")
      as [Hend|]; [|done].
    destruct (String.eqb_spec (Py.take (String.length r - 3) r) "")
      as [|Hd]; [done|].
    simpl in H. injection H as <-. split; [done|]. f_equal.
    rewrite <- Hend. apply take_drop.
  - intros [Hd ->].
    unfold extracted_episode_id, Py.endswith, Py.slice_between.
    assert (Hlen : String.length ("episode-" ++ d ++ ".md")
                   = (8 + (String.length d + 3))%nat)
      by (by rewrite !length_append).
    change (Py.startswith "episode-" ("episode-" ++ d ++ ".md")) with true.
    cbn [andb]. rewrite Hlen.
    replace (String.length ".md" <=? 8 + (String.length d + 3))%nat
      with true by (symmetry; apply Nat.leb_le; simpl; lia).
    cbn [andb].
    replace (8 + (String.length d + 3) - String.length ".md")%nat
      with (String.length "episode-" + (String.length d + 0))%nat
      by (simpl; lia).
    rewrite drop_append_more, Nat.add_0_r, drop_append, String.eqb_refl.
    replace (String.length "episode-" + String.length d
             - String.length "episode-")%nat
      with (String.length d) by lia.
    rewrite drop_append, take_append.
    destruct (String.eqb_spec d "") as [|_]; done.
Qed.

Lemma match_episode_name_digits a b :
  Py.is_digit a = true -> Py.is_digit b = true ->
  match_episode_name ("episode-" ++ String a (String b ".md")) = true.
Proof.
  intros Ha Hb. unfold match_episode_name, digits_after. simpl.
  unfold Py.all_digits. simpl. by rewrite Ha, Hb.
Qed.

Local Close Scope string_scope.
Local Open Scope list_scope.

Lemma scanned_entry_iff cfg e :
  scanned_entry cfg e = true
  <-> is_file e = true /\ (name e ∉ TRIAD_FILES cfg).
Proof.
  unfold scanned_entry.
  rewrite andb_true_iff, negb_true_iff, bool_decide_eq_false. done.
Qed.

(** Extra. The episode IDs [_list_episode_ids] returns are exactly the
    non-empty texts [x] such that the directory lists a file named
    [episode-x.md] (triad names excepted). A file named [episode-NN.md]
    with two digits adds [NN] and is not reported. *)
Theorem episode_ids_from_file_names (cfg : config) (episodes_dir : string)
    (entries : list dir_entry) :
  (forall x,
     x ∈ (list_episode_ids cfg episodes_dir (Some entries) []).1
     <-> x <> ""
         /\ exists e,
              e ∈ entries /\ is_file e = true
              /\ (name e ∉ TRIAD_FILES cfg)
              /\ name e = "episode-" +:+ x +:+ ".md")
  /\ (forall a b ids violations,
        Py.is_digit a = true -> Py.is_digit b = true ->
        "episode-" +:+ String a (String b ".md") ∉ TRIAD_FILES cfg ->
        episode_step cfg episodes_dir (ids, violations)
          (DirEntry ("episode-" +:+ String a (String b ".md")) true)
        = ({[String a (String b "")]} ∪ ids, violations)).
Proof.
  split.
  - intros x. unfold list_episode_ids. rewrite episode_loop_ids.
    rewrite elem_of_empty. split.
    + intros [[]|(e & He & Hs & Hx)].
      apply extracted_episode_id_iff in Hx as [Hne Hname].
      apply scanned_entry_iff in Hs as [Hf Ht].
      split; [done|]. by exists e.
    + intros (Hne & e & He & Hf & Ht & Hname). right. exists e.
      split_and!; [done| |].
      * by apply scanned_entry_iff.
      * by apply extracted_episode_id_iff.
  - intros a b ids vs Ha Hb Ht.
    rewrite episode_step_scanned by (by apply scanned_entry_iff).
    cbn [name].
    rewrite (proj2 (extracted_episode_id_iff
                      ("episode-" +:+ String a (String b ".md"))
                      (String a (String b "")))) by done.
    by rewrite match_episode_name_digits, app_nil_r.
Qed.

Lemma episode_ids_from_file_names_witness :
  Py.is_digit "0" = true /\ Py.is_digit "7" = true
  /\ ("episode-07.md" ∉ TRIAD_FILES repo_config)
  /\ episode_step repo_config "user-guide/episodes" (∅, [])
       (DirEntry "episode-07.md" true)
     = ({["07"]} ∪ ∅, []).
Proof.
  assert (Ht : "episode-07.md" ∉ TRIAD_FILES repo_config).
  { simpl. rewrite !elem_of_cons, elem_of_nil. by intros [|[|[|]]]. }
  split_and!; [reflexivity..|exact Ht|].
  by apply (proj2 (episode_ids_from_file_names repo_config
                     "user-guide/episodes" []) "0"%char "7"%char ∅ []).
Defined.

(** ** The columns of a ledger row *)

Local Open Scope string_scope.

Lemma rstrip_with_app_keep p pre c r :
  last_char pre = Some c -> p c = false ->
  Py.rstrip_with p (pre ++ r) = pre ++ Py.rstrip_with p r.
Proof.
  revert c; induction pre as [|a pre IH]; intros c Hl Hc; [done|].
  destruct pre as [|b pre].
  - simpl in *. injection Hl as ->. rewrite Hc.
    by destruct (Py.rstrip_with p r).
  - change (last_char (String a (String b pre))) with (last_char (String b pre))
      in Hl.
    change (String a (String b pre) ++ r) with (String a (String b pre ++ r)).
    cbn [Py.rstrip_with]. rewrite (IH c Hl Hc). done.
Qed.

Lemma contains_lstrip_with p c s :
  Py.contains c (Py.lstrip_with p s) = true -> Py.contains c s = true.
Proof.
  induction s as [|a s IH]; simpl; [done|].
  destruct (p a); simpl; [|done]. intros H. rewrite (IH H).
  by rewrite orb_true_r.
Qed.

Lemma contains_rstrip_with p c s :
  Py.contains c (Py.rstrip_with p s) = true -> Py.contains c s = true.
Proof.
  induction s as [|a s IH]; simpl; [done|].
  destruct (Py.rstrip_with p s) as [|b r] eqn:Hr.
  - destruct (p a); simpl; [done|]. rewrite orb_false_r. by intros ->.
  - simpl in *. intros [->|H]%orb_true_iff; [done|].
    rewrite (IH H). by rewrite orb_true_r.
Qed.

Lemma contains_strip c s :
  Py.contains c (Py.strip s) = true -> Py.contains c s = true.
Proof.
  intros H. by apply contains_rstrip_with, contains_lstrip_with in H.
Qed.

Lemma split_nonempty sep s : Py.split sep s <> [].
Proof.
  destruct s as [|a s]; simpl; [done|].
  destruct (Ascii.eqb a sep); [done|]. by destruct (Py.split sep s).
Qed.

Lemma split_app_no_sep sep pre r :
  Py.contains sep pre = false ->
  Py.split sep (pre ++ r)
  = match Py.split sep r with
    | w :: ws => (pre ++ w) :: ws
    | [] => [pre]
    end.
Proof.
  induction pre as [|a pre IH]; simpl.
  - intros _. destruct (Py.split sep r) eqn:Hs; [|done].
    by apply split_nonempty in Hs.
  - intros [Ha Hpre]%orb_false_iff. rewrite Ha, (IH Hpre).
    by destruct (Py.split sep r).
Qed.

(** The pieces of a split hold no separator. *)
Lemma split_no_sep sep s w :
  In w (Py.split sep s) -> Py.contains sep w = false.
Proof.
  revert w; induction s as [|a s IH]; intros w; simpl.
  - by intros [<-|[]].
  - destruct (Ascii.eqb a sep) eqn:Ha.
    + intros [<-|Hw]; [done|]. by apply IH.
    + destruct (Py.split sep s) as [|x xs] eqn:Hs.
      * intros [<-|[]]. simpl. by rewrite Ha.
      * intros [<-|Hw].
        -- simpl. rewrite Ha. apply IH. by left.
        -- apply IH. by right.
Qed.

(** The ID column of a data row carries the prefix the row filter asks
    for. *)
Lemma row_id_prefix line asset_id :
  row_id line = Some asset_id -> Py.startswith "asset-" asset_id = true.
Proof.
  unfold row_id, ledger_columns.
  destruct (Py.startswith "| asset-" (Py.strip line)) eqn:Hs; [|done].
  apply startswith_app in Hs. simpl negb. cbv iota.
  set (r := Py.drop (String.length "| asset-") (Py.strip line)) in *.
  rewrite Hs. unfold Py.strip_char, Py.strip_with.
  change (Py.lstrip_with (Ascii.eqb "|") ("| asset-" ++ r))
    with (" asset-" ++ r).
  rewrite (rstrip_with_app_keep _ " asset-" "-"%char) by done.
  rewrite (split_app_no_sep "|" " asset-") by done.
  destruct (Py.split "|" (Py.rstrip_with (Ascii.eqb "|") r)) as [|w ws] eqn:Hw;
    [by apply split_nonempty in Hw|].
  cbn [map]. intros [= <-]. cbn [lookup list_lookup default].
  change (Py.startswith "asset-"
            (Py.rstrip_with Py.is_space ("asset-" ++ w)) = true).
  by rewrite (rstrip_with_app_keep _ "asset-" "-"%char).
Qed.

Local Close Scope string_scope.

(** The source entries of a row are stripped, non-empty and hold no
    comma. *)
Lemma parse_sources_entries source_value e :
  e ∈ parse_sources source_value ->
  e <> "" /\ trimmed Py.is_space e /\ Py.contains "," e = false.
Proof.
  unfold parse_sources. intros (x & -> & Hx)%list_elem_of_fmap.
  apply list_elem_of_filter in Hx as [Hne Hx]. split_and!; [done| |].
  - apply strip_with_trimmed.
  - apply list_elem_of_In, split_no_sep in Hx.
    destruct (Py.contains "," (Py.strip x)) eqn:Hc; [|done].
    apply contains_strip in Hc. congruence.
Qed.

Lemma dict_set_elem {V} k (v : V) d x :
  x ∈ Dict.set k v d -> x = (k, v) \/ x ∈ d.
Proof.
  induction d as [|[k0 v0] d IH]; simpl.
  - intros ->%list_elem_of_singleton. by left.
  - destruct (String.eqb_spec k0 k) as [->|_].
    + intros [->|?]%elem_of_cons; [by left|right; by right].
    + intros [->|Hx]%elem_of_cons; [right; left|].
      destruct (IH Hx); [by left|right; by right].
Qed.

Lemma ledger_loop_entries cfg ledger_path start lines st asset_id m :
  (asset_id, m) ∈ asset_sources (ledger_loop cfg ledger_path start lines st) ->
  (asset_id, m) ∈ asset_sources st
  \/ exists i row,
       lines !! i = Some row /\ row_id row = Some asset_id
       /\ m = Meta (start + i) (row_sources row).
Proof.
  revert start st; induction lines as [|l lines IH]; intros start st;
    [by left|].
  rewrite ledger_loop_cons. intros [Hin|(i & row & Hi & Hid & ->)]%IH.
  - destruct (row_id l) as [id|] eqn:Hl.
    + destruct (ledger_step_row cfg ledger_path st start l id Hl) as [_ Hs].
      rewrite Hs in Hin. apply dict_set_elem in Hin as [[= -> ->]|Hin];
        [|by left].
      right. exists 0, l. split_and!; [done..|]. f_equal. lia.
    + rewrite ledger_step_skip in Hin by done. by left.
  - right. exists (S i), row. split_and!; [done..|]. f_equal. lia.
Qed.

(** Extra. Every entry of the mapping the ledger parser returns comes from
    a data row of the ledger: its key is that row's ID and starts with
    [asset-], its line is that row's line number, and its source episodes
    are the comma-separated pieces of the row's fourth column, each of
    them non-empty, without white space at either end and without a
    comma. *)
Theorem ledger_mapping_entries (cfg : config) (lines : list string)
    (asset_id : string) (m : meta) :
  (asset_id, m) ∈ ledger_sources cfg lines ->
  Py.startswith "asset-" asset_id = true
  /\ (exists i row,
        lines !! i = Some row /\ row_id row = Some asset_id
        /\ m = Meta (S i) (row_sources row))
  /\ Forall (fun e => e <> "" /\ trimmed Py.is_space e
                      /\ Py.contains "," e = false)
       (meta_sources m).
Proof.
  rewrite ledger_sources_loop.
  intros [[]%elem_of_nil|(i & row & Hi & Hid & ->)]%ledger_loop_entries.
  split_and!.
  - by eapply row_id_prefix.
  - by exists i, row.
  - simpl. apply Forall_forall. intros e He. unfold row_sources in He.
    destruct (ledger_columns row); [|by apply elem_of_nil in He].
    by eapply parse_sources_entries.
Qed.

Lemma ledger_mapping_entries_witness :
  ("asset-0003", Meta 7 ["01"; "02"]) ∈ ledger_sources repo_config ledger_1_2_3
  /\ Py.startswith "asset-" "asset-0003" = true
  /\ Forall (fun e => e <> "" /\ trimmed Py.is_space e
                      /\ Py.contains "," e = false)
       ["01"; "02"].
Proof.
  assert (H : ("asset-0003", Meta 7 ["01"; "02"])
              ∈ ledger_sources repo_config ledger_1_2_3)
    by (vm_compute; do 2 right; left).
  split; [exact H|].
  destruct (ledger_mapping_entries repo_config ledger_1_2_3 _ _ H)
    as (Hp & _ & Hs).
  by split.
Defined.

(** ** Splitting on white space *)

Lemma split_whitespace_nil_iff s :
  split_whitespace s = [] <-> all_chars Py.is_space s = true.
Proof.
  induction s as [|c s IH]; simpl; [done|].
  destruct (Py.is_space c); simpl; [done|].
  split; [|done]. destruct s as [|d s]; [done|].
  destruct (Py.is_space d); [done|]. by destruct (split_whitespace _).
Qed.

Lemma split_whitespace_words s w :
  w ∈ split_whitespace s ->
  w <> "" /\ all_chars (fun c => negb (Py.is_space c)) w = true.
Proof.
  revert w; induction s as [|c s IH]; intros w; simpl.
  - by intros ?%elem_of_nil.
  - destruct (Py.is_space c) eqn:Hc; [apply IH|].
    destruct s as [|d s].
    + intros ->%list_elem_of_singleton. simpl. by rewrite Hc.
    + destruct (Py.is_space d) eqn:Hd.
      * intros [->|Hw]%elem_of_cons; [simpl; by rewrite Hc|by apply IH].
      * destruct (split_whitespace (String d s)) as [|x xs] eqn:Hs.
        -- intros ->%list_elem_of_singleton. simpl. by rewrite Hc.
        -- intros [->|Hw]%elem_of_cons.
           ++ split; [done|]. simpl. rewrite Hc. simpl.
              apply IH. left.
           ++ apply IH. by right.
Qed.

(** ** The vocabulary parser *)

Lemma vocab_step_term terms n l :
  vocab_step terms (n, l)
  = match vocab_term l with
    | Some t => Dict.set t n terms
    | None => terms
    end.
Proof.
  unfold vocab_step, vocab_term.
  destruct (Py.startswith "### " l); [|done].
  by destruct (negb _).
Qed.

Lemma vocab_loop_cons start l lines terms :
  vocab_loop start (l :: lines) terms
  = vocab_loop (S start) lines (vocab_step terms (start, l)).
Proof. reflexivity. Qed.

Lemma vocab_loop_app start l1 l2 terms :
  vocab_loop start (l1 ++ l2) terms
  = vocab_loop (start + length l1) l2 (vocab_loop start l1 terms).
Proof.
  revert start terms; induction l1 as [|l l1 IH]; intros start terms.
  - simpl. by rewrite Nat.add_0_r.
  - rewrite <- app_comm_cons, !vocab_loop_cons, IH. simpl.
    by rewrite Nat.add_succ_r.
Qed.

Lemma vocab_loop_keys start lines terms t :
  t ∈ Dict.keys (vocab_loop start lines terms)
  <-> t ∈ Dict.keys terms \/ exists l, l ∈ lines /\ vocab_term l = Some t.
Proof.
  revert start terms; induction lines as [|l lines IH]; intros start terms.
  - simpl. split; [by left|]. by intros [?|(l & ?%elem_of_nil & _)].
  - rewrite vocab_loop_cons, IH, vocab_step_term.
    destruct (vocab_term l) as [t'|] eqn:Hl.
    + rewrite dict_keys_set_elem. split.
      * intros [[->|?]|(l' & Hl' & ?)]; [right|by left|right].
        -- exists l. split; [left|done].
        -- exists l'. split; [by right|done].
      * intros [?|(l' & [->|Hl']%elem_of_cons & Ht)];
          [by left; right|left; left; congruence|right; eauto].
    + split.
      * intros [?|(l' & Hl' & ?)]; [by left|right].
        exists l'. split; [by right|done].
      * intros [?|(l' & [->|Hl']%elem_of_cons & Ht)];
          [by left|congruence|right; eauto].
Qed.

Lemma vocab_loop_keys_NoDup start lines terms :
  NoDup (Dict.keys terms) -> NoDup (Dict.keys (vocab_loop start lines terms)).
Proof.
  revert start terms; induction lines as [|l lines IH]; intros start terms H;
    [done|].
  rewrite vocab_loop_cons. apply IH. rewrite vocab_step_term.
  destruct (vocab_term l); [by apply dict_keys_set_NoDup|done].
Qed.

Lemma vocab_loop_get_other start lines terms t :
  (forall l, l ∈ lines -> vocab_term l <> Some t) ->
  Dict.get t (vocab_loop start lines terms) = Dict.get t terms.
Proof.
  revert start terms; induction lines as [|l lines IH]; intros start terms H;
    [done|].
  rewrite vocab_loop_cons, IH by (intros l' ?; apply H; by right).
  rewrite vocab_step_term. destruct (vocab_term l) as [t'|] eqn:Hl; [|done].
  rewrite dict_get_set, decide_False; [done|].
  intros ->. by apply (H l); [left|].
Qed.

Lemma vocab_term_shape l t :
  vocab_term l = Some t -> t <> "" /\ trimmed Py.is_space t.
Proof.
  unfold vocab_term. destruct (Py.startswith "### " l); [|done].
  destruct (String.eqb_spec (Py.strip (Py.drop 4 l)) "") as [|Hne]; [done|].
  simpl. intros [= <-]. split; [done|]. apply strip_with_trimmed.
Qed.

(** Extra. [_parse_vocab_terms] maps every term declared by a line that
    starts with [### ] (the text after it, stripped and not empty) to the
    line number of the LAST line declaring it; there is one entry per
    term, and no entry without such a line. *)
Theorem vocab_terms_last_declaration (lines : list string) :
  NoDup (Dict.keys (parse_vocab_terms (Some lines)))
  /\ (forall t,
        t ∈ Dict.keys (parse_vocab_terms (Some lines))
        <-> exists l, l ∈ lines /\ vocab_term l = Some t)
  /\ (forall pre l post t,
        lines = pre ++ l :: post -> vocab_term l = Some t ->
        (forall l', l' ∈ post -> vocab_term l' <> Some t) ->
        Dict.get t (parse_vocab_terms (Some lines)) = Some (S (length pre)))
  /\ (forall t,
        t ∈ Dict.keys (parse_vocab_terms (Some lines)) ->
        t <> "" /\ trimmed Py.is_space t).
Proof.
  change (parse_vocab_terms (Some lines)) with (vocab_loop 1 lines []).
  split_and!.
  - apply vocab_loop_keys_NoDup. constructor.
  - intros t. rewrite vocab_loop_keys. unfold Dict.keys. simpl.
    rewrite elem_of_nil. tauto.
  - intros pre l post t -> Hl Hpost.
    rewrite vocab_loop_app, vocab_loop_cons, vocab_loop_get_other by done.
    by rewrite vocab_step_term, Hl, dict_get_set, decide_True.
  - intros t [[]%elem_of_nil|(l & _ & Hl)]%vocab_loop_keys.
    by eapply vocab_term_shape.
Qed.

Lemma vocab_terms_last_declaration_witness :
  Dict.get "Asset" (parse_vocab_terms (Some vocab_sample)) = Some 7
  /\ "Episode" <> "" /\ trimmed Py.is_space "Episode".
Proof.
  split.
  - apply (proj1 (proj2 (proj2 (vocab_terms_last_declaration vocab_sample)))
             (file_lines ["# Vocabulary"; "### Asset"; "text"; "### Episode ";
                          "#### Deeper"; "  ### Indented"])
             "### Asset
" (file_lines ["###  "]) "Asset"); [reflexivity..|].
    intros l' [->|[]%elem_of_nil]%elem_of_cons. by vm_compute.
  - apply (proj2 (proj2 (proj2 (vocab_terms_last_declaration vocab_sample)))).
    apply (proj1 (proj2 (vocab_terms_last_declaration vocab_sample))).
    exists "### Episode 
". split; [|reflexivity].
    unfold vocab_sample, file_lines. simpl. do 3 right. left.
Defined.

(** ** The required-artifacts parser *)

Lemma required_loop_header n h rest section_open required :
  Py.strip h = required_header ->
  required_loop n (h :: rest) section_open required
  = required_loop (S n) rest true required.
Proof. intros H. cbn [required_loop]. cbv zeta. by rewrite H, String.eqb_refl. Qed.

Lemma required_loop_closed n l rest required :
  Py.strip l <> required_header ->
  required_loop n (l :: rest) false required
  = required_loop (S n) rest false required.
Proof.
  intros H. cbn [required_loop]. cbv zeta.
  by destruct (String.eqb_spec (Py.strip l) required_header).
Qed.

Lemma required_loop_close n c rest required :
  Py.strip c <> required_header -> Py.startswith "## " (Py.strip c) = true ->
  required_loop n (c :: rest) true required = Some required.
Proof.
  intros H Hc. cbn [required_loop]. cbv zeta.
  destruct (String.eqb_spec (Py.strip c) required_header); [done|].
  by rewrite Hc.
Qed.

Lemma required_loop_plain n l rest required :
  plain_line l = true ->
  required_loop n (l :: rest) true required
  = required_loop (S n) rest true required.
Proof.
  unfold plain_line. rewrite !andb_true_iff, !negb_true_iff.
  intros [[H1 H2] H3]. cbn [required_loop]. cbv zeta.
  by rewrite H1, H2, H3.
Qed.

Lemma required_loop_closed_prefix n pre rest required :
  (forall l, l ∈ pre -> Py.strip l <> required_header) ->
  required_loop n (pre ++ rest) false required
  = required_loop (n + length pre) rest false required.
Proof.
  revert n; induction pre as [|l pre IH]; intros n H.
  - simpl. by rewrite Nat.add_0_r.
  - rewrite <- app_comm_cons, required_loop_closed by (apply H; left).
    rewrite IH by (intros l' ?; apply H; by right).
    simpl. by rewrite Nat.add_succ_r.
Qed.

Lemma required_loop_plain_prefix n body rest required :
  (forall l, l ∈ body -> plain_line l = true) ->
  required_loop n (body ++ rest) true required
  = required_loop (n + length body) rest true required.
Proof.
  revert n; induction body as [|l body IH]; intros n H.
  - simpl. by rewrite Nat.add_0_r.
  - rewrite <- app_comm_cons, required_loop_plain by (apply H; left).
    rewrite IH by (intros l' ?; apply H; by right).
    simpl. by rewrite Nat.add_succ_r.
Qed.

Local Open Scope string_scope.

Lemma blank_bullet_shape b :
  blank_bullet b = true ->
  Py.strip b = "-" /\ Py.startswith "- " b = true
  /\ (2 <? String.length b)%nat = true
  /\ split_whitespace (Py.drop 2 b) = [].
Proof.
  unfold blank_bullet. rewrite !andb_true_iff. intros [[Hs Hl] Hw].
  split_and!; [|done..|by apply split_whitespace_nil_iff].
  apply startswith_app in Hs. rewrite Hs. simpl String.length.
  change (Py.drop 2 b) with (Py.drop 2 b) in *.
  unfold Py.strip, Py.strip_with.
  change (Py.lstrip_with Py.is_space ("- " ++ Py.drop 2 b))
    with ("- " ++ Py.drop 2 b).
  change ("- " ++ Py.drop 2 b) with (String "-" (String " " (Py.drop 2 b))).
  cbn [Py.rstrip_with].
  assert (Hr : Py.rstrip_with Py.is_space (Py.drop 2 b) = "")
    by (by apply rstrip_with_empty_iff).
  rewrite Hr. reflexivity.
Qed.

Local Close Scope string_scope.

Lemma required_loop_blank_bullet n b rest required :
  blank_bullet b = true -> required_loop n (b :: rest) true required = None.
Proof.
  intros (Hs & Hb & Hl & Hw)%blank_bullet_shape.
  cbn [required_loop]. cbv zeta. by rewrite Hs, Hb, Hl, Hw.
Qed.

(** Once the header has been read, what follows the next heading does not
    matter. *)
Lemma required_loop_after_close n pre c post1 post2 section_open required :
  section_open = true \/ (exists l, l ∈ pre /\ Py.strip l = required_header) ->
  Py.strip c <> required_header -> Py.startswith "## " (Py.strip c) = true ->
  required_loop n (pre ++ c :: post1) section_open required
  = required_loop n (pre ++ c :: post2) section_open required.
Proof.
  intros Hopen Hc1 Hc2.
  revert n section_open required Hopen;
    induction pre as [|l pre IH]; intros n section_open required Hopen.
  - destruct Hopen as [->|(l & []%elem_of_nil & _)].
    simpl app. by rewrite !required_loop_close.
  - rewrite <- !app_comm_cons. cbn [required_loop]. cbv zeta.
    destruct (String.eqb_spec (Py.strip l) required_header) as [Hh|Hh].
    { apply IH. by left. }
    destruct section_open; simpl negb; cbv iota.
    + destruct (Py.startswith "## " (Py.strip l)); [done|].
      destruct (Py.startswith "- " l); [|apply IH; by left].
      destruct (_ <? _)%nat; [|apply IH; by left].
      destruct (split_whitespace _) as [|w ws]; [done|].
      destruct (negb _); apply IH; by left.
    + apply IH. right.
      destruct Hopen as [[=]|(l' & [->|Hl']%elem_of_cons & Hs)];
        [done|eauto].
Qed.

(** What a run of the loop adds: entries of bullets of the lines read, in
    file order. *)
Lemma required_loop_entries n lines section_open required out :
  required_loop n lines section_open required = Some out ->
  exists new,
    out = required ++ new
    /\ Forall (fun e =>
                 exists i l rest,
                   lines !! i = Some l /\ req_line e = n + i
                   /\ Py.startswith "- " l = true
                   /\ split_whitespace (Py.drop 2 l) = req_name e :: rest)
         new
    /\ StronglySorted lt (map req_line new)
    /\ Forall (fun e => n <= req_line e) new.
Proof.
  revert n section_open required;
    induction lines as [|l lines IH]; intros n section_open required.
  - intros [= <-]. exists []. rewrite app_nil_r. by repeat constructor.
  - assert (Hnext : forall o req,
              required_loop (S n) lines o req = Some out ->
              exists new,
                out = req ++ new
                /\ Forall (fun e =>
                     exists i l0 rest,
                       (l :: lines) !! i = Some l0 /\ req_line e = n + i
                       /\ Py.startswith "- " l0 = true
                       /\ split_whitespace (Py.drop 2 l0) = req_name e :: rest)
                     new
                /\ StronglySorted lt (map req_line new)
                /\ Forall (fun e => S n <= req_line e) new).
    { intros o req (new & -> & Hnew & Hs & Hr)%IH. exists new.
      split_and!; [done| |done..].
      eapply Forall_impl; [exact Hnew|]. intros e (i & l0 & rest & ? & ? & ?).
      exists (S i), l0, rest. split_and!; [done|lia|tauto..]. }
    assert (Hweak : forall o req,
              required_loop (S n) lines o req = Some out ->
              exists new,
                out = req ++ new
                /\ Forall (fun e =>
                     exists i l0 rest,
                       (l :: lines) !! i = Some l0 /\ req_line e = n + i
                       /\ Py.startswith "- " l0 = true
                       /\ split_whitespace (Py.drop 2 l0) = req_name e :: rest)
                     new
                /\ StronglySorted lt (map req_line new)
                /\ Forall (fun e => n <= req_line e) new).
    { intros o req (new & ? & ? & ? & Hr)%Hnext. exists new.
      split_and!; [done..|]. eapply Forall_impl; [exact Hr|]. simpl. lia. }
    cbn [required_loop]. cbv zeta.
    destruct (String.eqb (Py.strip l) required_header); [apply Hweak|].
    destruct (negb section_open); [apply Hweak|].
    destruct (Py.startswith "## " (Py.strip l)).
    { intros [= <-]. exists []. rewrite app_nil_r. by repeat constructor. }
    destruct (Py.startswith "- " l) eqn:Hb; [|apply Hweak].
    destruct (_ <? _)%nat; [|apply Hweak].
    destruct (split_whitespace (Py.drop 2 l)) as [|w ws] eqn:Hw; [done|].
    destruct (negb _); [|apply Hweak].
    intros (new & -> & Hnew & Hs & Hr)%Hnext.
    exists (RequiredEntry w n :: new). split_and!.
    + by rewrite <- app_assoc.
    + constructor; [|done]. exists 0, l, ws. split_and!; [done|simpl; lia|done..].
    + simpl. constructor; [done|]. apply Forall_fmap.
      eapply Forall_impl; [exact Hr|]. simpl. lia.
    + constructor; [simpl; lia|]. eapply Forall_impl; [exact Hr|]. simpl. lia.
Qed.

(** Extra. [_parse_required_artifacts] returns nothing for a missing file
    or a file without the header line; once the header has been read, the
    lines after the next [## ] heading have no influence on the result;
    every returned entry is the first word of a line that starts with
    [- ] (the first of the words that follow the two characters), not
    empty and free of white space, and the entries come with strictly
    increasing line numbers. *)
Theorem required_artifacts_section :
  parse_required_artifacts None = Some []
  /\ (forall lines,
        (forall l, l ∈ lines -> Py.strip l <> required_header) ->
        parse_required_artifacts (Some lines) = Some [])
  /\ (forall pre c post,
        (exists l, l ∈ pre /\ Py.strip l = required_header) ->
        Py.strip c <> required_header ->
        Py.startswith "## " (Py.strip c) = true ->
        parse_required_artifacts (Some (pre ++ c :: post))
        = parse_required_artifacts (Some (pre ++ [c])))
  /\ (forall lines out,
        parse_required_artifacts (Some lines) = Some out ->
        Forall (fun e =>
                  req_name e <> ""
                  /\ all_chars (fun c => negb (Py.is_space c)) (req_name e)
                     = true
                  /\ exists i l rest,
                       lines !! i = Some l /\ req_line e = S i
                       /\ Py.startswith "- " l = true
                       /\ split_whitespace (Py.drop 2 l)
                          = req_name e :: rest)
          out
        /\ StronglySorted lt (map req_line out)).
Proof.
  split_and!; [done| | |].
  - intros lines H. unfold parse_required_artifacts.
    rewrite <- (app_nil_r lines), required_loop_closed_prefix by done.
    done.
  - intros pre c post Hh Hc1 Hc2. unfold parse_required_artifacts.
    apply required_loop_after_close; [by right|done..].
  - intros lines out (new & -> & Hnew & Hs & _)%required_loop_entries.
    simpl. split; [|done].
    eapply Forall_impl; [exact Hnew|].
    intros e (i & l & rest & Hi & Hl & Hb & Hw).
    assert (Hin : req_name e ∈ split_whitespace (Py.drop 2 l))
      by (rewrite Hw; left).
    apply split_whitespace_words in Hin as [Hne Hns].
    split_and!; [done..|]. by exists i, l, rest.
Qed.

Lemma required_artifacts_section_witness :
  parse_required_artifacts (Some (file_lines ["# CANON"; "- ignored.md"]))
  = Some []
  /\ parse_required_artifacts (Some canon_sample)
     = parse_required_artifacts
         (Some (file_lines
                  ["# CANON"; "- ignored.md";
                   "## Required Artifacts (root level)"; "";
                   "- README.md (overview)"; "-   tools/  helper scripts";
                   "text"; "## Next section"]))
  /\ Forall (fun e =>
               req_name e <> ""
               /\ all_chars (fun c => negb (Py.is_space c)) (req_name e)
                  = true
               /\ exists i l rest,
                    canon_sample !! i = Some l /\ req_line e = S i
                    /\ Py.startswith "- " l = true
                    /\ split_whitespace (Py.drop 2 l) = req_name e :: rest)
       [RequiredEntry "README.md" 5; RequiredEntry "tools/" 6].
Proof.
  split_and!.
  - apply (proj1 (proj2 required_artifacts_section)).
    intros l [->|[->|[]%elem_of_nil]%elem_of_cons]%elem_of_cons;
      by vm_compute.
  - apply (proj1 (proj2 (proj2 required_artifacts_section))
             (file_lines
                ["# CANON"; "- ignored.md";
                 "## Required Artifacts (root level)"; "";
                 "- README.md (overview)"; "-   tools/  helper scripts";
                 "text"])
             "## Next section
" (file_lines ["- late.md"])); [|by vm_compute|reflexivity].
    exists "## Required Artifacts (root level)
". split; [|reflexivity]. unfold file_lines. simpl. do 2 right. left.
  - apply (proj2 (proj2 (proj2 required_artifacts_section)) canon_sample).
    reflexivity.
Defined.

(** Extra. Inside the Required Artifacts section a bullet line with white
    space only after [- ] (the line [- ] followed by a newline, say) makes
    [_parse_required_artifacts] raise [IndexError]: the file yields no
    list at all. The two-character line [- ], without a newline, is
    skipped instead. *)
Theorem blank_bullet_raises (pre : list string) (h : string)
    (body : list string) (b : string) (post : list string) :
  (forall l, l ∈ pre -> Py.strip l <> required_header) ->
  Py.strip h = required_header ->
  (forall l, l ∈ body -> plain_line l = true) ->
  (blank_bullet b = true ->
   parse_required_artifacts (Some (pre ++ h :: body ++ b :: post)) = None)
  /\ (b = "- " ->
      parse_required_artifacts (Some (pre ++ h :: body ++ b :: post))
      = required_loop (S (S (S (length pre + length body)))) post true []).
Proof.
  intros Hpre Hh Hbody. unfold parse_required_artifacts.
  rewrite required_loop_closed_prefix, required_loop_header,
    required_loop_plain_prefix by done.
  split.
  - intros Hb. by apply required_loop_blank_bullet.
  - intros ->. cbn [required_loop]. simpl. done.
Qed.

Lemma blank_bullet_raises_witness :
  blank_bullet "- 
" = true
  /\ parse_required_artifacts
       (Some (file_lines ["# CANON"; "## Required Artifacts (root level)";
                          "text"; "- "; "- README.md"]))
     = None.
Proof.
  split; [reflexivity|].
  assert (H1 : forall l, l ∈ file_lines ["# CANON"] ->
                         Py.strip l <> required_header).
  { intros l [->|[]%elem_of_nil]%elem_of_cons. by vm_compute. }
  assert (H3 : forall l, l ∈ file_lines ["text"] -> plain_line l = true).
  { by intros l [->|[]%elem_of_nil]%elem_of_cons. }
  destruct (blank_bullet_raises (file_lines ["# CANON"])
              "## Required Artifacts (root level)
" (file_lines ["text"]) "- 
" (file_lines ["- README.md"]) H1 eq_refl H3) as [Hb _].
  by apply Hb.
Defined.

(** ** Counting by requirement *)

Lemma dict_sum_set k v d :
  dict_sum (Dict.set k v d) + default 0 (Dict.get k d) = dict_sum d + v.
Proof.
  unfold dict_sum. induction d as [|[k0 v0] d IH]; simpl; [lia|].
  destruct (String.eqb_spec k0 k) as [->|_]; simpl; lia.
Qed.

Lemma count_requirement_cons req v vs :
  count_requirement req (v :: vs)
  = (if decide (e_requirement v = req) then 1 else 0)
    + count_requirement req vs.
Proof.
  unfold count_requirement. destruct (decide (e_requirement v = req)).
  - by rewrite filter_cons_True.
  - by rewrite filter_cons_False.
Qed.

Lemma count_loop_get req violations d :
  Dict.get req (fold_left count_step violations d)
  = match Dict.get req d with
    | Some n => Some (n + count_requirement req violations)
    | None =>
        if decide (count_requirement req violations = 0) then None
        else Some (count_requirement req violations)
    end.
Proof.
  revert d; induction violations as [|v vs IH]; intros d.
  - simpl. destruct (Dict.get req d); [f_equal; unfold count_requirement; simpl; lia|done].
  - cbn [fold_left]. rewrite IH, count_requirement_cons.
    unfold count_step. rewrite dict_get_set.
    destruct (decide (e_requirement v = req)) as [->|Hne].
    + destruct (Dict.get req d) as [n|]; simpl.
      * f_equal. lia.
      * done.
    + done.
Qed.

Lemma count_loop_sum violations d :
  dict_sum (fold_left count_step violations d)
  = dict_sum d + length violations.
Proof.
  revert d; induction violations as [|v vs IH]; intros d; simpl; [lia|].
  rewrite IH. unfold count_step.
  pose proof (dict_sum_set (e_requirement v)
                (default 0 (Dict.get (e_requirement v) d) + 1) d).
  lia.
Qed.

Lemma count_loop_keys_NoDup violations d :
  NoDup (Dict.keys d) ->
  NoDup (Dict.keys (fold_left count_step violations d)).
Proof.
  revert d; induction violations as [|v vs IH]; intros d Hd; [done|].
  simpl. apply IH. by apply dict_keys_set_NoDup.
Qed.

(** Extra. The per-requirement counts built by [validate_all] and by
    [print_report_summary] have one entry for each requirement that
    occurs, holding the number of violations filed under it; requirements
    that do not occur have no entry, and the counts add up to the number of
    violations. *)
Theorem counts_by_requirement (violations : list report_entry) :
  NoDup (Dict.keys (count_by_requirement violations))
  /\ (forall req,
        Dict.get req (count_by_requirement violations)
        = if decide (count_requirement req violations = 0) then None
          else Some (count_requirement req violations))
  /\ dict_sum (count_by_requirement violations) = length violations.
Proof.
  unfold count_by_requirement. split_and!.
  - apply count_loop_keys_NoDup. constructor.
  - intros req. by rewrite count_loop_get.
  - by rewrite count_loop_sum.
Qed.

(** ** The runner *)

Lemma collect_loop_app validators violations :
  fold_left collect_step validators violations
  = violations ++ fold_left collect_step validators [].
Proof.
  revert violations; induction validators as [|[c o] vals IH];
    intros violations; simpl; [by rewrite app_nil_r|].
  rewrite IH, (IH (collect_step [] (c, o))).
  unfold collect_step. simpl. destruct o; simpl; by rewrite <- app_assoc.
Qed.

Lemma collect_loop_nil_iff validators :
  fold_left collect_step validators [] = []
  <-> Forall (fun validator => validator.2 = Returned []) validators.
Proof.
  induction validators as [|[c o] vals IH]; simpl; [by split|].
  rewrite collect_loop_app, Forall_cons, <- IH. unfold collect_step. simpl.
  destruct o as [vs|e]; simpl.
  - split.
    + intros [-> ->]%app_eq_nil. done.
    + intros [[= ->] ->]. done.
  - split; [|by intros [[=] _]]. intros [=].
Qed.

Lemma collect_loop_length validators :
  length (fold_left collect_step validators [])
  = sum_list
      (map (fun validator =>
              match validator.2 with
              | Returned violations => length violations
              | Raised _ => 1
              end) validators).
Proof.
  induction validators as [|[c o] vals IH]; simpl; [done|].
  rewrite collect_loop_app, length_app, IH. unfold collect_step. simpl.
  destruct o; simpl; lia.
Qed.

(** Extra. [validate_all] declares a run valid exactly when every
    validator returned normally with no violation; a validator that raises
    counts as one violation, filed under [validation_protocol] with the
    name of its class as artifact, and the run goes on with the validators
    after it; the totals of the summary are the number of collected
    violations and the number of validators. *)
Theorem validate_all_summary (validators : list (string * outcome)) :
  (valid (validate_all validators) = true
   <-> Forall (fun validator => validator.2 = Returned []) validators)
  /\ total_violations (validate_all validators)
     = length (result_violations (validate_all validators))
  /\ total_violations (validate_all validators)
     = sum_list
         (map (fun validator =>
                 match validator.2 with
                 | Returned violations => length violations
                 | Raised _ => 1
                 end) validators)
  /\ validators_run (validate_all validators) = length validators
  /\ dict_sum (by_requirement (validate_all validators))
     = total_violations (validate_all validators)
  /\ (forall before class_name e after,
        validators = before ++ (class_name, Raised e) :: after ->
        result_violations (validate_all validators)
        = result_violations (validate_all before)
          ++ ReportEntry class_name None "validation_protocol"
               ("Validator failed: " +:+ e)
             :: result_violations (validate_all after)).
Proof.
  unfold validate_all. simpl. split_and!; [|done| |done| |].
  - rewrite Nat.eqb_eq, length_zero_iff_nil. apply collect_loop_nil_iff.
  - apply collect_loop_length.
  - unfold count_by_requirement. by rewrite count_loop_sum.
  - intros before c e after ->.
    rewrite fold_left_app. cbn [fold_left]. rewrite collect_loop_app.
    unfold collect_step at 1. cbn [snd fst]. by rewrite <- app_assoc.
Qed.

Lemma validate_all_summary_witness :
  result_violations
    (validate_all
       ([("TriadValidator", Returned [])]
        ++ ("FSMValidator", Raised "boom")
           :: [("FSMSpecNamingValidator",
                Returned [ReportEntry "." None "r" "d"])]))
  = result_violations (validate_all [("TriadValidator", Returned [])])
    ++ ReportEntry "FSMValidator" None "validation_protocol"
         "Validator failed: boom"
       :: result_violations
            (validate_all
               [("FSMSpecNamingValidator",
                 Returned [ReportEntry "." None "r" "d"])]).
Proof.
  by apply (proj2 (proj2 (proj2 (proj2 (proj2 (validate_all_summary _)))))).
Defined.

(** ** The walk of [TriadValidator] *)

Lemma directory_ind (P : directory -> Prop) :
  (forall filenames subdirectories,
      Forall (fun entry => P (snd entry)) subdirectories ->
      P (Directory filenames subdirectories)) ->
  forall d, P d.
Proof.
  intros H. fix IH 1. intros [filenames subdirectories]. apply H.
  induction subdirectories as [|[name sub] rest IHrest]; constructor.
  - apply IH.
  - apply IHrest.
Qed.

Lemma string_leb_trans a b c :
  String.leb a b = true -> String.leb b c = true -> String.leb a c = true.
Proof.
  unfold String.leb. revert b c.
  induction a as [|x a IH]; intros [|y b] [|z c]; simpl; try done.
  unfold Ascii.compare.
  destruct (N.compare_spec (N_of_ascii x) (N_of_ascii y)) as [Hxy|Hxy|Hxy];
    destruct (N.compare_spec (N_of_ascii y) (N_of_ascii z)) as [Hyz|Hyz|Hyz];
    destruct (N.compare_spec (N_of_ascii x) (N_of_ascii z)) as [Hxz|Hxz|Hxz];
    try done; try lia.
  apply IH.
Qed.

Local Instance name_le_trans : Transitive name_le.
Proof. intros a b c. apply string_leb_trans. Qed.

Local Instance name_le_total : Total name_le.
Proof. intros a b. apply String.leb_total. Qed.

Local Instance name_le_antisym : AntiSymm (=) name_le.
Proof. intros a b. apply String.leb_antisym. Qed.

Lemma walked_dirnames_elem name dirnames :
  name ∈ walked_dirnames dirnames
  <-> name ∈ dirnames /\ Py.startswith "." name = false.
Proof.
  unfold walked_dirnames.
  rewrite merge_sort_Permutation, list_elem_of_filter.
  destruct (Py.startswith "." name); unfold Is_true; simpl;
    split; intros [? ?]; by split.
Qed.

Lemma walked_dirnames_relisted dirnames dirnames' :
  dirnames ≡ₚ dirnames' ->
  walked_dirnames dirnames = walked_dirnames dirnames'.
Proof.
  intros Hp. unfold walked_dirnames.
  apply (StronglySorted_unique name_le).
  - apply StronglySorted_merge_sort; apply _.
  - apply StronglySorted_merge_sort; apply _.
  - rewrite !merge_sort_Permutation. by rewrite Hp.
Qed.

Lemma dict_get_map {V W} (f : V -> W) name (d : list (string * V)) :
  Dict.get name (map (fun entry => (fst entry, f (snd entry))) d)
  = option_map f (Dict.get name d).
Proof.
  induction d as [|[k v] d IH]; simpl; [done|].
  by destruct (String.eqb k name).
Qed.

Lemma fold_left_frame {A B} (g : list B -> A -> list B) (l : list A) vs :
  (forall x ws, x ∈ l -> g ws x = ws ++ g [] x) ->
  fold_left g l vs = vs ++ flat_map (g []) l.
Proof.
  revert vs; induction l as [|x l IH]; intros vs Hg; simpl.
  - by rewrite app_nil_r.
  - rewrite IH by (intros; apply Hg; by right).
    rewrite (Hg x vs) by left. by rewrite app_assoc.
Qed.

Lemma triad_step_frame cfg TRIAD dirpath filenames vs :
  triad_step cfg TRIAD dirpath filenames vs
  = vs ++ triad_step cfg TRIAD dirpath filenames [].
Proof.
  unfold triad_step. destruct (missing_triad cfg filenames); simpl.
  - by rewrite app_nil_r.
  - done.
Qed.

Lemma triad_step_elem cfg TRIAD dirpath filenames e :
  e ∈ triad_step cfg TRIAD dirpath filenames []
  <-> missing_triad cfg filenames <> []
      /\ e = triad_entry cfg TRIAD dirpath filenames.
Proof.
  unfold triad_step, triad_entry.
  destruct (missing_triad cfg filenames) as [|m ms]; simpl.
  - rewrite elem_of_nil. tauto.
  - rewrite list_elem_of_singleton. split; [by intros ->|by intros [_ ->]].
Qed.

Lemma walk_into_frame_of cfg TRIAD subdirectories dirpath name ws :
  Forall
    (fun entry =>
       forall dirpath vs,
         triad_walk cfg TRIAD (snd entry) dirpath vs
         = vs ++ triad_walk cfg TRIAD (snd entry) dirpath [])
    subdirectories ->
  walk_into
    (map (fun entry => (fst entry, triad_walk cfg TRIAD (snd entry)))
       subdirectories) dirpath ws name
  = ws
    ++ walk_into
         (map (fun entry => (fst entry, triad_walk cfg TRIAD (snd entry)))
            subdirectories) dirpath [] name.
Proof.
  intros Hsub. unfold walk_into. rewrite dict_get_map.
  destruct (Dict.get name subdirectories) as [sub|] eqn:Hget; simpl.
  - assert (exists k, (k, sub) ∈ subdirectories) as [k Hk].
    { clear Hsub. induction subdirectories as [|[k0 v0] d IH]; [done|].
      simpl in Hget. destruct (String.eqb k0 name).
      - injection Hget as ->. exists k0. by left.
      - destruct (IH Hget) as [k Hk]. exists k. by right. }
    rewrite Forall_forall in Hsub. apply (Hsub _ Hk).
  - by rewrite app_nil_r.
Qed.

Lemma triad_walk_frame cfg TRIAD d :
  forall dirpath vs,
    triad_walk cfg TRIAD d dirpath vs
    = vs ++ triad_walk cfg TRIAD d dirpath [].
Proof.
  induction d as [filenames subdirectories IH] using directory_ind.
  intros dirpath vs. cbn [triad_walk].
  rewrite !(fold_left_frame (walk_into _ dirpath))
    by (intros; by apply walk_into_frame_of).
  rewrite (triad_step_frame _ _ _ _ vs). by rewrite app_assoc.
Qed.

Lemma triad_walk_unfold cfg TRIAD filenames subdirectories dirpath vs :
  triad_walk cfg TRIAD (Directory filenames subdirectories) dirpath vs
  = triad_step cfg TRIAD dirpath filenames vs
    ++ flat_map
         (fun name =>
            match Dict.get name subdirectories with
            | Some sub => triad_walk cfg TRIAD sub (dirpath ++ [name]) []
            | None => []
            end)
         (walked_dirnames (map fst subdirectories)).
Proof.
  cbn [triad_walk].
  rewrite fold_left_frame.
  - f_equal. apply flat_map_ext. intros name.
    unfold walk_into. rewrite dict_get_map.
    by destruct (Dict.get name subdirectories).
  - intros name ws _. apply walk_into_frame_of.
    apply Forall_forall. intros entry _. apply triad_walk_frame.
Qed.

Lemma dict_get_Some_elem {V} name (v : V) d :
  Dict.get name d = Some v -> (name, v) ∈ d.
Proof.
  induction d as [|[k0 v0] d IH]; simpl; [done|].
  destruct (String.eqb_spec k0 name) as [->|_].
  - intros [= ->]. by left.
  - intros Hget. right. by apply IH.
Qed.

Lemma flat_map_ext_elem {A B} (f g : A -> list B) (l : list A) :
  (forall x, x ∈ l -> f x = g x) -> flat_map f l = flat_map g l.
Proof.
  induction l as [|x l IH]; intros Hfg; simpl; [done|].
  rewrite (Hfg x) by left. f_equal. apply IH. intros; apply Hfg; by right.
Qed.

(** Extra. [TriadValidator] reports a directory exactly when it is reached
    from the root through directories whose names do not start with a dot
    and lacks one of the triad files: what is found in the walk of a
    directory, and so in [triad_validate] where [dirpath] is empty, are the
    entries of such directories, each naming the files it lacks.  Nothing
    below a hidden directory is reported. *)
Theorem triad_reported_iff (cfg : config) (TRIAD : string) (d : directory) :
  forall (dirpath : list string) (e : report_entry),
    e ∈ triad_walk cfg TRIAD d dirpath []
    <-> exists rest filenames subdirectories,
          reaches d rest (Directory filenames subdirectories)
          /\ missing_triad cfg filenames <> []
          /\ e = triad_entry cfg TRIAD (dirpath ++ rest) filenames.
Proof.
  induction d as [filenames subdirectories IH] using directory_ind.
  intros dirpath e. rewrite Forall_forall in IH.
  rewrite triad_walk_unfold, elem_of_app, triad_step_elem, elem_of_flat_map.
  split.
  - intros [[Hmissing ->]|(name & Hname & He)].
    + exists [], filenames, subdirectories.
      rewrite app_nil_r. split_and!; [constructor|done|done].
    + apply walked_dirnames_elem in Hname as [_ Hvisible].
      destruct (Dict.get name subdirectories) as [sub|] eqn:Hget;
        [|by apply elem_of_nil in He].
      apply (IH _ (dict_get_Some_elem _ _ _ Hget)) in He
        as (rest & filenames' & subdirectories' & Hreach & Hmissing & ->).
      exists (name :: rest), filenames', subdirectories'.
      split_and!; [by econstructor|done|].
      by rewrite <- app_assoc.
  - intros (rest & filenames' & subdirectories' & Hreach & Hmissing & ->).
    inversion Hreach as [|? ? name sub rest' ? Hget Hvisible Hsub]; subst.
    + left. by rewrite app_nil_r.
    + right. exists name. split.
      * apply walked_dirnames_elem. split; [|done].
        apply (dict_get_is_Some name subdirectories). by rewrite Hget.
      * rewrite Hget.
        apply (IH _ (dict_get_Some_elem _ _ _ Hget)).
        exists rest', filenames', subdirectories'.
        split_and!; [done|done|]. by rewrite <- app_assoc.
Qed.

(** Extra. The report of [TriadValidator] does not depend on the order in
    which the file system lists files and directories: two listings of the
    same tree give the same violations in the same order, the directory
    names being sorted before the walk goes on. *)
Theorem triad_listing_order_irrelevant (cfg : config) (TRIAD : string)
    (d d' : directory) :
  same_tree d d' ->
  forall dirpath vs,
    triad_walk cfg TRIAD d dirpath vs = triad_walk cfg TRIAD d' dirpath vs.
Proof.
  induction 1 as [filenames filenames' subdirectories subdirectories'
                    Hfiles Hnames _ IH].
  intros dirpath vs. rewrite !triad_walk_unfold.
  assert (missing_triad cfg filenames = missing_triad cfg filenames')
    as Hmissing.
  { unfold missing_triad. apply list_filter_iff. intros name.
    by rewrite Hfiles. }
  f_equal.
  - unfold triad_step. by rewrite Hmissing.
  - rewrite <- (walked_dirnames_relisted _ _ Hnames).
    apply flat_map_ext_elem. intros name [Hname _]%walked_dirnames_elem.
    assert (is_Some (Dict.get name subdirectories)) as [sub Hsub].
    { by apply dict_get_is_Some. }
    assert (is_Some (Dict.get name subdirectories')) as [sub' Hsub'].
    { apply dict_get_is_Some. unfold Dict.keys. by rewrite <- Hnames. }
    rewrite Hsub, Hsub'. by apply (IH name).
Qed.

Lemma triad_listing_order_irrelevant_witness :
  triad_walk repo_config "TRIAD" tree_sample [] []
  = triad_walk repo_config "TRIAD" tree_sample_relisted [] [].
Proof.
  apply triad_listing_order_irrelevant.
  assert (forall filenames filenames',
             filenames ≡ₚ filenames' ->
             same_tree (Directory filenames []) (Directory filenames' []))
    as Hleaf.
  { intros filenames filenames' Hfiles. by constructor. }
  constructor.
  - by apply (bool_decide_unpack _).
  - by apply (bool_decide_unpack _).
  - intros name sub sub' Hsub Hsub'. cbn [Dict.get] in Hsub.
    destruct (String.eqb_spec "tools" name) as [<-|_].
    { injection Hsub as <-. injection Hsub' as <-.
      apply Hleaf. by apply (bool_decide_unpack _). }
    destruct (String.eqb_spec ".git" name) as [<-|_].
    { injection Hsub as <-. injection Hsub' as <-.
      constructor; [done|done|].
      intros name sub sub' Hsub Hsub'. cbn [Dict.get] in Hsub.
      destruct (String.eqb_spec "hooks" name) as [<-|_]; [|done].
      injection Hsub as <-. injection Hsub' as <-. by apply Hleaf. }
    destruct (String.eqb_spec "docs" name) as [<-|_]; [|done].
    injection Hsub as <-. injection Hsub' as <-.
    apply Hleaf. by apply (bool_decide_unpack _).
Defined.
